(** * Smart-Home-Appliance-Webapp: the deterministic core of the AI service

  A shallow embedding of the Python service under [services/], and the
  properties of its specification.

  The code:
  - [PyText], [Regex], [Json]: the strings, the fragment of [re] and the
    JSON values the service works with;
  - [RateLimiter]: [services/core/rate_limiter.py];
  - [Context], [Gateway]: [services/llm/gemini_service.py];
  - [Agent]: [services/llm/ai_agent.py];
  - [ChatEndpoint]: the session store of [services/api/endpoints/chat.py];
  - [Usage], [Startup], [Api]: the rest of the rate limiter, the
    constructor of the service and the handlers of
    [services/api/endpoints/].

  The properties of the specification: [RateLimiterFacts],
  [ChatEndpointFacts], [GatewayFacts], [AgentFacts]; further properties of
  the code: [UsageFacts], [ApiFacts], [SessionFacts], [GatewayMoreFacts],
  [AnalysisFacts], [AgentMoreFacts], [RegexFacts], [EntityFacts].

  Conventions of the embedding.
  - A Python [str] is a Rocq [string].  The character tables ([lower],
    [upper], white space, word characters, digits, the letters
    [re.IGNORECASE] identifies) are Python's on ASCII text
    ([PyText.ascii_text]).  On other text Python's tables are larger than
    the model's: the upper case of a sharp s is two letters, the long s
    matches an s under [re.IGNORECASE], the digits of other scripts match
    [\d].  A property that depends on what the tables do to a text is
    stated for ASCII text.  Non-ASCII characters of the source's literals
    appear as their UTF-8 bytes.
  - Python integers are [Z]; lengths and counters of loops are [nat].
  - A Python [dict] used as a table is a [gmap], or an association list
    where the order of its keys matters; a [dict] used as a record is a Rocq
    record whose optional keys are [option] fields.
  - The wall clock, the two text providers, [json.loads] and the validation
    of the pydantic models are inputs of the functions that consult them:
    a call that raises is the value [None].  Where a method builds a model
    from values that the model refuses for a missing required field, that
    part of the validation is written out. *)

From Stdlib Require Import ZArith Ascii String List Bool Lia.
From stdpp Require Import base option list gmap strings pretty.

Local Open Scope string_scope.
Local Open Scope list_scope.
Local Open Scope Z_scope.

(** ** Python text primitives *)

Module PyText.

Definition code (c : ascii) : nat := nat_of_ascii c.

Definition in_range (lo hi : nat) (c : ascii) : bool :=
  (Nat.leb lo (code c)) && (Nat.leb (code c) hi).

Definition is_upper (c : ascii) : bool := in_range 65 90 c.
Definition is_lower (c : ascii) : bool := in_range 97 122 c.
Definition is_digit (c : ascii) : bool := in_range 48 57 c.

(** [str.isspace] on one character: TAB..CR, FS..US and the blank. *)
Definition is_space (c : ascii) : bool :=
  in_range 9 13 c || in_range 28 32 c.

(** The class [\w] of the [re] module. *)
Definition is_word (c : ascii) : bool :=
  is_upper c || is_lower c || is_digit c || Nat.eqb (code c) 95.

Definition lower_char (c : ascii) : ascii :=
  if is_upper c then ascii_of_nat (code c + 32) else c.

Definition upper_char (c : ascii) : ascii :=
  if is_lower c then ascii_of_nat (code c - 32) else c.

Fixpoint map_chars (f : ascii -> ascii) (s : string) : string :=
  match s with
  | EmptyString => EmptyString
  | String c t => String (f c) (map_chars f t)
  end.

(** [s.lower()] and [s.upper()] on ASCII text.  A character above 127 is
    left as it is, where Python maps the letters of the other alphabets. *)
Definition lower (s : string) : string := map_chars lower_char s.
Definition upper (s : string) : string := map_chars upper_char s.

(** The texts on which the tables of this module are Python's: every
    character is below 128. *)
Definition is_ascii (c : ascii) : bool := Nat.ltb (code c) 128.

Fixpoint ascii_text (s : string) : bool :=
  match s with
  | EmptyString => true
  | String c t => is_ascii c && ascii_text t
  end.

(** [s.startswith(p)]. *)
Definition startswith (s p : string) : bool := String.prefix p s.

(** [needle in hay]. *)
Fixpoint contains (needle hay : string) : bool :=
  String.prefix needle hay ||
  match hay with
  | EmptyString => false
  | String _ t => contains needle t
  end.

(** [any(w in s for w in ws)]. *)
Definition any_in (ws : list string) (s : string) : bool :=
  existsb (fun w => contains w s) ws.

(** [s[n:]] for a non-negative [n]. *)
Fixpoint drop_chars (n : nat) (s : string) : string :=
  match n, s with
  | O, _ => s
  | S _, EmptyString => EmptyString
  | S k, String _ t => drop_chars k t
  end.

Fixpoint lstrip (s : string) : string :=
  match s with
  | EmptyString => EmptyString
  | String c t => if is_space c then lstrip t else s
  end.

(** [rstrip]: a character is kept when it is not white space or when
    something is kept after it. *)
Fixpoint rstrip (s : string) : string :=
  match s with
  | EmptyString => EmptyString
  | String c t =>
      match rstrip t with
      | EmptyString => if is_space c then EmptyString else String c EmptyString
      | r => String c r
      end
  end.

(** [s.strip()]. *)
Definition strip (s : string) : string := rstrip (lstrip s).

(** [s.split(sep)] for a non-empty [sep]: the pieces between the
    occurrences of [sep], found from the left without overlap.  [skip]
    counts the characters of a separator still to be passed over. *)
Fixpoint split_from (sep : string) (skip : nat) (s : string) : list string :=
  match s with
  | EmptyString => [EmptyString]
  | String c t =>
      match skip with
      | S k => split_from sep k t
      | O =>
          if String.prefix sep s
          then EmptyString :: split_from sep (Nat.pred (String.length sep)) t
          else match split_from sep O t with
               | p :: ps => String c p :: ps
               | [] => [String c EmptyString]
               end
      end
  end.

Definition split (sep s : string) : list string := split_from sep O s.

(** [chr(10).join(lines)]. *)
Fixpoint join_lines (ls : list string) : string :=
  match ls with
  | [] => EmptyString
  | [l] => l
  | l :: rest => l +:+ String "010"%char (join_lines rest)
  end.

(** [str(n)] for an integer. *)
Definition str_of_Z (n : Z) : string := pretty n.
Definition str_of_nat (n : nat) : string := pretty n.

Definition truthy (s : string) : bool :=
  match s with EmptyString => false | _ => true end.

End PyText.

(** ** A backtracking matcher for the fragment of [re] the source uses

  Literals, [\d], [\s], [\b], sequence, ordered alternation, the greedy
  [*] and [?], and numbered capturing groups.  The matcher tries the
  alternatives in the order of Python's engine: the left branch of [|]
  first, one more iteration of [*] before leaving it, the body of [?]
  before skipping it. *)

Module Regex.
Import PyText.

Inductive regex : Type :=
| RChar (c : ascii)
| RDigit
| RSpace
| RBound
| REps
| RSeq (r1 r2 : regex)
| RAlt (r1 r2 : regex)
| RStar (r : regex)
| ROpt (r : regex)
| RGroup (n : nat) (r : regex).

(** The position of a match in progress: the character just passed (for
    [\b]), the text still ahead, and the groups closed so far. *)
Record mstate : Type := MState {
  prev : option ascii;
  rest : string;
  caps : gmap nat string
}.

(** A character of the pattern against a character of the subject; with
    [re.IGNORECASE] the ASCII letters are compared without their case.  This
    is Python's comparison when both are ASCII characters. *)
Definition char_eq (icase : bool) (p c : ascii) : bool :=
  if icase then Ascii.eqb (lower_char p) (lower_char c) else Ascii.eqb p c.

Definition word_before (st : mstate) : bool :=
  match prev st with Some c => is_word c | None => false end.

Definition word_after (st : mstate) : bool :=
  match rest st with String c _ => is_word c | EmptyString => false end.

Definition at_boundary (st : mstate) : bool :=
  xorb (word_before st) (word_after st).

Definition step_char (f : ascii -> bool) (st : mstate) : option mstate :=
  match rest st with
  | String c t => if f c then Some (MState (Some c) t (caps st)) else None
  | EmptyString => None
  end.

(** The text between two positions of the same subject. *)
Fixpoint take_chars (n : nat) (s : string) : string :=
  match n, s with
  | S k, String c t => String c (take_chars k t)
  | _, _ => EmptyString
  end.

Definition consumed (from to : string) : string :=
  take_chars (String.length from - String.length to)%nat from.

Definition close_group (n : nat) (open_st st : mstate) : mstate :=
  MState (prev st) (rest st) (<[n := consumed (rest open_st) (rest st)]> (caps st)).

Definition advanced (st st' : mstate) : bool :=
  Nat.ltb (String.length (rest st')) (String.length (rest st)).

Fixpoint run (icase : bool) (r : regex) (st : mstate)
    (k : mstate -> option mstate) {struct r} : option mstate :=
  match r with
  | RChar p => st' ← step_char (char_eq icase p) st; k st'
  | RDigit => st' ← step_char is_digit st; k st'
  | RSpace => st' ← step_char is_space st; k st'
  | RBound => if at_boundary st then k st else None
  | REps => k st
  | RSeq r1 r2 => run icase r1 st (fun st' => run icase r2 st' k)
  | RAlt r1 r2 =>
      match run icase r1 st k with
      | Some res => Some res
      | None => run icase r2 st k
      end
  | ROpt r1 =>
      match run icase r1 st k with
      | Some res => Some res
      | None => k st
      end
  | RStar r1 =>
      (fix star (n : nat) (st : mstate) {struct n} : option mstate :=
         match n with
         | O => k st
         | S n' =>
             match run icase r1 st
                     (fun st' => if advanced st st' then star n' st' else None) with
             | Some res => Some res
             | None => k st
             end
         end) (String.length (rest st)) st
  | RGroup n r1 => run icase r1 st (fun st' => k (close_group n st st'))
  end.

Definition match_here (icase : bool) (r : regex) (p : option ascii) (s : string)
    : option mstate :=
  run icase r (MState p s ∅) Some.

(** [re.search]: the leftmost position where the pattern matches. *)
Fixpoint search_from (icase : bool) (r : regex) (p : option ascii) (s : string)
    : option (string * mstate) :=
  match match_here icase r p s with
  | Some st => Some (s, st)
  | None =>
      match s with
      | EmptyString => None
      | String c t => search_from icase r (Some c) t
      end
  end.

Definition search (icase : bool) (r : regex) (s : string) : bool :=
  bool_decide (is_Some (search_from icase r None s)).

Fixpoint ngroups (r : regex) : nat :=
  match r with
  | RSeq r1 r2 | RAlt r1 r2 => Nat.max (ngroups r1) (ngroups r2)
  | RStar r1 | ROpt r1 => ngroups r1
  | RGroup n r1 => Nat.max n (ngroups r1)
  | _ => O
  end.

(** One element of the list [re.findall] returns: the whole match or the
    only group as a string, or the tuple of the groups when there are
    several; a group that took no part in the match gives the empty
    string. *)
Inductive found : Type :=
| FStr (s : string)
| FTuple (groups : list string).

Definition group (st : mstate) (n : nat) : string :=
  default EmptyString (caps st !! n).

Definition found_of (r : regex) (start : string) (st : mstate) : found :=
  match ngroups r with
  | O => FStr (consumed start (rest st))
  | S O => FStr (group st 1)
  | n => FTuple (map (group st) (seq 1 n))
  end.

(** [re.findall]: the matches from the left, without overlap.  [skip]
    counts the characters of the last match still to be passed over; after
    an empty match the scan moves on by one character. *)
Fixpoint findall_from (icase : bool) (r : regex) (skip : nat)
    (p : option ascii) (s : string) : list found :=
  match skip with
  | S k =>
      match s with
      | EmptyString => []
      | String c t => findall_from icase r k (Some c) t
      end
  | O =>
      match match_here icase r p s with
      | Some st =>
          found_of r s st ::
          match s with
          | EmptyString => []
          | String c t =>
              findall_from icase r
                (Nat.pred (String.length s - String.length (rest st))) (Some c) t
          end
      | None =>
          match s with
          | EmptyString => []
          | String c t => findall_from icase r O (Some c) t
          end
      end
  end.

Definition findall (icase : bool) (r : regex) (s : string) : list found :=
  findall_from icase r O None s.

(** Building patterns. *)
Fixpoint lit (s : string) : regex :=
  match s with
  | EmptyString => REps
  | String c t => RSeq (RChar c) (lit t)
  end.

Fixpoint alts (rs : list regex) : regex :=
  match rs with
  | [] => REps
  | [r] => r
  | r :: rest => RAlt r (alts rest)
  end.

Definition plus (r : regex) : regex := RSeq r (RStar r).

(** [rf'\b{re.escape(keyword)}\b']. *)
Definition whole_word (keyword : string) : regex :=
  RSeq RBound (RSeq (lit keyword) RBound).

End Regex.

(** ** [services/core/rate_limiter.py] *)

Module RateLimiter.

Definition CHAT_DAILY_LIMIT : Z := 100.
Definition ANALYSIS_DAILY_LIMIT : Z := 50.

(** A naive [datetime] is its distance from 0001-01-01 00:00:00 in
    microseconds.  The limiter reads its clock with [datetime.utcnow()]:
    the [now] of the functions below is that reading, a UTC wall-clock
    time. *)
Definition day_us : Z := 86400 * 1000000.

(** [t + timedelta(days=1)]. *)
Definition plus_one_day (t : Z) : Z := t + day_us.

(** [t.replace(hour=0, minute=0, second=0, microsecond=0)]. *)
Definition replace_midnight (t : Z) : Z := t - t mod day_us.

Definition next_reset (now : Z) : Z := replace_midnight (plus_one_day now).

(** The innermost dictionary, with its two optional keys. *)
Record usage : Type := Usage {
  count : option Z;
  reset_at : option Z
}.

Definition no_usage : usage := Usage None None.

(** [self._limits]: [{user_id: {action_type: {...}}}]. *)
Abbreviation limits := (gmap string (gmap string usage)).

(** [self._limits[user_id][action_type]] on the nested [defaultdict]: the
    record read, and the table with the missing levels created. *)
Definition record_of (st : limits) (user_id action_type : string) : usage :=
  default no_usage (default ∅ (st !! user_id) !! action_type).

Definition store (st : limits) (user_id action_type : string) (r : usage) : limits :=
  <[user_id := <[action_type := r]> (default ∅ (st !! user_id))]> st.

Record rate_check : Type := RateCheck {
  allowed : bool;
  remaining : Z;
  limit : Z;
  check_reset_at : Z;
  current_count : Z
}.

Definition check_rate_limit (now : Z) (st : limits)
    (user_id action_type : string) (limit : Z) : limits * rate_check :=
  let user_limits := record_of st user_id action_type in
  let '(user_limits, reset) :=
    match reset_at user_limits with
    | Some r =>
        if now >=? r
        then (Usage (Some 0) (Some (next_reset now)), next_reset now)
        else (user_limits, r)
    | None => (Usage (Some 0) (Some (next_reset now)), next_reset now)
    end in
  let current_count := default 0 (count user_limits) in
  let remaining := Z.max 0 (limit - current_count) in
  (store st user_id action_type user_limits,
   RateCheck (current_count <? limit) remaining limit reset current_count).

Definition increment_count (st : limits) (user_id action_type : string)
    : limits * Z :=
  let r := record_of st user_id action_type in
  let new_count := default 0 (count r) + 1 in
  (store st user_id action_type (Usage (Some new_count) (reset_at r)), new_count).

(** [reset_user_limits], for the administrator. *)
Definition reset_user_limits (st : limits) (user_id : string)
    (action_type : option string) : limits :=
  match action_type with
  | Some a =>
      if PyText.truthy a then
        match st !! user_id with
        | Some m =>
            match m !! a with
            | Some _ => <[user_id := <[a := no_usage]> m]> st
            | None => st
            end
        | None => st
        end
      else
        match st !! user_id with Some _ => <[user_id := ∅]> st | None => st end
  | None =>
      match st !! user_id with Some _ => <[user_id := ∅]> st | None => st end
  end.

(** A run of calls for one user and one action type. *)
Inductive call : Type :=
| Check (now limit : Z)
| Increment.

Definition step (user_id action_type : string) (st : limits) (c : call)
    : limits * option rate_check :=
  match c with
  | Check now limit =>
      let '(st', res) := check_rate_limit now st user_id action_type limit in
      (st', Some res)
  | Increment => (fst (increment_count st user_id action_type), None)
  end.

Fixpoint run_calls (user_id action_type : string) (st : limits) (cs : list call)
    : limits * list rate_check :=
  match cs with
  | [] => (st, [])
  | c :: cs' =>
      let '(st', res) := step user_id action_type st c in
      let '(st'', rs) := run_calls user_id action_type st' cs' in
      (st'', match res with Some x => x :: rs | None => rs end)
  end.

Definition check_time (c : call) : option Z :=
  match c with Check now _ => Some now | Increment => None end.

(** The record of the pair exists, its window is open until [r] and it
    has counted [c] actions. *)
Definition window (st : limits) (user_id action_type : string) (r c : Z) : Prop :=
  st !! user_id ≫= (λ m, m !! action_type) = Some (Usage (Some c) (Some r)).

(** The wording of the specification: a local midnight, on a host whose
    local time is [utc_offset] microseconds ahead of UTC. *)
Definition spec_local_midnight (utc_offset t_utc : Z) : Prop :=
  (t_utc + utc_offset) mod day_us = 0.

(** What the checks of a run report when the window stays open until [r]
    and the count starts at [c]. *)
Fixpoint reports (r c : Z) (cs : list call) : list rate_check :=
match cs with
| [] => []
| Check now l :: cs' =>
    RateCheck (c <? l) (Z.max 0 (l - c)) l r c :: reports r c cs'
| Increment :: cs' => reports r (c + 1) cs'
end.

Fixpoint increments (cs : list call) : Z :=
match cs with
| [] => 0
| Check _ _ :: cs' => increments cs'
| Increment :: cs' => 1 + increments cs'
end.

Definition before (r : Z) (c : call) : Prop :=
match c with Check now _ => now < r | Increment => True end.

(** The table a first check at time 0 leaves for one user. *)
Definition opened : limits :=
fst (check_rate_limit 0 ∅ "alice" "chat" CHAT_DAILY_LIMIT).

(** The table after a first check at time 0 and two counted actions. *)
Definition used_twice : limits :=
fst (increment_count (fst (increment_count opened "alice" "chat")) "alice" "chat").

End RateLimiter.

(** ** The system context and the chat turns, as the services read them *)

Module Context.

(** A load descriptor: the keys the services read with [.get]. *)
Record load : Type := Load {
  name : option string;
  is_on : bool;
  current_power : option Z
}.

Record alert : Type := Alert {
  severity : option string;
  message : option string
}.

(** A chat turn, a dictionary with the keys [role] and [content]. *)
Record turn : Type := Turn {
  role : option string;
  content : option string
}.

(** [system_context]; a missing list reads as the empty list.  The
    serialisations are what [json.dumps(..., indent=2)] prints for the
    three lists of the context, [None] when it raises; only the prompt of
    [chat] reads them. *)
Record context : Type := Ctx {
  loads : list load;
  recentAlerts : list alert;
  loads_json : option string;
  alerts_json : option string;
  trends_json : option string;
  timestamp : option string
}.

Definition power (l : load) : Z := default 0 (current_power l).

(** [sum(l.get('current_power', 0) for l in loads)]. *)
Definition total_power (ls : list load) : Z :=
  foldr (fun l acc => power l + acc) 0 ls.

(** [sum(1 for l in loads if l.get('is_on'))]. *)
Definition active_loads (ls : list load) : nat :=
  length (filter (fun l => is_on l = true) ls).

(** Contexts for the examples; the serialisations are left out where the
    functions of the example do not read them. *)
Definition warn (text : string) : alert := Alert (Some "warning") (Some text).

Definition heater_on : list load := [Load (Some "AC Heater") true (Some 1500)].

Definition quiet : context := Ctx [] [] (Some "[]") (Some "[]") (Some "[]") None.

Definition seven_alerts : context :=
Ctx [] (replicate 7 (warn "w")) None None None None.

End Context.

(** ** JSON values, as [json.loads] returns them *)

Module Json.

Local Unset Elimination Schemes.

Inductive json : Type :=
| JNull
| JBool (b : bool)
| JInt (n : Z)
| JFloat (lexeme : string)
| JStr (s : string)
| JArr (items : list json)
| JObj (fields : list (string * json)).

Local Set Elimination Schemes.

(** [d.get(key)] on a dictionary whose keys are listed once. *)
Fixpoint dict_get (key : string) (fields : list (string * json)) : option json :=
match fields with
| [] => None
| (k, v) :: rest => if String.eqb k key then Some v else dict_get key rest
end.

(** [data.get(key, default)]; [None] when [data] is not a dictionary and the
    attribute access raises. *)
Definition get (data : json) (key : string) (dflt : json) : option json :=
match data with
| JObj fields => Some (default dflt (dict_get key fields))
| _ => None
end.

(** *** A reference reader

    It stands for [json.loads] in the examples.  It reads the JSON of
    RFC 8259 except the [\u] escapes and the numbers with a fraction or an
    exponent, which it refuses; a key given twice keeps its last value. *)

Definition dq : ascii := "034"%char.
Definition backslash : ascii := "092"%char.

Definition is_json_ws (c : ascii) : bool :=
existsb (Nat.eqb (nat_of_ascii c)) [32; 9; 10; 13]%nat.

Fixpoint skip_ws (s : string) : string :=
match s with
| String c t => if is_json_ws c then skip_ws t else s
| EmptyString => s
end.

Definition unescape (c : ascii) : option ascii :=
if Ascii.eqb c dq then Some dq
else if Ascii.eqb c backslash then Some backslash
else if Ascii.eqb c "/" then Some "/"%char
else if Ascii.eqb c "b" then Some "008"%char
else if Ascii.eqb c "f" then Some "012"%char
else if Ascii.eqb c "n" then Some "010"%char
else if Ascii.eqb c "r" then Some "013"%char
else if Ascii.eqb c "t" then Some "009"%char
else None.

(** The text of a string after its opening quote, and what follows its
    closing quote. *)
Fixpoint read_string (s : string) : option (string * string) :=
match s with
| EmptyString => None
| String c t =>
    if Ascii.eqb c dq then Some (EmptyString, t)
    else if Ascii.eqb c backslash then
      match t with
      | String e t' =>
          e' ← unescape e;
          '(body, rest) ← read_string t';
          Some (String e' body, rest)
      | EmptyString => None
      end
    else if Nat.ltb (nat_of_ascii c) 32 then None
    else '(body, rest) ← read_string t; Some (String c body, rest)
end.

Fixpoint read_digits (acc : Z) (s : string) : Z * string :=
match s with
| String c t =>
    if PyText.is_digit c
    then read_digits (10 * acc + Z.of_nat (nat_of_ascii c - 48)) t
    else (acc, s)
| EmptyString => (acc, s)
end.

Definition ends_number (rest : string) : bool :=
match rest with
| String c _ => negb (Ascii.eqb c "." || Ascii.eqb c "e" || Ascii.eqb c "E")
| EmptyString => true
end.

(** An integer: [0], or digits that do not start with [0]. *)
Definition read_natural (s : string) : option (Z * string) :=
match s with
| String c t =>
    if Ascii.eqb c "0" then
      match t with
      | String d _ => if PyText.is_digit d then None else
                        if ends_number t then Some (0, t) else None
      | EmptyString => Some (0, t)
      end
    else if PyText.is_digit c then
      let '(n, rest) := read_digits 0 s in
      if ends_number rest then Some (n, rest) else None
    else None
| EmptyString => None
end.

Fixpoint dict_set (key : string) (v : json) (fields : list (string * json))
    : list (string * json) :=
match fields with
| [] => [(key, v)]
| (k, w) :: rest =>
    if String.eqb k key then (k, v) :: rest else (k, w) :: dict_set key v rest
end.

Fixpoint read_value (fuel : nat) (s : string) : option (json * string) :=
match fuel with
| O => None
| S fuel' =>
    match skip_ws s with
    | EmptyString => None
    | String c t as s' =>
        if Ascii.eqb c "{" then
          match skip_ws t with
          | String d t' =>
              if Ascii.eqb d "}" then Some (JObj [], t')
              else read_members fuel' [] (String d t')
          | EmptyString => None
          end
        else if Ascii.eqb c "[" then
          match skip_ws t with
          | String d t' =>
              if Ascii.eqb d "]" then Some (JArr [], t')
              else read_items fuel' [] (String d t')
          | EmptyString => None
          end
        else if Ascii.eqb c dq then
          '(body, rest) ← read_string t; Some (JStr body, rest)
        else if String.prefix "true" s' then Some (JBool true, PyText.drop_chars 4 s')
        else if String.prefix "false" s' then Some (JBool false, PyText.drop_chars 5 s')
        else if String.prefix "null" s' then Some (JNull, PyText.drop_chars 4 s')
        else if Ascii.eqb c "-" then
          '(n, rest) ← read_natural t; Some (JInt (- n), rest)
        else '(n, rest) ← read_natural s'; Some (JInt n, rest)
    end
end
with read_items (fuel : nat) (acc : list json) (s : string) : option (json * string) :=
match fuel with
| O => None
| S fuel' =>
    '(v, rest) ← read_value fuel' s;
    match skip_ws rest with
    | String c t =>
        if Ascii.eqb c "," then read_items fuel' (acc ++ [v]) t
        else if Ascii.eqb c "]" then Some (JArr (acc ++ [v]), t)
        else None
    | EmptyString => None
    end
end
with read_members (fuel : nat) (acc : list (string * json)) (s : string)
    : option (json * string) :=
match fuel with
| O => None
| S fuel' =>
    match skip_ws s with
    | String c t =>
        if Ascii.eqb c dq then
          '(key, rest) ← read_string t;
          match skip_ws rest with
          | String d t' =>
              if Ascii.eqb d ":" then
                '(v, rest') ← read_value fuel' t';
                match skip_ws rest' with
                | String e t'' =>
                    if Ascii.eqb e "," then read_members fuel' (dict_set key v acc) t''
                    else if Ascii.eqb e "}" then Some (JObj (dict_set key v acc), t'')
                    else None
                | EmptyString => None
                end
              else None
          | EmptyString => None
          end
        else None
    | EmptyString => None
    end
end.

Definition loads_ref (s : string) : option json :=
'(v, rest) ← read_value (2 * String.length s + 2) s;
match skip_ws rest with
| EmptyString => Some v
| _ => None
end.

(** A JSON string literal for a text without quotes or backslashes. *)
Definition quoted (s : string) : string := String dq (s +:+ String dq EmptyString).

End Json.

(** ** [services/llm/gemini_service.py] *)

Module Gateway.
Import PyText Context Json.

Definition E : string := EmptyString.
Definition nl : string := String "010"%char EmptyString.

(** The two attributes of the service the methods read. *)
Record service : Type := Service {
  initialized : bool;
  cerebras_api_key : option string
}.

Definition has_cerebras (svc : service) : bool :=
match cerebras_api_key svc with
| Some key => truthy key
| None => false
end.

(** *** The deterministic fallback responder *)

Definition load_status_line (l : load) : string :=
"• **" +:+ default "Unknown" (name l) +:+ "**: "
  +:+ (if is_on l then "ON" else "OFF")
  +:+ " (" +:+ str_of_Z (power l) +:+ "W)".

Definition alert_line (a : alert) : string :=
"• **" +:+ upper (default "Info" (severity a)) +:+ "**: "
  +:+ default "No message" (message a).

Definition load_breakdown_line (l : load) : string :=
"• " +:+ default "Unknown" (name l) +:+ ": " +:+ str_of_Z (power l) +:+ "W".

Definition no_alerts (alerts : list alert) : bool :=
match alerts with [] => true | _ => false end.

Definition fallback_status (loads : list load) (alerts : list alert) : string :=
let load_status := map load_status_line loads in
join_lines [
  "## Current System Status";
  E;
  "### Load States";
  match load_status with
  | [] => "No load data available"
  | _ => join_lines load_status
  end;
  E;
  "### Active Alerts";
  if no_alerts alerts then " No active alerts"
  else " " +:+ str_of_nat (length alerts) +:+ " active alert(s)";
  E;
  "### Summary";
  "The system is operating "
    +:+ (if no_alerts alerts then "normally"
         else "with some alerts that need attention") +:+ ".";
  E;
  "---";
  "Would you like more details about any specific load or alert?"
].

Definition fallback_alerts (alerts : list alert) : string :=
if no_alerts alerts then
  join_lines [
    "## Alert Status";
    E;
    " **No active alerts!**";
    E;
    "Your system is operating normally. All loads are within expected parameters.";
    E;
    "---";
    "Is there anything specific you'd like me to check?"
  ]
else
  join_lines [
    "## Active Alerts";
    E;
    join_lines (map alert_line (take 5 alerts));
    E;
    "### Recommendations";
    "- Check the affected loads for any physical issues";
    "- Review the power readings for anomalies";
    "- Consider reducing load if power consumption is high";
    E;
    "---";
    "Need help with a specific alert?"
  ].

Definition fallback_energy (loads : list load) : string :=
join_lines [
  "## Energy Overview";
  E;
  "### Current Consumption";
  "**Total Power**: " +:+ str_of_Z (total_power loads) +:+ "W";
  E;
  "### Load Breakdown";
  join_lines (map load_breakdown_line loads);
  E;
  "### Energy-Saving Tips";
  "1. Turn off unused devices during peak hours";
  "2. Consider using timers for heaters";
  "3. Monitor high-consumption devices closely";
  E;
  "---";
  "Would you like a detailed energy report?"
].

Definition fallback_default (loads : list load) (alerts : list alert) : string :=
join_lines [
  "## Smart Load Dashboard Assistant";
  E;
  "I'm here to help you with your smart electrical monitoring system!";
  E;
  "### What I Can Help With";
  "• **System Status** - Check current load states and readings";
  "• **Alerts & Warnings** - View and understand active alerts";
  "• **Energy Analysis** - Get insights on power consumption";
  "• **Control Recommendations** - Safe operation guidance";
  "• **Troubleshooting** - Help diagnose issues";
  E;
  "### Current Quick Stats";
  "- Active Loads: " +:+ str_of_nat (active_loads loads) +:+ " / "
     +:+ str_of_nat (length loads);
  "- Total Power: " +:+ str_of_Z (total_power loads) +:+ "W";
  "- Active Alerts: " +:+ str_of_nat (length alerts);
  E;
  "---";
  "How can I assist you today?"
].

Definition _generate_fallback_response (message : string) (ctx : context) : string :=
let message_lower := lower message in
let loads := loads ctx in
let alerts := recentAlerts ctx in
if any_in ["status"; "state"; "how"; "what"] message_lower then
  fallback_status loads alerts
else if any_in ["alert"; "warning"; "problem"; "issue"] message_lower then
  fallback_alerts alerts
else if any_in ["energy"; "power"; "consumption"; "cost"] message_lower then
  fallback_energy loads
else
  fallback_default loads alerts.

(** *** [chat] *)

(** [chat_history[-6:] if len(chat_history) > 6 else chat_history]. *)
Definition recent_turns (chat_history : list turn) : list turn :=
if Nat.ltb 6 (length chat_history)
then drop (length chat_history - 6) chat_history
else chat_history.

Definition turn_text (msg : turn) : string :=
(if bool_decide (role msg = Some "user") then "User" else "Assistant")
  +:+ ": " +:+ default E (content msg) +:+ nl +:+ nl.

Definition conversation_context (chat_history : option (list turn)) : string :=
match chat_history with
| Some h => foldl (fun acc msg => acc +:+ turn_text msg) E (recent_turns h)
| None => E
end.

(** The prompt of [chat].  [now_iso] is [datetime.now().isoformat()]; the
    result is [None] when [json.dumps] raises on one of the three lists. *)
Definition chat_prompt (now_iso message : string) (ctx : context)
    (chat_history : option (list turn)) : option string :=
let conv := conversation_context chat_history in
l ← loads_json ctx;
a ← alerts_json ctx;
t ← trends_json ctx;
Some (join_lines [
  "You are an expert AI assistant for a smart electrical load monitoring dashboard.";
  "You help users understand their energy usage, device status, anomalies, and potential issues.";
  E;
  "=== SYSTEM STATE ===";
  "**Loads Status:**";
  l;
  E;
  "**Recent Alerts:**";
  a;
  E;
  "**Hourly Trends:**";
  t;
  E;
  "**Timestamp:** " +:+ default now_iso (timestamp ctx);
  E;
  "=== RESPONSE GUIDELINES ===";
  "1. Be concise and helpful - users want quick, actionable insights";
  "2. Focus on the electrical loads: DC Fan, AC Bulb, AC Heater, etc.";
  "3. Provide specific data from the context when available";
  "4. Warn about any abnormal readings or active alerts";
  "5. Suggest energy-saving tips when relevant";
  "6. If asked about controls, explain but remind about safety";
  "7. Use proper formatting with headers and bullet points";
  "8. Include actual numbers and measurements when discussing data";
  E;
  if truthy conv then "=== CONVERSATION HISTORY ===" +:+ nl +:+ conv else E;
  E;
  "=== USER QUESTION ===";
  message;
  E;
  "Provide a helpful, detailed response:"
]).

Section Providers.

(** [self.model.generate_content(prompt).text]: [None] when the call or the
    access raises, [Some t] for the text returned (possibly empty). *)
Variable generate_content : string -> option string.

(** [self._call_cerebras(prompt, system_prompt)]: [None] when it raises. *)
Variable call_cerebras : string -> string -> option string.

(** [json.loads]: [None] when it raises. *)
Variable json_loads : string -> option json.

Definition cerebras_or_fallback (svc : service) (prompt system_prompt : string)
    (message : string) (ctx : context) : string :=
match (if has_cerebras svc then call_cerebras prompt system_prompt else None) with
| Some result => strip result
| None => _generate_fallback_response message ctx
end.

Definition chat (svc : service) (now_iso message : string) (ctx : context)
    (chat_history : option (list turn)) : string :=
if negb (initialized svc) then _generate_fallback_response message ctx
else
  match chat_prompt now_iso message ctx chat_history with
  | Some prompt =>
      match generate_content prompt with
      | Some text =>
          if truthy text then strip text
          else cerebras_or_fallback svc prompt E message ctx
      | None => cerebras_or_fallback svc prompt E message ctx
      end
  | None =>
      cerebras_or_fallback svc
        ("User question about smart home energy monitoring: " +:+ message)
        "You are an expert AI assistant for a smart electrical load monitoring dashboard."
        message ctx
  end.

(** *** The structured endpoints *)

(** The cleaning of a model answer before [json.loads]; [None] when the
    index [1] is out of range. *)
Definition clean_fences (response_text : string) : option string :=
let text := strip response_text in
if startswith text "```" then
  text ← split "```" text !! 1%nat;
  let text := if startswith text "json" then drop_chars 4 text else text in
  Some (strip text)
else Some text.

(** What a structured endpoint reads from the model: the parsed answer, or
    [None] when the call raised, the text was empty, or the parse raised.
    [prompt] is the f-string of the endpoint, [None] when building it
    raises. *)
Definition model_json (prompt : option string) : option json :=
p ← prompt;
text ← generate_content p;
if truthy text then clean_fences text ≫= json_loads else None.

Record AnomalyReport : Type := MkAnomalyReport {
  has_anomaly : json;
  anomaly_severity : json;
  issues : json;
  anomaly_summary : json;
  safety_alerts : json;
  efficiency_tips : json
}.

(** The validation of the pydantic model: [false] when the constructor
    raises. *)
Variable valid_anomaly : AnomalyReport -> bool.

Definition _generate_fallback_anomaly_report : AnomalyReport :=
MkAnomalyReport (JBool false) (JStr "none") (JArr [])
  (JStr "AI analysis temporarily unavailable. Manual inspection recommended.")
  (JArr [])
  (JArr [JStr "Regularly monitor power consumption";
         JStr "Check connections periodically"]).

Definition anomaly_of_json (data : json) : option AnomalyReport :=
a ← get data "has_anomaly" (JBool false);
b ← get data "severity" (JStr "none");
c ← get data "issues" (JArr []);
d ← get data "summary" (JStr E);
e ← get data "safety_alerts" (JArr []);
f ← get data "efficiency_tips" (JArr []);
let report := MkAnomalyReport a b c d e f in
if valid_anomaly report then Some report else None.

Definition analyze_anomalies (svc : service) (prompt : option string) : AnomalyReport :=
if negb (initialized svc) then _generate_fallback_anomaly_report
else
  match model_json prompt ≫= anomaly_of_json with
  | Some report => report
  | None => _generate_fallback_anomaly_report
  end.

Record EnergyInsight : Type := MkEnergyInsight {
  insight_summary : json;
  total_consumption_kwh : json;
  estimated_cost : json;
  peak_usage_time : json;
  highest_consumer : json;
  trends : json;
  recommendations : json;
  comparison_note : json;
  time_period : string
}.

(** The validation of [EnergyInsight].  The field [highest_consumer] is an
    [Optional[HighestConsumer]]: [None] passes, a dictionary must hold the
    three required fields of [HighestConsumer], and any other value is
    refused.  [valid_insight] is the rest of the validation: the types of
    the values. *)
Definition highest_consumer_required : list string :=
["load_name"; "consumption_kwh"; "percentage"].

Definition has_key (fields : list (string * json)) (key : string) : bool :=
match dict_get key fields with Some _ => true | None => false end.

Definition highest_consumer_ok (v : json) : bool :=
match v with
| JNull => true
| JObj fields => forallb (has_key fields) highest_consumer_required
| _ => false
end.

Variable valid_insight : EnergyInsight -> bool.

(** The constructor [EnergyInsight(...)]: [None] when it raises. *)
Definition new_insight (insight : EnergyInsight) : option EnergyInsight :=
if highest_consumer_ok (highest_consumer insight) && valid_insight insight
then Some insight else None.

(** [_generate_fallback_energy_insight]: the constructor is called with
    [highest_consumer={}]. *)
Definition _generate_fallback_energy_insight (time_period : string)
    : option EnergyInsight :=
new_insight
  (MkEnergyInsight
     (JStr ("Energy analysis for " +:+ time_period +:+ " period"))
     (JInt 0) (JInt 0) (JStr "Unknown") (JObj []) (JArr [])
     (JArr [JObj [("title", JStr "Monitor Usage");
                  ("description", JStr "Keep track of your daily energy consumption");
                  ("potential_savings", JStr "5-10%");
                  ("priority", JStr "medium")]])
     (JStr "Detailed comparison requires AI service")
     time_period).

Definition insight_of_json (time_period : string) (data : json) : option EnergyInsight :=
a ← get data "summary" (JStr E);
b ← get data "total_consumption_kwh" (JInt 0);
c ← get data "estimated_cost" (JInt 0);
d ← get data "peak_usage_time" (JStr E);
e ← get data "highest_consumer" (JObj []);
f ← get data "trends" (JArr []);
g ← get data "recommendations" (JArr []);
h ← get data "comparison_note" (JStr E);
new_insight (MkEnergyInsight a b c d e f g h time_period).

(** [generate_energy_insights]: [None] when the method raises.  The two
    calls of the fallback are outside the [try]: what the fallback raises
    leaves the method. *)
Definition generate_energy_insights (svc : service) (prompt : option string)
    (time_period : string) : option EnergyInsight :=
if negb (initialized svc) then _generate_fallback_energy_insight time_period
else
  match model_json prompt ≫= insight_of_json time_period with
  | Some insight => Some insight
  | None => _generate_fallback_energy_insight time_period
  end.

Definition allow (reason : string) : json :=
JObj [("approved", JBool true); ("reason", JStr reason); ("warnings", JArr [])].

Definition get_control_recommendation (svc : service) (prompt : option string) : json :=
if negb (initialized svc) then allow "AI not available, allowing action"
else
  match model_json prompt with
  | Some recommendation => recommendation
  | None => allow "Could not process recommendation"
  end.

(** [result['approved'] == True] on what the method returned. *)
Definition approved (recommendation : json) : bool :=
match recommendation with
| JObj fields =>
    match dict_get "approved" fields with
    | Some (JBool true) => true
    | _ => false
    end
| _ => false
end.

End Providers.

(** The primary provider fails: every call raises or returns no text. *)
Definition gemini_fails (generate_content : string -> option string) : Prop :=
forall prompt, generate_content prompt = None \/ generate_content prompt = Some E.

(** The secondary provider fails: it has no key, or every call raises. *)
Definition cerebras_fails (call_cerebras : string -> string -> option string)
    (svc : service) : Prop :=
has_cerebras svc = false \/ forall prompt sys, call_cerebras prompt sys = None.

(** The wrapping of the specification: the payload between a fence with the
    [json] tag and a closing fence, on lines of their own. *)
Definition fenced (payload : string) : string :=
"```json" +:+ nl +:+ payload +:+ nl +:+ "```".

(** A JSON object whose only string holds a fence. *)
Definition payload_with_fence : string :=
"{" +:+ quoted "summary" +:+ ": " +:+ quoted "see ```log``` output" +:+ "}".

Definition ready : service := Service true None.

(** What [analyze_anomalies] builds from [payload_with_fence]. *)
Definition report_of_payload_with_fence : AnomalyReport :=
MkAnomalyReport (JBool false) (JStr "none") (JArr [])
  (JStr "see ```log``` output") (JArr []) (JArr []).

(** Values of the declared types, for the examples: a validation of the
    models accepts them. *)
Definition is_str (j : json) : bool :=
match j with JStr _ => true | _ => false end.

Definition is_number (j : json) : bool :=
match j with JInt _ | JFloat _ => true | _ => false end.

Definition is_list_of (f : json -> bool) (j : json) : bool :=
match j with JArr items => forallb f items | _ => false end.

Definition is_dict (j : json) : bool :=
match j with JObj _ => true | _ => false end.

Definition severity_levels : list string :=
["none"; "low"; "medium"; "high"; "critical"].

Definition is_severity (j : json) : bool :=
match j with JStr s => existsb (String.eqb s) severity_levels | _ => false end.

(** An anomaly report without issues whose values have the declared
    types. *)
Definition plain_anomaly (r : AnomalyReport) : bool :=
match has_anomaly r with JBool _ => true | _ => false end
&& is_severity (anomaly_severity r)
&& match issues r with JArr [] => true | _ => false end
&& is_str (anomaly_summary r)
&& is_list_of is_str (safety_alerts r)
&& is_list_of is_str (efficiency_tips r).

(** An insight without trends and recommendations whose values have the
    declared types. *)
Definition plain_insight (i : EnergyInsight) : bool :=
is_str (insight_summary i)
&& is_number (total_consumption_kwh i)
&& is_number (estimated_cost i)
&& is_str (peak_usage_time i)
&& match highest_consumer i with
   | JNull => true
   | JObj fields =>
       is_str (default JNull (dict_get "load_name" fields))
       && is_number (default JNull (dict_get "consumption_kwh" fields))
       && is_number (default JNull (dict_get "percentage" fields))
   | _ => false
   end
&& match trends i with JArr [] => true | _ => false end
&& match recommendations i with JArr [] => true | _ => false end
&& is_str (comparison_note i).

(** An answer of the model that [EnergyInsight] accepts. *)
Definition energy_answer : string :=
"{" +:+ quoted "summary" +:+ ": " +:+ quoted "Usage is normal" +:+ ", "
  +:+ quoted "highest_consumer" +:+ ": {"
  +:+ quoted "load_name" +:+ ": " +:+ quoted "AC Heater" +:+ ", "
  +:+ quoted "consumption_kwh" +:+ ": 8, "
  +:+ quoted "percentage" +:+ ": 65}}".

(** A model that answers the prompt [energy] with [energy_answer] and
    raises on every other prompt. *)
Definition energy_model (prompt : string) : option string :=
if String.eqb prompt "energy" then Some energy_answer else None.

(** No fence starts inside [body] when a fence follows it. *)
Fixpoint fence_clear (body : string) : bool :=
match body with
| EmptyString => true
| String _ t => negb (String.prefix "```" (body +:+ "```")) && fence_clear t
end.

End Gateway.

(** ** [services/llm/ai_agent.py] *)

Module Agent.
Import PyText Context Regex.

Inductive QuestionIntent : Type :=
| STATUS | ALERTS | ENERGY | COST | CONTROL | ANOMALY | COMPARISON | TREND
| SCHEDULE | MAINTENANCE | SAFETY | OPTIMIZATION | HISTORY | FORECAST | GENERAL.

#[global] Instance QuestionIntent_eq_dec : EqDecision QuestionIntent.
Proof. solve_decision. Defined.

Definition intent_value (i : QuestionIntent) : string :=
match i with
| STATUS => "status" | ALERTS => "alerts" | ENERGY => "energy" | COST => "cost"
| CONTROL => "control" | ANOMALY => "anomaly" | COMPARISON => "comparison"
| TREND => "trend" | SCHEDULE => "schedule" | MAINTENANCE => "maintenance"
| SAFETY => "safety" | OPTIMIZATION => "optimization" | HISTORY => "history"
| FORECAST => "forecast" | GENERAL => "general"
end.

(** [self.intent_keywords], in the order the dictionary is written. *)
Definition intent_keywords : list (QuestionIntent * list string) := [
  (STATUS, ["status"; "state"; "running"; "on"; "off"; "active"; "current";
            "what is"; "show me"; "display"; "check"]);
  (ALERTS, ["alert"; "warning"; "alarm"; "problem"; "issue"; "error";
            "notification"; "critical"; "urgent"; "danger"]);
  (ENERGY, ["energy"; "power"; "watt"; "kwh"; "consumption"; "usage";
            "electricity"; "draw"; "load"]);
  (COST, ["cost"; "price"; "bill"; "expense"; "money"; "dollar";
          "save"; "savings"; "expensive"; "cheap"]);
  (CONTROL, ["turn on"; "turn off"; "switch"; "control"; "operate";
             "start"; "stop"; "enable"; "disable"; "toggle"]);
  (ANOMALY, ["anomaly"; "unusual"; "abnormal"; "strange"; "weird";
             "unexpected"; "spike"; "irregular"; "detect"]);
  (COMPARISON, ["compare"; "versus"; "vs"; "difference"; "which";
                "better"; "worse"; "more"; "less"; "between"]);
  (TREND, ["trend"; "pattern"; "over time"; "increasing"; "decreasing";
           "graph"; "chart"; "history"; "change"]);
  (SCHEDULE, ["schedule"; "timer"; "automate"; "automation"; "when";
              "time"; "program"; "routine"; "set time"]);
  (MAINTENANCE, ["maintenance"; "repair"; "fix"; "service"; "replace";
                 "lifespan"; "wear"; "check up"; "inspection"]);
  (SAFETY, ["safe"; "safety"; "dangerous"; "hazard"; "risk";
            "fire"; "shock"; "overload"; "protection"]);
  (OPTIMIZATION, ["optimize"; "efficient"; "efficiency"; "improve";
                  "reduce"; "lower"; "minimize"; "best"; "tips"]);
  (HISTORY, ["yesterday"; "last week"; "last month"; "previous";
             "historical"; "past"; "before"; "ago"]);
  (FORECAST, ["predict"; "forecast"; "future"; "expect"; "will";
              "estimate"; "project"; "tomorrow"; "next"])
].

(** [\b(w1|w2|...)\b]. *)
Definition word_of (group_no : nat) (ws : list string) : regex :=
RSeq RBound (RSeq (RGroup group_no (alts (map lit ws))) RBound).

(** [\b(\d+(?:\.\d+)?)\s*(w|kw|kwh|watts?|kilowatts?)?\b]. *)
Definition number_pattern : regex :=
RSeq RBound
 (RSeq (RGroup 1 (RSeq (plus RDigit) (ROpt (RSeq (RChar ".") (plus RDigit)))))
  (RSeq (RStar RSpace)
   (RSeq (ROpt (RGroup 2 (alts [lit "w"; lit "kw"; lit "kwh";
                                RSeq (lit "watt") (ROpt (RChar "s"));
                                RSeq (lit "kilowatt") (ROpt (RChar "s"))])))
    RBound))).

(** [self.entity_patterns], in the order the dictionary is written. *)
Definition entity_patterns : list (string * regex) := [
  ("load_name", word_of 1 ["fan"; "bulb"; "heater"; "ac"; "dc"; "motor";
                           "pump"; "light"; "lamp"]);
  ("time_period", word_of 1 ["today"; "yesterday"; "this week"; "last week";
                             "this month"; "hour"; "day"; "week"; "month"]);
  ("number", number_pattern);
  ("action", word_of 1 ["turn on"; "turn off"; "switch on"; "switch off";
                        "start"; "stop"; "enable"; "disable"])
].

(** [sum(w for keyword in keywords if test(keyword))]. *)
Definition sum_if (w : nat) (test : string -> bool) (keywords : list string) : nat :=
foldr (fun keyword acc => if test keyword then (w + acc)%nat else acc) O keywords.

Definition intent_score (message_lower : string) (keywords : list string) : nat :=
let score := sum_if 1 (fun keyword => contains keyword message_lower) keywords in
(score + sum_if 2 (fun keyword => search false (whole_word keyword) message_lower)
                 keywords)%nat.

(** [max(d, key=d.get)] continued after [best]: a later key replaces the
    best one only with a strictly greater value. *)
Fixpoint max_by {A : Type} (key : A -> nat) (best : A) (rest : list A) : A :=
match rest with
| [] => best
| x :: rest' => max_by key (if Nat.ltb (key best) (key x) then x else best) rest'
end.

Definition intent_scores (message_lower : string) : list (QuestionIntent * nat) :=
map (fun '(intent, keywords) => (intent, intent_score message_lower keywords))
    intent_keywords.

Definition detect_intent (message : string) : QuestionIntent :=
let message_lower := lower message in
match intent_scores message_lower with
| first :: others =>
    let max_intent := max_by snd first others in
    if Nat.ltb 0 (snd max_intent) then fst max_intent else GENERAL
| [] => GENERAL
end.

(** The flattening loop of [extract_entities]. *)
Definition flatten_found (m : found) : list string :=
match m with
| FTuple groups => filter (fun g => truthy g = true) groups
| FStr s => [s]
end.

Definition flattened (matches : list found) : list string :=
concat (map flatten_found matches).

Definition extract_step (message_lower : string)
    (entities : gmap string (list string)) (entry : string * regex)
    : gmap string (list string) :=
let '(entity_type, pattern) := entry in
match findall true pattern message_lower with
| [] => entities
| matches => <[entity_type := flattened matches]> entities
end.

Definition extract_entities (message : string) : gmap string (list string) :=
foldl (extract_step (lower message)) ∅ entity_patterns.

Definition follow_up_indicators : list string := [
  "what about"; "how about"; "and"; "also"; "more";
  "tell me more"; "explain"; "why"; "can you";
  "elaborate"; "details"; "specifically"; "that";
  "this"; "it"; "them"; "those"
].

Definition is_follow_up (message : string) : bool :=
any_in follow_up_indicators (lower message).

Definition get_intent_guidance (intent : QuestionIntent) (ctx : context) : string :=
let alerts := recentAlerts ctx in
match intent with
| STATUS =>
    "Report the CURRENT STATE of the system or specific loads. "
    +:+ "Include on/off status, power readings, and any relevant metrics."
| ALERTS =>
    "Focus on ALERTS and WARNINGS. There are currently "
    +:+ str_of_nat (length alerts) +:+ " active alerts. "
    +:+ "Explain severity, affected devices, and recommended actions."
| ENERGY =>
    "Discuss ENERGY CONSUMPTION. Provide power readings in Watts, "
    +:+ "consumption in kWh, and contextual comparisons."
| COST =>
    "Analyze COSTS. Calculate estimated expenses, identify high-cost devices, "
    +:+ "and suggest cost-saving opportunities."
| CONTROL =>
    "Address CONTROL requests. Evaluate safety before recommending actions. "
    +:+ "Consider current load state and any active alerts."
| ANOMALY =>
    "Analyze for ANOMALIES. Look for unusual patterns, unexpected readings, "
    +:+ "or deviations from normal operation."
| COMPARISON =>
    "Provide COMPARISON analysis. Compare the requested items/periods "
    +:+ "with specific metrics and highlight differences."
| TREND =>
    "Discuss TRENDS over time. Identify patterns, changes in consumption, "
    +:+ "and notable shifts in usage behavior."
| SCHEDULE =>
    "Address SCHEDULING. Suggest optimal times for operation, "
    +:+ "automation possibilities, and time-based efficiency."
| MAINTENANCE =>
    "Provide MAINTENANCE guidance. Suggest inspection schedules, "
    +:+ "signs of wear, and preventive measures."
| SAFETY =>
    "Address SAFETY concerns immediately. Prioritize hazard identification, "
    +:+ "protective measures, and emergency procedures."
| OPTIMIZATION =>
    "Focus on OPTIMIZATION and efficiency. Provide actionable tips "
    +:+ "to reduce consumption and improve performance."
| HISTORY =>
    "Present HISTORICAL data. Reference past readings, events, "
    +:+ "and changes over the specified time period."
| FORECAST =>
    "Provide PREDICTIONS based on current data and historical patterns. "
    +:+ "Include confidence levels and assumptions."
| GENERAL =>
    "Provide a comprehensive response using all relevant context. "
    +:+ "Be helpful and informative."
end.

Definition _enhance_response (response : string) (intent : QuestionIntent)
    (ctx : context) : string :=
let alerts := recentAlerts ctx in
if bool_decide (intent = ALERTS) && negb (Gateway.no_alerts alerts)
   && negb (contains "alert" (lower response))
then response +:+ Gateway.nl +:+ Gateway.nl +:+ "---" +:+ Gateway.nl
       +:+ "**Quick Alert Summary**: " +:+ str_of_nat (length alerts)
       +:+ " active alert(s)"
else if bool_decide (intent = ENERGY)
        && negb (contains (str_of_Z (total_power (loads ctx))) response)
then response +:+ Gateway.nl +:+ Gateway.nl +:+ "---" +:+ Gateway.nl
       +:+ "**Current Total Power**: " +:+ str_of_Z (total_power (loads ctx)) +:+ "W"
else response.

Record query_result : Type := QueryResult {
  response : string;
  intent : string;
  entities : gmap string (list string);
  follow_up : bool;
  ai_enabled : bool
}.

(** [process_query].  The enriched context differs from [system_context]
    by the key [_analysis], which [chat] does not read. *)
Definition process_query
    (generate_content : string -> option string)
    (call_cerebras : string -> string -> option string)
    (svc : Gateway.service) (now_iso message : string) (system_context : context)
    (chat_history : option (list turn)) : query_result :=
let intent := detect_intent message in
let entities := extract_entities message in
let is_follow_up := is_follow_up message in
let response :=
  Gateway.chat generate_content call_cerebras svc now_iso message system_context
               chat_history in
let response := _enhance_response response intent system_context in
QueryResult response (intent_value intent) entities is_follow_up
            (Gateway.initialized svc).

(** *** Quick insights *)

Definition is_critical (a : alert) : bool :=
bool_decide (severity a = Some "critical").

Definition critical_alerts (alerts : list alert) : nat :=
length (filter (fun a => is_critical a = true) alerts).

Record health : Type := Health {
  status : string;
  health_message : string
}.

Record metrics : Type := Metrics {
  total_power_w : Z;
  n_active_loads : nat;
  total_loads : nat;
  active_alerts : nat;
  n_critical_alerts : nat
}.

Record insights : Type := Insights {
  insight_health : health;
  insight_metrics : metrics;
  quick_tips : list string
}.

Definition high_power_tip (l : load) : list string :=
if is_on l && (500 <? power l)
then [" " +:+ default "High-power load" (name l) +:+ " is consuming significant power"]
else [].

(** [hour] is [datetime.now().hour]. *)
Definition _generate_quick_tips (hour : Z) (loads : list load) (alerts : list alert)
    : list string :=
let tips := concat (map high_power_tip loads) in
let tips :=
  if Gateway.no_alerts alerts then tips
  else (tips ++ [" Review " +:+ str_of_nat (length alerts)
                   +:+ " active alert(s) in the Alerts panel"])%list in
let tips :=
  if (9 <=? hour) && (hour <=? 17)
  then (tips ++ [" Peak hours - consider postponing non-essential high-power tasks"])%list
  else if (22 <=? hour) || (hour <? 6)
  then (tips ++ [" Off-peak hours - good time for high-power scheduled tasks"])%list
  else tips in
let tips :=
  match tips with
  | [] => [" All systems normal - no immediate actions required"]
  | _ => tips
  end in
take 5 tips.

Definition system_health (alerts : list alert) : health :=
let critical := critical_alerts alerts in
if Nat.ltb 0 critical then
  Health "critical"
         (" " +:+ str_of_nat critical +:+ " critical alert(s) require attention")
else if Nat.ltb 3 (length alerts) then
  Health "warning"
         ("Multiple alerts (" +:+ str_of_nat (length alerts) +:+ ") - review recommended")
else
  Health "healthy" "System operating normally".

Definition get_quick_insights (hour : Z) (system_context : context) : insights :=
let loads := loads system_context in
let alerts := recentAlerts system_context in
Insights
  (system_health alerts)
  (Metrics (total_power loads) (active_loads loads) (length loads)
           (length alerts) (critical_alerts alerts))
  (_generate_quick_tips hour loads alerts).

(** *** The readings of the specification *)

(** The two counts of the specification. *)
Definition substring_count (message_lower : string) (keywords : list string) : nat :=
length (filter (fun keyword => contains keyword message_lower = true) keywords).

Definition whole_word_count (message_lower : string) (keywords : list string) : nat :=
length (filter (fun keyword => search false (whole_word keyword) message_lower = true)
               keywords).

(** The pattern of an entity type in [entity_patterns]. *)
Fixpoint pattern_in (patterns : list (string * regex)) (entity_type : string)
    : option regex :=
match patterns with
| [] => None
| (ty, pat) :: rest =>
    if String.eqb ty entity_type then Some pat else pattern_in rest entity_type
end.

(** The guidance for [ALERTS] with [n] alerts. *)
Definition alerts_guidance (n : nat) : string :=
"Focus on ALERTS and WARNINGS. There are currently "
  +:+ str_of_nat n +:+ " active alerts. "
  +:+ "Explain severity, affected devices, and recommended actions.".

End Agent.

(** ** [services/api/endpoints/chat.py]: the session store *)

Module ChatEndpoint.
Import Context.

(** [chat_sessions]. *)
Abbreviation sessions := (gmap string (list turn)).

(** [chat_sessions.get(session_id, [])]. *)
Definition history (store : sessions) (session_id : string) : list turn :=
default [] (store !! session_id).

(** [l[-20:]]. *)
Definition last20 (l : list turn) : list turn := drop (length l - 20) l.

(** The store after one exchange: the two turns are appended and the list
    is cut back to its last 20 entries when it is longer. *)
Definition store_exchange (store : sessions) (session_id : string)
    (user_message assistant_response : string) : sessions :=
let store :=
  match store !! session_id with
  | Some _ => store
  | None => <[session_id := []]> store
  end in
let appended :=
  (history store session_id
     ++ [Turn (Some "user") (Some user_message)]
     ++ [Turn (Some "assistant") (Some assistant_response)])%list in
if Nat.ltb 20 (length appended)
then <[session_id := last20 appended]> store
else <[session_id := appended]> store.

(** [clear_chat_history]. *)
Definition clear_chat_history (store : sessions) (session_id : string) : sessions :=
match store !! session_id with
| Some _ => delete session_id store
| None => store
end.

(** The two turns of an exchange, and the turns of a run of exchanges. *)
Definition turns_of (exchange : string * string) : list turn :=
[Turn (Some "user") (Some (fst exchange));
 Turn (Some "assistant") (Some (snd exchange))].

Definition run_exchanges (store : sessions) (session_id : string)
    (exchanges : list (string * string)) : sessions :=
foldl (fun st ex => store_exchange st session_id (fst ex) (snd ex)) store exchanges.

End ChatEndpoint.

(** ** The rest of [services/core/rate_limiter.py] *)

Module Usage.
Import RateLimiter.

(** [get_usage_stats]: the count and the reset time of every action type
    of the user, read with [.get] and so without creating a record;
    [now] is [datetime.utcnow()]. *)
Definition get_usage_stats (now : Z) (st : limits) (user_id : string)
    : gmap string (Z * Z) :=
(fun data => (default 0 (count data), default (now + day_us) (reset_at data)))
  <$> default ∅ (st !! user_id).

End Usage.

(** ** [GeminiService.__init__] *)

Module Startup.
Import PyText Gateway.

Inductive provider : Type := gemini | cerebras.

Definition key_present (key : option string) : bool :=
match key with Some k => truthy k | None => false end.

(** What the constructor leaves: the service attributes, the current
    provider, and whether [self.model] was set.  [configure_ok] tells
    whether the SDK calls of the [try] block return. *)
Record started : Type := Started {
  service_of : service;
  current_provider : provider;
  has_model : bool
}.

(** The settings object of [core/config.py]: the fields its class
    declares, and the text each of them holds ([None] for Python's [None]).
    The class ignores what the environment sets beyond its fields
    ([extra = "ignore"]), and reading an attribute it does not declare
    raises [AttributeError]. *)
Record settings : Type := Settings {
  declared : list string;
  value_of : string -> option string
}.

Definition getattr (s : settings) (name : string) : option (option string) :=
if existsb (String.eqb name) (declared s) then Some (value_of s name) else None.

(** The fields of the class [Settings]. *)
Definition settings_fields : list string := [
  "app_name"; "app_version"; "debug"; "gemini_api_key"; "host"; "port";
  "cors_origins"; "chat_daily_limit"; "analysis_daily_limit"; "database_url";
  "db_host"; "db_port"; "db_name"; "db_user"; "db_password";
  "nodejs_backend_url"; "log_level"
].

(** [Settings()] in an environment. *)
Definition get_settings (env : string -> option string) : settings :=
Settings settings_fields env.

(** The three names the constructor reads. *)
Definition read_by_init : list string :=
["gemini_api_key"; "cerebras_api_key"; "cerebras_model"].

(** [GeminiService()]: [None] when the constructor raises. *)
Definition init (s : settings) (configure_ok : bool) : option started :=
api_key ← getattr s "gemini_api_key";
cerebras_api_key ← getattr s "cerebras_api_key";
_ ← getattr s "cerebras_model";
Some
  (if negb (key_present api_key) then
     if key_present cerebras_api_key
     then Started (Service true cerebras_api_key) cerebras false
     else Started (Service false cerebras_api_key) gemini false
   else if configure_ok then
     Started (Service true cerebras_api_key) gemini true
   else if key_present cerebras_api_key
     then Started (Service true cerebras_api_key) cerebras false
     else Started (Service false cerebras_api_key) gemini false).

(** [self.model.generate_content]: the attribute access raises when the
    constructor did not set [self.model]. *)
Definition model_of (s : started) (generate_content : string -> option string)
    : string -> option string :=
if has_model s then generate_content else fun _ => None.

End Startup.

(** ** The endpoints of [services/api/endpoints/] *)

Module Api.
Import PyText Context Json RateLimiter.


(** [system_context = {}], the context of a request that asks for none. *)
Definition no_context : context :=
Ctx [] [] (Some "[]") (Some "[]") (Some "[]") None.

Record ChatRequest : Type := MkChatRequest {
  request_message : string;
  request_session_id : option string;
  include_context : bool
}.

(** [request.session_id or f"default_{current_user}"]. *)
Definition session_of (request : ChatRequest) (current_user : string) : string :=
match request_session_id request with
| Some s => if truthy s then s else "default_" +:+ current_user
| None => "default_" +:+ current_user
end.

(** What an endpoint answers: its body, or one of the HTTP errors the
    handlers raise. *)
Inductive reply (A : Type) : Type :=
| Ok (body : A)
| RateLimited (check : rate_check)
| NotFound (detail : string)
| ServerError.

Arguments Ok {A} body.
Arguments RateLimited {A} check.
Arguments NotFound {A} detail.
Arguments ServerError {A}.

(** The two module-level tables of the process. *)
Record tables : Type := Tables {
  limits_of : gmap string (gmap string usage);
  sessions_of : gmap string (list turn)
}.

Section Handlers.

Variable generate_content : string -> option string.
Variable call_cerebras : string -> string -> option string.
Variable json_loads : string -> option json.
Variable valid_anomaly : Gateway.AnomalyReport -> bool.
Variable valid_insight : Gateway.EnergyInsight -> bool.
Variable svc : Gateway.service.

(** [POST /chat/].  [now] is the clock of the rate check, [now_iso] the
    clock of the prompt, [provided] what [get_system_context] returns. *)
Definition chat_endpoint (now : Z) (now_iso : string) (provided : context)
    (t : tables) (request : ChatRequest) (current_user : string)
    : tables * reply Agent.query_result :=
let '(lim, rate_check) :=
  check_rate_limit now (limits_of t) current_user "chat" CHAT_DAILY_LIMIT in
if negb (allowed rate_check) then
  (Tables lim (sessions_of t), RateLimited rate_check)
else
  let system_context := if include_context request then provided else no_context in
  let session_id := session_of request current_user in
  let chat_history := ChatEndpoint.history (sessions_of t) session_id in
  let result :=
    Agent.process_query generate_content call_cerebras svc now_iso
      (request_message request) system_context (Some chat_history) in
  let sess :=
    ChatEndpoint.store_exchange (sessions_of t) session_id
      (request_message request) (Agent.response result) in
  (Tables (fst (increment_count lim current_user "chat")) sess, Ok result).

(** [POST /analysis/anomaly]; [prompt] as for [Gateway.analyze_anomalies]. *)
Definition anomaly_endpoint (now : Z) (t : tables) (prompt : option string)
    (current_user : string) : tables * reply Gateway.AnomalyReport :=
let '(lim, rate_check) :=
  check_rate_limit now (limits_of t) current_user "analysis" ANALYSIS_DAILY_LIMIT in
if negb (allowed rate_check) then
  (Tables lim (sessions_of t), RateLimited rate_check)
else
  let report :=
    Gateway.analyze_anomalies generate_content json_loads valid_anomaly svc prompt in
  (Tables (fst (increment_count lim current_user "analysis")) (sessions_of t),
   Ok report).

(** [GET /insights/energy]: what [generate_energy_insights] raises is
    answered with 500, before the count is incremented. *)
Definition energy_endpoint (now : Z) (t : tables) (prompt : option string)
    (time_period current_user : string) : tables * reply Gateway.EnergyInsight :=
let '(lim, rate_check) :=
  check_rate_limit now (limits_of t) current_user "analysis" ANALYSIS_DAILY_LIMIT in
if negb (allowed rate_check) then
  (Tables lim (sessions_of t), RateLimited rate_check)
else
  match Gateway.generate_energy_insights generate_content json_loads
          valid_insight svc prompt time_period with
  | Some insights =>
      (Tables (fst (increment_count lim current_user "analysis")) (sessions_of t),
       Ok insights)
  | None => (Tables lim (sessions_of t), ServerError)
  end.

(** [GET /chat/rate-limit]: the usage statistics are read first, the check
    comes second. *)
Record rate_status : Type := RateStatus {
  status_limit : Z;
  status_remaining : Z;
  status_reset_at : Z;
  status_usage : gmap string (Z * Z)
}.

Definition rate_limit_endpoint (now_stats now_check : Z) (t : tables)
    (current_user : string) : tables * rate_status :=
let stats := Usage.get_usage_stats now_stats (limits_of t) current_user in
let '(lim, chat_limit) :=
  check_rate_limit now_check (limits_of t) current_user "chat" CHAT_DAILY_LIMIT in
(Tables lim (sessions_of t),
 RateStatus (limit chat_limit) (remaining chat_limit) (check_reset_at chat_limit)
            stats).

(** [GET /chat/history/{session_id}]: the identifiers, roles and contents
    of the messages, and their number.  [None] when a stored role is
    not a member of [MessageRole] and the handler answers 500. *)
Definition message_role (r : option string) : option string :=
match r with
| Some s =>
    if existsb (String.eqb s) ["user"; "assistant"; "system"] then Some s else None
| None => None
end.

Fixpoint chat_messages (session_id : string) (i : nat) (messages : list turn)
    : option (list (string * string * string)) :=
match messages with
| [] => Some []
| msg :: rest =>
    r ← message_role (role msg);
    c ← content msg;
    tail ← chat_messages session_id (S i) rest;
    Some ((session_id +:+ "_" +:+ str_of_nat i, r, c) :: tail)
end.

Definition get_chat_history (t : tables) (session_id : string)
    : reply (list (string * string * string) * nat) :=
match chat_messages session_id O (ChatEndpoint.history (sessions_of t) session_id) with
| Some msgs => Ok (msgs, length msgs)
| None => ServerError
end.

(** [DELETE /chat/history/{session_id}]. *)
Definition clear_endpoint (t : tables) (session_id : string) : tables :=
Tables (limits_of t) (ChatEndpoint.clear_chat_history (sessions_of t) session_id).

(** *** Runs of rate-limited calls of one user *)

Inductive call : Type :=
| CallChat (now : Z) (now_iso : string) (provided : context) (request : ChatRequest)
| CallAnomaly (now : Z) (prompt : option string)
| CallEnergy (now : Z) (prompt : option string) (time_period : string)
| CallRateLimit (now_stats now_check : Z).

(** The clock of the rate check of a call. *)
Definition check_clock (c : call) : Z :=
match c with
| CallChat now _ _ _ | CallAnomaly now _ | CallEnergy now _ _ => now
| CallRateLimit _ now_check => now_check
end.

Definition is_ok {A : Type} (r : reply A) : bool :=
match r with Ok _ => true | _ => false end.

(** The tables after a call, and whether it was answered with a body. *)
Definition serve (current_user : string) (t : tables) (c : call) : tables * bool :=
match c with
| CallChat now now_iso provided request =>
    let '(t', r) := chat_endpoint now now_iso provided t request current_user in
    (t', is_ok r)
| CallAnomaly now prompt =>
    let '(t', r) := anomaly_endpoint now t prompt current_user in (t', is_ok r)
| CallEnergy now prompt time_period =>
    let '(t', r) := energy_endpoint now t prompt time_period current_user in
    (t', is_ok r)
| CallRateLimit now_stats now_check =>
    (fst (rate_limit_endpoint now_stats now_check t current_user), true)
end.

Fixpoint serve_all (current_user : string) (t : tables) (cs : list call)
    : tables * list bool :=
match cs with
| [] => (t, [])
| c :: rest =>
    let '(t', ok) := serve current_user t c in
    let '(t'', oks) := serve_all current_user t' rest in
    (t'', ok :: oks)
end.

Definition is_chat (c : call) : bool :=
match c with CallChat _ _ _ _ => true | _ => false end.

Definition is_analysis (c : call) : bool :=
match c with CallAnomaly _ _ | CallEnergy _ _ _ => true | _ => false end.

(** Whether the handler of a call comes to its [return] once the rate
    check has let it through: the energy handler does when
    [generate_energy_insights] returns, the others always do. *)
Definition returns (c : call) : bool :=
match c with
| CallEnergy _ prompt time_period =>
    match Gateway.generate_energy_insights generate_content json_loads
            valid_insight svc prompt time_period with
    | Some _ => true
    | None => false
    end
| _ => true
end.

Definition chat_calls (cs : list call) : Z :=
Z.of_nat (length (filter (fun c => is_chat c = true) cs)).

(** The anomaly calls and the energy calls whose handler returns. *)
Definition analysis_calls (cs : list call) : Z :=
Z.of_nat (length (filter (fun c => is_analysis c && returns c = true) cs)).

(** The calls of a kind that were answered with a body. *)
Definition answered (kind : call -> bool) (cs : list call) (oks : list bool) : Z :=
Z.of_nat (length (filter (fun x => kind (fst x) && snd x = true) (zip cs oks))).

End Handlers.

(** *** [analysis.py]: the load analysis and the system health *)

(** A load of the context with its identifier. *)
Record load_row : Type := LoadRow {
  load_id : option Z;
  load_info : load
}.

(** The loop that looks for the load: the first row with the identifier. *)
Fixpoint find_load (rows : list load_row) (id : Z) : option load_row :=
match rows with
| [] => None
| row :: rest =>
    if bool_decide (load_id row = Some id) then Some row else find_load rest id
end.

(** [LoadAnalysis] without the voltage and the current, which are copied
    from the row. *)
Record LoadAnalysis : Type := MkLoadAnalysis {
  analysed_id : Z;
  load_name : string;
  load_status : string;
  current_power_w : Z;
  health_score : Z;
  anomalies : list string;
  load_recommendations : list string
}.

Definition analyze_load (rows : list load_row) (id : Z) : reply LoadAnalysis :=
match find_load rows id with
| None => NotFound ("Load " +:+ str_of_Z id +:+ " not found")
| Some row =>
    let info := load_info row in
    let power := power info in
    let '(anomalies, recommendations, health_score) := ([], [], 100) in
    let '(anomalies, recommendations, health_score) :=
      if 100 <? power
      then (anomalies ++ ["High power consumption detected"],
            recommendations ++ ["Consider reducing usage or checking for issues"],
            health_score - 10)
      else (anomalies, recommendations, health_score) in
    let '(anomalies, recommendations, health_score) :=
      if is_on info && (power =? 0)
      then (anomalies ++ ["Load is on but showing zero power"],
            recommendations ++ ["Check sensor connections"],
            health_score - 20)
      else (anomalies, recommendations, health_score) in
    Ok (MkLoadAnalysis id
          (default ("Load " +:+ str_of_Z id) (name info))
          (if is_on info then "on" else "off")
          power health_score anomalies recommendations)
end.

Record system_health : Type := SystemHealth {
  health_status : string;
  system_score : Z;
  health_metrics : Agent.metrics
}.

(** The body of [GET /analysis/system-health] for a context. *)
Definition get_system_health (ctx : context) : system_health :=
let loads := loads ctx in
let alerts := recentAlerts ctx in
let critical_alerts := Agent.critical_alerts alerts in
let '(status, score) :=
  if Nat.ltb 0 critical_alerts then ("critical", 40)
  else if Nat.ltb 3 (length alerts) then ("warning", 70)
  else ("healthy", 95) in
SystemHealth status score
  (Agent.Metrics (total_power loads) (active_loads loads) (length loads)
                 (length alerts) critical_alerts).

(** *** [analysis.py]: the control recommendation *)

Record ControlRecommendation : Type := MkControlRecommendation {
  cr_approved : json;
  cr_reason : json;
  cr_warnings : json;
  cr_suggestions : json;
  cr_confidence : string
}.

Section Control.

Variable generate_content : string -> option string.
Variable json_loads : string -> option json.
Variable svc : Gateway.service.

(** The truth value of a float given by its lexeme. *)
Variable float_truthy : string -> bool.

(** The validation of [ControlRecommendation].  [approved] is a required
    [bool]: [None], a list and a dictionary are refused.  [valid_control]
    is the rest of the validation. *)
Definition approved_ok (j : json) : bool :=
match j with
| JNull | JArr _ | JObj _ => false
| _ => true
end.

Variable valid_control : ControlRecommendation -> bool.

(** [bool(x)] for a JSON value. *)
Definition json_truthy (j : json) : bool :=
match j with
| JNull => false
| JBool b => b
| JInt n => negb (n =? 0)
| JFloat lexeme => float_truthy lexeme
| JStr s => truthy s
| JArr items => match items with [] => false | _ => true end
| JObj fields => match fields with [] => false | _ => true end
end.

Definition control_endpoint (rows : list load_row) (id : Z)
    (prompt : option string) : reply ControlRecommendation :=
match find_load rows id with
| None => NotFound ("Load " +:+ str_of_Z id +:+ " not found")
| Some _ =>
    match Gateway.get_control_recommendation generate_content json_loads svc prompt with
    | JObj fields =>
        let recommendation :=
          MkControlRecommendation
            (default (JBool true) (dict_get "approved" fields))
            (default (JStr "No specific recommendation") (dict_get "reason" fields))
            (default (JArr []) (dict_get "warnings" fields))
            (default (JArr []) (dict_get "suggestions" fields))
            (if json_truthy (default JNull (dict_get "approved" fields))
             then "0.9" else "0.7") in
        if approved_ok (cr_approved recommendation) && valid_control recommendation
        then Ok recommendation else ServerError
    | _ => ServerError
    end
end.

End Control.

(** A recommendation whose values have the declared types: a validation of
    the model accepts it. *)
Definition well_typed_control (r : ControlRecommendation) : bool :=
match cr_approved r with JBool _ => true | _ => false end
&& Gateway.is_str (cr_reason r)
&& Gateway.is_list_of Gateway.is_str (cr_warnings r)
&& Gateway.is_list_of Gateway.is_str (cr_suggestions r).

(** *** Tables and calls for the examples *)

(** The tables after a first check of each action type at time 0. *)
Definition both_open : tables :=
Tables
  (fst (check_rate_limit 0
          (fst (check_rate_limit 0 ∅ "alice" "chat" CHAT_DAILY_LIMIT))
          "alice" "analysis" ANALYSIS_DAILY_LIMIT))
  ∅.

Definition sixty_analyses : list call :=
replicate 30 (CallAnomaly 5 None) ++ [CallRateLimit 5 5]
  ++ replicate 30 (CallEnergy 6 (Some "energy") "daily").

(** The loads of [get_system_context] in [analysis.py]. *)
Definition mock_rows : list load_row := [
  LoadRow (Some 1) (Load (Some "DC Fan") true (Some 45));
  LoadRow (Some 2) (Load (Some "AC Bulb") true (Some 60));
  LoadRow (Some 3) (Load (Some "AC Heater") false (Some 0))
].

End Api.

(** ** What a pattern matches

    The relation between the position where a pattern starts and a position
    where it can end, with the groups closed on the way.  The matcher of
    [Regex] searches this relation in the order of Python's engine. *)

Module RegexSem.
Import PyText Regex.

Inductive matches (icase : bool) : regex -> mstate -> mstate -> Prop :=
| MChar c st st' :
    step_char (char_eq icase c) st = Some st' -> matches icase (RChar c) st st'
| MDigit st st' :
    step_char is_digit st = Some st' -> matches icase RDigit st st'
| MSpace st st' :
    step_char is_space st = Some st' -> matches icase RSpace st st'
| MBound st :
    at_boundary st = true -> matches icase RBound st st
| MEps st : matches icase REps st st
| MSeq r1 r2 st st1 st2 :
    matches icase r1 st st1 -> matches icase r2 st1 st2 ->
    matches icase (RSeq r1 r2) st st2
| MAltL r1 r2 st st' :
    matches icase r1 st st' -> matches icase (RAlt r1 r2) st st'
| MAltR r1 r2 st st' :
    matches icase r2 st st' -> matches icase (RAlt r1 r2) st st'
| MStarNil r st : matches icase (RStar r) st st
| MStarCons r st st1 st2 :
    matches icase r st st1 -> matches icase (RStar r) st1 st2 ->
    matches icase (RStar r) st st2
| MOptSome r st st' :
    matches icase r st st' -> matches icase (ROpt r) st st'
| MOptNone r st : matches icase (ROpt r) st st
| MGroup n r st st' :
    matches icase r st st' ->
    matches icase (RGroup n r) st (close_group n st st').

(** Whether a pattern has a group with the number [n]. *)
Fixpoint has_group (n : nat) (r : regex) : bool :=
match r with
| RSeq r1 r2 | RAlt r1 r2 => has_group n r1 || has_group n r2
| RStar r1 | ROpt r1 => has_group n r1
| RGroup m r1 => Nat.eqb m n || has_group n r1
| _ => false
end.

(** The words of the three word patterns, and the units of the number
    pattern. *)
Definition load_names : list string :=
["fan"; "bulb"; "heater"; "ac"; "dc"; "motor"; "pump"; "light"; "lamp"].

Definition time_periods : list string :=
["today"; "yesterday"; "this week"; "last week"; "this month"; "hour"; "day";
 "week"; "month"].

Definition actions : list string :=
["turn on"; "turn off"; "switch on"; "switch off"; "start"; "stop"; "enable";
 "disable"].

Definition units : list string :=
["w"; "kw"; "kwh"; "watt"; "watts"; "kilowatt"; "kilowatts"].

(** What the list of a [number] entity holds: a text that starts with a
    digit, or a unit. *)
Definition number_or_unit (v : string) : Prop :=
(exists d y, v = String d y /\ is_digit d = true) \/ v ∈ units.

End RegexSem.

(** * Properties *)

#[local] Arguments String.append : simpl nomatch.

(** ** The rate limiter *)

Module RateLimiterFacts.
Import RateLimiter.

Lemma day_us_pos : 0 < day_us.
Proof. reflexivity. Qed.

Lemma record_of_window (st : limits) u a r c :
  window st u a r c -> record_of st u a = Usage (Some c) (Some r).
Proof.
  unfold window, record_of. intros H.
  destruct (st !! u) as [m|]; simpl in *; [|discriminate].
  now rewrite H.
Qed.

Lemma store_same (st : limits) u a rec :
  st !! u ≫= (λ m, m !! a) = Some rec -> store st u a rec = st.
Proof.
  unfold store. intros H.
  destruct (st !! u) as [m|] eqn:Hu; simpl in *; [|discriminate].
  rewrite (insert_id m a rec H). now apply insert_id.
Qed.

Lemma lookup_store (st : limits) u a rec :
  store st u a rec !! u ≫= (λ m, m !! a) = Some rec.
Proof.
  unfold store. rewrite lookup_insert_eq. simpl. apply lookup_insert_eq.
Qed.

Lemma record_of_store (st : limits) u a rec :
  record_of (store st u a rec) u a = rec.
Proof.
  unfold record_of, store. rewrite lookup_insert_eq. simpl.
  now rewrite lookup_insert_eq.
Qed.

Lemma window_store (st : limits) u a r c :
  window (store st u a (Usage (Some c) (Some r))) u a r c.
Proof. apply lookup_store. Qed.

(** A check inside an open window reads the record and leaves the table
    as it is. *)
Lemma check_in_window (st : limits) u a r c now l :
  window st u a r c -> now < r ->
  check_rate_limit now st u a l
  = (st, RateCheck (c <? l) (Z.max 0 (l - c)) l r c).
Proof.
  intros Hw Hlt. unfold check_rate_limit.
  rewrite (record_of_window _ _ _ _ _ Hw). simpl.
  destruct (Z.geb_spec now r) as [Hge|_]; [lia|].
  simpl. now rewrite (store_same _ _ _ _ Hw).
Qed.

(** A check with no reset time on record, or at or after it, opens a new
    window. *)
Lemma check_resets (st : limits) u a now l :
  (forall r, reset_at (record_of st u a) = Some r -> r <= now) ->
  check_rate_limit now st u a l
  = (store st u a (Usage (Some 0) (Some (next_reset now))),
     RateCheck (0 <? l) (Z.max 0 (l - 0)) l (next_reset now) 0).
Proof.
  intros H. unfold check_rate_limit.
  destruct (reset_at (record_of st u a)) as [r|] eqn:Hr; [|reflexivity].
  specialize (H r eq_refl).
  destruct (Z.geb_spec now r) as [_|Hlt]; [reflexivity|lia].
Qed.

Lemma increment_in_window (st : limits) u a r c :
  window st u a r c ->
  snd (increment_count st u a) = c + 1 /\
  window (fst (increment_count st u a)) u a r (c + 1).
Proof.
  intros Hw. unfold increment_count.
  rewrite (record_of_window _ _ _ _ _ Hw). simpl.
  split; [reflexivity|apply window_store].
Qed.

Lemma run_calls_in_window (cs : list call) : forall (st : limits) u a r c,
  window st u a r c -> Forall (before r) cs ->
  window (fst (run_calls u a st cs)) u a r (c + increments cs) /\
  snd (run_calls u a st cs) = reports r c cs.
Proof.
  induction cs as [|call cs IH]; intros st u a r c Hw Hall.
  - simpl. now rewrite Z.add_0_r.
  - inversion Hall as [|? ? Hhd Htl]; subst. destruct call as [now l|].
    + simpl in Hhd. cbn [run_calls step].
      rewrite (check_in_window _ _ _ _ _ _ l Hw Hhd).
      destruct (IH st u a r c Hw Htl) as [IH1 IH2].
      destruct (run_calls u a st cs) as [st'' rs]. simpl in *.
      split; [exact IH1|now rewrite IH2].
    + cbn [run_calls step].
      destruct (increment_in_window _ _ _ _ _ Hw) as [_ Hw'].
      destruct (IH _ u a r (c + 1) Hw' Htl) as [IH1 IH2].
      destruct (run_calls u a (fst (increment_count st u a)) cs) as [st'' rs].
      simpl in *. split; [|exact IH2].
      now replace (c + (1 + increments cs)) with (c + 1 + increments cs) by lia.
Qed.

Lemma next_reset_spec (now : Z) :
  next_reset now mod day_us = 0 /\ now < next_reset now <= now + day_us.
Proof.
  unfold next_reset, replace_midnight, plus_one_day.
  pose proof day_us_pos as Hd.
  pose proof (Z.mod_pos_bound (now + day_us) day_us Hd) as Hb.
  split.
  - rewrite Zminus_mod, Zmod_mod, Z.sub_diag. reflexivity.
  - lia.
Qed.

Lemma next_reset_next_day (now : Z) :
  next_reset now = replace_midnight now + day_us.
Proof.
  unfold next_reset, replace_midnight, plus_one_day.
  replace (now + day_us) with (now + 1 * day_us) by lia.
  rewrite Z_mod_plus_full. lia.
Qed.

Lemma reports_increments (r : Z) (n : nat) : forall c cs,
  reports r c (replicate n Increment ++ cs) = reports r (c + Z.of_nat n) cs.
Proof.
  induction n as [|n IH]; intros c cs.
  - simpl. now rewrite Z.add_0_r.
  - cbn [replicate app reports]. rewrite IH. f_equal. lia.
Qed.

Lemma before_increments (r : Z) (n : nat) (cs : list call) :
  Forall (before r) cs -> Forall (before r) (replicate n Increment ++ cs).
Proof.
  intros H. induction n as [|n IH]; [exact H|].
  cbn [replicate app]. constructor; [exact I|exact IH].
Qed.

Lemma checks_in_window (checks : list (Z * Z)) (st : limits) u a r c :
  window st u a r c -> Forall (fun tl => fst tl < r) checks ->
  let out := run_calls u a st (map (fun tl => Check (fst tl) (snd tl)) checks) in
  fst out = st /\
  length (snd out) = length checks /\
  Forall (fun res => current_count res = c) (snd out).
Proof.
  intros Hw Hall. induction Hall as [|[now l] checks Hhd _ IH].
  - simpl. repeat split; constructor.
  - simpl in Hhd. cbn [map run_calls step fst snd].
    rewrite (check_in_window _ _ _ _ _ _ l Hw Hhd).
    cbv zeta in IH.
    destruct (run_calls u a st (map (fun tl => Check (fst tl) (snd tl)) checks))
      as [st' rs].
    simpl in *. destruct IH as (-> & Hlen & Hres).
    repeat split; [now rewrite Hlen|now constructor].
Qed.

Lemma run_increment (u a : string) (st : limits) (cs : list call) :
  run_calls u a st (Increment :: cs)
  = run_calls u a (fst (increment_count st u a)) cs.
Proof.
  cbn [run_calls step].
  now destruct (run_calls u a (fst (increment_count st u a)) cs).
Qed.

(** Increments do not open a window. *)
Lemma increments_keep_no_reset (n : nat) : forall (st : limits) u a cs,
  reset_at (record_of st u a) = None ->
  exists st',
    run_calls u a st (replicate n Increment ++ cs) = run_calls u a st' cs /\
    reset_at (record_of st' u a) = None.
Proof.
  induction n as [|n IH]; intros st u a cs H.
  - now exists st.
  - cbn [replicate app]. rewrite run_increment. apply IH.
    unfold increment_count. cbv zeta. cbn [fst]. rewrite record_of_store.
    exact H.
Qed.

(** C3, amended.  Within one quota window of a user and an action type,
    that is when a check has left a record with a reset time and every call
    comes before it: any number of [check_rate_limit] calls without an
    [increment_count] leaves the table, and so [current_count], unchanged;
    and from the zero count of a window just opened, [N] calls of
    [increment_count] followed by a check yield [current_count = N] and
    [allowed = (N < L)].  Without a reset time on record (the pair was never
    checked, or its record was reset) the increments are lost: the check
    that follows them opens the window, zeroes the count and reports
    [current_count = 0] whatever [N]. *)
Theorem checks_keep_count_increments_add (st : limits) (U A : string)
    (r c0 L : Z) (N : nat) :
  (window st U A r c0 ->
   (forall checks : list (Z * Z),
      Forall (fun tl => fst tl < r) checks ->
      let out := run_calls U A st (map (fun tl => Check (fst tl) (snd tl)) checks) in
      fst out = st /\
      length (snd out) = length checks /\
      Forall (fun res => current_count res = c0) (snd out)) /\
   (forall now : Z, now < r -> c0 = 0 ->
      let out := run_calls U A st (replicate N Increment ++ [Check now L]) in
      exists res, snd out = [res] /\
        current_count res = Z.of_nat N /\
        allowed res = bool_decide (Z.of_nat N < L))) /\
  (reset_at (record_of st U A) = None ->
   forall now : Z,
     let out := run_calls U A st (replicate N Increment ++ [Check now L]) in
     exists res, snd out = [res] /\
       current_count res = 0 /\
       allowed res = bool_decide (0 < L) /\
       window (fst out) U A (next_reset now) 0).
Proof.
  split.
  - intros Hw. split.
    + intros checks Hall. now apply (checks_in_window checks st U A r c0).
    + intros now Hlt ->. cbv zeta.
      assert (Hall : Forall (before r) (replicate N Increment ++ [Check now L])).
      { apply before_increments. constructor; [exact Hlt|constructor]. }
      destruct (run_calls_in_window _ _ _ _ _ _ Hw Hall) as [_ Hrep].
      rewrite Hrep, reports_increments. cbn [reports].
      eexists; split; [reflexivity|]. cbn [current_count allowed].
      split; [lia|].
      replace (0 + Z.of_nat N) with (Z.of_nat N) by lia.
      destruct (Z.ltb_spec (Z.of_nat N) L).
      * now rewrite bool_decide_eq_true_2.
      * rewrite bool_decide_eq_false_2; [reflexivity|lia].
  - intros Hnone now. cbv zeta.
    destruct (increments_keep_no_reset N st U A [Check now L] Hnone)
      as (st' & -> & Hn').
    cbn [run_calls step].
    rewrite (check_resets st' U A now L) by (intros r' Hr'; congruence).
    cbn [fst snd]. eexists; split; [reflexivity|].
    cbn [current_count allowed]. split; [reflexivity|]. split.
    + destruct (Z.ltb_spec 0 L).
      * now rewrite bool_decide_eq_true_2.
      * rewrite bool_decide_eq_false_2; [reflexivity|lia].
    + apply window_store.
Qed.

Lemma checks_keep_count_increments_add_witness :
  (exists res,
     snd (run_calls "alice" "chat" opened (replicate 3 Increment ++ [Check 5 100]))
     = [res] /\
     current_count res = 3 /\ allowed res = true) /\
  (exists res,
     snd (run_calls "alice" "chat" ∅ (replicate 3 Increment ++ [Check 5 100]))
     = [res] /\
     current_count res = 0 /\ allowed res = true).
Proof.
  split.
  - refine (proj2 (proj1 (checks_keep_count_increments_add opened "alice" "chat"
                            day_us 0 100 3) _) 5 _ eq_refl).
    + vm_compute. reflexivity.
    + reflexivity.
  - assert (H0 : reset_at (record_of ∅ "alice" "chat") = None)
      by (vm_compute; reflexivity).
    destruct (proj2 (checks_keep_count_increments_add ∅ "alice" "chat"
                       0 0 100 3) H0 5) as (res & Hr & Hc & Ha & _).
    exists res. split; [exact Hr|]. split; [exact Hc|exact Ha].
Defined.

(** C3 as stated fails for a user who was not checked before: after three
    increments on the empty table, the check opens the window and reports
    the count 0, not 3. *)
Lemma increments_before_first_check_are_lost :
  ~ (exists res,
       snd (run_calls "alice" "chat" ∅ (replicate 3 Increment ++ [Check 5 100]))
       = [res] /\
       current_count res = 3).
Proof.
  intros (res & Hr & Hc). vm_compute in Hr. injection Hr as <-.
  discriminate Hc.
Qed.

(** C4, amended.  [check_rate_limit] itself performs the reset: with no
    reset time on record, or at or after it, it zeroes the count and sets
    [reset_at] to the start of the next calendar day of the clock it reads,
    which is [datetime.utcnow()]: the next UTC midnight.  [increment_count]
    never resets: it adds one to the stored count and keeps [reset_at],
    whatever the time, so that after the boundary an increment without a
    check carries the count of the expired window. *)
Theorem check_resets_increment_never (st : limits) (u a : string) (now l : Z) :
  ((forall r, reset_at (record_of st u a) = Some r -> r <= now) ->
   let out := check_rate_limit now st u a l in
   current_count (snd out) = 0 /\
   check_reset_at (snd out) = next_reset now /\
   window (fst out) u a (next_reset now) 0 /\
   next_reset now = replace_midnight now + day_us /\
   next_reset now mod day_us = 0 /\
   now < next_reset now) /\
  (let out := increment_count st u a in
   snd out = default 0 (count (record_of st u a)) + 1 /\
   record_of (fst out) u a
   = Usage (Some (snd out)) (reset_at (record_of st u a))) /\
  (forall r c, window st u a r c -> r <= now ->
   snd (increment_count st u a) = c + 1 /\
   window (fst (increment_count st u a)) u a r (c + 1) /\
   current_count (snd (check_rate_limit now st u a l)) = 0).
Proof.
  split; [|split].
  - intros H. cbv zeta. rewrite (check_resets _ _ _ _ l H). cbn [fst snd].
    destruct (next_reset_spec now) as [Hmod [Hlt _]].
    repeat split; try assumption.
    + apply window_store.
    + apply next_reset_next_day.
  - cbv zeta. unfold increment_count. cbn [fst snd].
    split; [reflexivity|apply record_of_store].
  - intros r c Hw Hle.
    destruct (increment_in_window _ _ _ _ _ Hw) as [H1 H2].
    repeat split; try assumption.
    rewrite (check_resets _ _ _ _ l); [reflexivity|].
    intros r'. rewrite (record_of_window _ _ _ _ _ Hw). cbn.
    intros [= <-]. exact Hle.
Qed.

Lemma check_resets_increment_never_witness :
  current_count (snd (check_rate_limit 7 ∅ "alice" "chat" 100)) = 0 /\
  snd (increment_count used_twice "alice" "chat") = 3 /\
  current_count (snd (check_rate_limit (2 * day_us) used_twice "alice" "chat" 100)) = 0.
Proof.
  split.
  - refine (proj1 (proj1 (check_resets_increment_never ∅ "alice" "chat" 7 100) _)).
    intros r. vm_compute. discriminate.
  - pose proof (proj2 (proj2 (check_resets_increment_never
                   used_twice "alice" "chat" (2 * day_us) 100)) day_us 2) as H.
    refine ((fun H' => conj (proj1 H') (proj2 (proj2 H'))) (H _ _)).
    + vm_compute. reflexivity.
    + vm_compute. discriminate.
Defined.

(** C4 as stated fails on the words [local midnight]: on a host six hours
    ahead of UTC, the reset time set by a check at 21:00 UTC is 00:00 UTC,
    that is 06:00 local time. *)
Lemma reset_at_not_local_midnight :
  ~ spec_local_midnight (6 * 3600 * 1000000)
      (check_reset_at
         (snd (check_rate_limit (21 * 3600 * 1000000) ∅ "alice" "chat" 100))).
Proof.
  unfold spec_local_midnight. vm_compute. discriminate.
Qed.

End RateLimiterFacts.

(** ** The session store *)

Module ChatEndpointFacts.
Import Context ChatEndpoint.

Lemma last20_length (l : list turn) : (length (last20 l) <= 20)%nat.
Proof. unfold last20. rewrite length_drop. lia. Qed.

Lemma last20_short (l : list turn) : (length l <= 20)%nat -> last20 l = l.
Proof.
  intros H. unfold last20. now replace (length l - 20)%nat with O by lia.
Qed.

(** Cutting twice is cutting once. *)
Lemma last20_app (x y : list turn) : last20 (last20 x ++ y) = last20 (x ++ y).
Proof.
  destruct (le_lt_dec (length x) 20) as [Hle|Hgt].
  - now rewrite (last20_short x Hle).
  - unfold last20. rewrite !length_app, length_drop.
    set (k := (length x - 20)%nat).
    assert (Hx : (x ++ y = take k x ++ (drop k x ++ y))%list)
      by now rewrite app_assoc, take_drop.
    rewrite Hx.
    rewrite (drop_app_ge (take k x)); rewrite length_take; [|lia].
    f_equal. lia.
Qed.

Lemma history_store_exchange (store : sessions) sid u a :
  history (store_exchange store sid u a) sid
  = last20 (history store sid ++ turns_of (u, a)).
Proof.
  unfold store_exchange, history, turns_of. cbn [fst snd].
  destruct (store !! sid) as [h|] eqn:Hs.
  - rewrite Hs. cbn [default].
    case_match eqn:Hlt; rewrite lookup_insert_eq; simpl; [reflexivity|].
    symmetry. apply last20_short. apply Nat.ltb_ge. exact Hlt.
  - rewrite lookup_insert_eq. simpl. rewrite lookup_insert_eq. reflexivity.
Qed.

Lemma store_exchange_other (store : sessions) sid sid' u a :
  sid <> sid' -> store_exchange store sid u a !! sid' = store !! sid'.
Proof.
  intros Hne. unfold store_exchange.
  destruct (store !! sid); repeat case_match;
    rewrite ?lookup_insert_ne by done; reflexivity.
Qed.

Lemma history_run_exchanges (exs : list (string * string)) :
  forall (store : sessions) sid,
  (length (history store sid) <= 20)%nat ->
  history (run_exchanges store sid exs) sid
  = last20 (history store sid ++ concat (map turns_of exs)).
Proof.
  induction exs as [|[u a] exs IH]; intros store sid Hlen.
  - cbn. rewrite app_nil_r. now rewrite last20_short.
  - cbn [run_exchanges foldl map concat fst snd].
    change (foldl _ ?s exs) with (run_exchanges s sid exs).
    rewrite IH; rewrite history_store_exchange; [|apply last20_length].
    rewrite last20_app. now rewrite <- app_assoc.
Qed.

(** C5. After each exchange the stored history of the session holds at
    most 20 turns, and it is the last 20 of the old history followed by the
    two new turns: what is dropped is a prefix (the oldest turns), and the
    turns that stay keep their order.  Starting from the empty store, the
    history after any run of exchanges is the last 20 of all the turns. *)
Theorem history_capped_fifo (store : sessions) (sid u a : string)
    (exs : list (string * string)) :
  let after := history (store_exchange store sid u a) sid in
  (length after <= 20)%nat /\
  after = last20 (history store sid ++ turns_of (u, a)) /\
  (exists dropped, history store sid ++ turns_of (u, a) = dropped ++ after) /\
  (length (history (run_exchanges ∅ sid exs) sid) <= 20)%nat /\
  history (run_exchanges ∅ sid exs) sid = last20 (concat (map turns_of exs)).
Proof.
  cbv zeta. rewrite history_store_exchange.
  assert (Hrun : history (run_exchanges ∅ sid exs) sid
                 = last20 (concat (map turns_of exs))).
  { rewrite history_run_exchanges.
    - unfold history at 1. now rewrite lookup_empty.
    - unfold history. rewrite lookup_empty. cbn. lia. }
  repeat split.
  - apply last20_length.
  - exists (take (length (history store sid ++ turns_of (u, a)) - 20)
                 (history store sid ++ turns_of (u, a))).
    unfold last20. now rewrite take_drop.
  - rewrite Hrun. apply last20_length.
  - exact Hrun.
Qed.

Example history_after_eleven_exchanges :
  map content
    (history (run_exchanges ∅ "s"
                [("q1", "a1"); ("q2", "a2"); ("q3", "a3"); ("q4", "a4");
                 ("q5", "a5"); ("q6", "a6"); ("q7", "a7"); ("q8", "a8");
                 ("q9", "a9"); ("q10", "a10"); ("q11", "a11")]) "s")
  = map Some ["q2"; "a2"; "q3"; "a3"; "q4"; "a4"; "q5"; "a5"; "q6"; "a6";
              "q7"; "a7"; "q8"; "a8"; "q9"; "a9"; "q10"; "a10"; "q11"; "a11"].
Proof. vm_compute. reflexivity. Qed.

End ChatEndpointFacts.

(** ** The gateway *)

Module GatewayFacts.
Import PyText Context Json Gateway.

Lemma fallback_nonempty (message : string) (ctx : context) :
  truthy (_generate_fallback_response message ctx) = true.
Proof.
  unfold _generate_fallback_response, fallback_alerts.
  repeat case_match; reflexivity.
Qed.

Lemma cerebras_or_fallback_fails cb svc prompt sys message ctx :
  cerebras_fails cb svc ->
  cerebras_or_fallback cb svc prompt sys message ctx
  = _generate_fallback_response message ctx.
Proof.
  unfold cerebras_or_fallback. intros [-> | H]; [reflexivity|].
  rewrite H. now destruct (has_cerebras svc).
Qed.

Lemma chat_uninitialized gc cb svc now message ctx hist :
  initialized svc = false ->
  chat gc cb svc now message ctx hist = _generate_fallback_response message ctx.
Proof. unfold chat. now intros ->. Qed.

Lemma chat_both_fail gc cb svc now message ctx hist :
  gemini_fails gc -> cerebras_fails cb svc ->
  chat gc cb svc now message ctx hist = _generate_fallback_response message ctx.
Proof.
  intros Hg Hc. unfold chat.
  destruct (initialized svc); [|reflexivity]. cbn [negb].
  destruct (chat_prompt now message ctx hist) as [prompt|].
  - destruct (Hg prompt) as [-> | ->]; cbn [truthy E];
      now apply cerebras_or_fallback_fails.
  - now apply cerebras_or_fallback_fails.
Qed.

(** C10. [get_control_recommendation] fails open: when the service is not
    initialized, when the provider call raises (or the prompt cannot be
    built, or the answer is empty), and when the cleaned answer is refused by
    [json.loads], it returns a recommendation whose [approved] is true. *)
Theorem control_recommendation_fails_open
    (generate_content : string -> option string)
    (json_loads : string -> option json) (svc : service) (prompt : option string) :
  let result := get_control_recommendation generate_content json_loads svc prompt in
  (initialized svc = false ->
   result = allow "AI not available, allowing action" /\ approved result = true) /\
  (prompt ≫= generate_content = None ->
   approved result = true) /\
  (prompt ≫= generate_content = Some E ->
   approved result = true) /\
  (forall text, prompt ≫= generate_content = Some text ->
   clean_fences text ≫= json_loads = None ->
   approved result = true).
Proof.
  cbv zeta. unfold get_control_recommendation, model_json.
  destruct (initialized svc); cbn [negb].
  - split; [discriminate|].
    split; [|split].
    + intros H. destruct prompt as [p|]; cbn in *; [rewrite H|]; reflexivity.
    + intros H. destruct prompt as [p|]; cbn in *; [rewrite H|]; reflexivity.
    + intros text H Hparse. destruct prompt as [p|]; cbn in *; [|discriminate].
      rewrite H. cbn. destruct (truthy text); [|reflexivity].
      now rewrite Hparse.
  - repeat split; reflexivity.
Qed.

Lemma control_recommendation_fails_open_witness :
  approved (get_control_recommendation (fun _ => Some "{}") loads_ref
              (Service false None) (Some "turn on the heater?")) = true /\
  approved (get_control_recommendation (fun _ => None) loads_ref
              ready (Some "turn on the heater?")) = true /\
  approved (get_control_recommendation (fun _ => Some E) loads_ref
              ready (Some "turn on the heater?")) = true /\
  approved (get_control_recommendation (fun _ => Some "Sure, go ahead!") loads_ref
              ready (Some "turn on the heater?")) = true.
Proof.
  split; [|split; [|split]].
  - refine (proj2 (proj1 (control_recommendation_fails_open _ _ _ _) _)).
    reflexivity.
  - refine (proj1 (proj2 (control_recommendation_fails_open _ _ _ _)) _).
    reflexivity.
  - refine (proj1 (proj2 (proj2 (control_recommendation_fails_open _ _ _ _))) _).
    reflexivity.
  - refine (proj2 (proj2 (proj2 (control_recommendation_fails_open _ _ _ _)))
              "Sure, go ahead!" _ _).
    + reflexivity.
    + vm_compute. reflexivity.
Defined.

(** *** Fences around a payload without fences *)

Lemma contains_prefix (needle hay : string) :
  String.prefix needle hay = true -> contains needle hay = true.
Proof. intros H. destruct hay; cbn [contains]; now rewrite H. Qed.

Lemma append_assoc (a b c : string) : (a +:+ b) +:+ c = a +:+ b +:+ c.
Proof. induction a as [|x a IH]; simpl; [reflexivity|now rewrite IH]. Qed.

Lemma append_nonempty (a b : string) : truthy b = true -> truthy (a +:+ b) = true.
Proof. now destruct a. Qed.

Lemma rstrip_app_kept (a b : string) :
  truthy b = true -> rstrip b = b -> rstrip (a +:+ b) = a +:+ b.
Proof.
  intros Hb Hr. induction a as [|x a IH]; simpl; [exact Hr|].
  rewrite IH. pose proof (append_nonempty a b Hb) as Hne.
  now destruct (a +:+ b).
Qed.

Lemma rstrip_app_newline (a : string) : rstrip (a +:+ nl) = rstrip a.
Proof. induction a as [|x a IH]; simpl; [reflexivity|now rewrite IH]. Qed.

Lemma lstrip_app_newline (a : string) :
  lstrip (a +:+ nl) = if truthy (lstrip a) then lstrip a +:+ nl else E.
Proof.
  induction a as [|x a IH]; simpl; [reflexivity|].
  destruct (is_space x); [exact IH|reflexivity].
Qed.

Lemma strip_between_newlines (payload : string) :
  strip (nl +:+ payload +:+ nl) = strip payload.
Proof.
  unfold strip. change (lstrip (nl +:+ payload +:+ nl)) with (lstrip (payload +:+ nl)).
  rewrite lstrip_app_newline.
  destruct (lstrip payload) as [|x s]; [reflexivity|].
  cbn [truthy]. apply rstrip_app_newline.
Qed.

Lemma split_before_fence (body : string) :
  fence_clear body = true -> split_from "```" O (body +:+ "```") = [body; E].
Proof.
  induction body as [|x body IH]; [reflexivity|].
  intros H. cbn [fence_clear] in H. apply andb_true_iff in H as [Hhd Htl].
  apply negb_true_iff in Hhd.
  change ((String x body) +:+ "```") with (String x (body +:+ "```")) in *.
  cbn [split_from]. rewrite Hhd, (IH Htl). reflexivity.
Qed.

Lemma prefix_cons (c d : ascii) (s t : string) :
  String.prefix (String c s) (String d t) = Ascii.eqb c d && String.prefix s t.
Proof.
  cbn [String.prefix].
  destruct (ascii_dec c d) as [->|Hne].
  - now rewrite Ascii.eqb_refl.
  - apply Ascii.eqb_neq in Hne. now rewrite Hne.
Qed.

Lemma prefix_app_l (p a w : string) :
  String.prefix p a = true -> String.prefix p (a +:+ w) = true.
Proof.
  revert a. induction p as [|c p IH]; intros a H.
  - now destruct (a +:+ w).
  - destruct a as [|d a]; [discriminate H|].
    cbn [String.append]. rewrite prefix_cons in *.
    apply andb_true_iff in H as [-> H]. now apply IH.
Qed.

Lemma rstrip_is_prefix (s : string) : exists w, s = rstrip s +:+ w.
Proof.
  induction s as [|c s [w IH]]; [now exists E|].
  cbn [rstrip]. destruct (rstrip s) as [|d r] eqn:Hr.
  - destruct (is_space c).
    + now exists (String c s).
    + now exists s.
  - exists w. cbn [String.append] in *. now rewrite <- IH.
Qed.

Lemma no_fence_across_newline (x : string) :
  String.prefix "```" x = false ->
  String.prefix "```" ((x +:+ nl) +:+ "```") = false.
Proof.
  destruct x as [|c1 [|c2 [|c3 x]]]; intros H; unfold nl; cbn [String.append].
  - reflexivity.
  - rewrite !prefix_cons. now destruct (Ascii.eqb "`" c1).
  - rewrite !prefix_cons.
    now destruct (Ascii.eqb "`" c1), (Ascii.eqb "`" c2).
  - rewrite !prefix_cons in *.
    destruct (Ascii.eqb "`" c1), (Ascii.eqb "`" c2), (Ascii.eqb "`" c3);
      try reflexivity.
    now destruct x.
Qed.

Lemma fence_clear_payload (payload : string) :
  contains "```" payload = false -> fence_clear (payload +:+ nl) = true.
Proof.
  induction payload as [|x payload IH]; [reflexivity|].
  intros H. cbn [contains] in H. apply orb_false_iff in H as [Hhd Htl].
  change ((String x payload) +:+ nl) with (String x (payload +:+ nl)).
  cbn [fence_clear]. rewrite (IH Htl), andb_true_r.
  apply negb_true_iff.
  change (String x (payload +:+ nl)) with ((String x payload) +:+ nl).
  now apply no_fence_across_newline.
Qed.

(** The cleaning takes a payload without fences out of its wrapping. *)
Lemma clean_fences_fenced (payload : string) :
  contains "```" payload = false ->
  clean_fences (fenced payload) = Some (strip payload).
Proof.
  intros H. unfold clean_fences.
  assert (Hstrip : strip (fenced payload) = fenced payload).
  { unfold strip, fenced.
    change (lstrip ("```json" +:+ nl +:+ payload +:+ nl +:+ "```"))
      with ("```json" +:+ nl +:+ payload +:+ nl +:+ "```").
    rewrite <- !append_assoc. now apply rstrip_app_kept. }
  rewrite Hstrip.
  assert (Hsplit : split "```" (fenced payload)
                   = [E; "json" +:+ nl +:+ payload +:+ nl; E]).
  { unfold split, fenced.
    change (split_from "```" O ("```json" +:+ nl +:+ payload +:+ nl +:+ "```"))
      with (E :: split_from "```" O ("json" +:+ nl +:+ payload +:+ nl +:+ "```")).
    f_equal.
    replace ("json" +:+ nl +:+ payload +:+ nl +:+ "```")
      with (("json" +:+ nl +:+ payload +:+ nl) +:+ "```")
      by (now rewrite !append_assoc).
    apply split_before_fence.
    change (fence_clear ("json" +:+ nl +:+ payload +:+ nl))
      with (fence_clear (payload +:+ nl)).
    now apply fence_clear_payload. }
  rewrite Hsplit.
  change (startswith (fenced payload) "```") with true. cbv iota.
  cbn [lookup list_lookup mbind option_bind].
  change (startswith ("json" +:+ nl +:+ payload +:+ nl) "json") with true.
  cbv iota.
  change (drop_chars 4 ("json" +:+ nl +:+ payload +:+ nl))
    with (nl +:+ payload +:+ nl).
  now rewrite strip_between_newlines.
Qed.

(** For a payload that holds no fence, the two structured endpoints read
    the wrapped answer as they read the bare one. *)
Lemma fence_free_payload_parses_alike
    (json_loads : string -> option json)
    (valid_anomaly : AnomalyReport -> bool) (valid_insight : EnergyInsight -> bool)
    (svc : service) (prompt : option string) (period payload : string) :
  contains "```" payload = false -> truthy payload = true ->
  analyze_anomalies (fun _ => Some (fenced payload)) json_loads valid_anomaly
                    svc prompt
  = analyze_anomalies (fun _ => Some payload) json_loads valid_anomaly svc prompt /\
  generate_energy_insights (fun _ => Some (fenced payload)) json_loads
                           valid_insight svc prompt period
  = generate_energy_insights (fun _ => Some payload) json_loads valid_insight
                             svc prompt period.
Proof.
  intros Hfree Hne.
  assert (Hbare : clean_fences payload = Some (strip payload)).
  { unfold clean_fences.
    destruct (startswith (strip payload) "```") eqn:Hs; [|reflexivity].
    exfalso. unfold strip, startswith in Hs.
    assert (Hl : contains "```" (lstrip payload) = false).
    { clear Hs Hne. induction payload as [|x s IH]; [reflexivity|].
      cbn [contains] in Hfree. apply orb_false_iff in Hfree as [Hh Ht].
      cbn [lstrip]. destruct (is_space x); [now apply IH|].
      cbn [contains]. now rewrite Hh, Ht. }
    destruct (rstrip_is_prefix (lstrip payload)) as [w Hw].
    apply (prefix_app_l _ _ w) in Hs. rewrite <- Hw in Hs.
    apply contains_prefix in Hs. congruence. }
  assert (Hjson : model_json (fun _ => Some (fenced payload)) json_loads prompt
                  = model_json (fun _ => Some payload) json_loads prompt).
  { unfold model_json. destruct prompt as [q|]; [|reflexivity].
    cbn [mbind option_bind]. rewrite Hne. change (truthy (fenced payload)) with true. cbv iota.
    now rewrite (clean_fences_fenced payload Hfree), Hbare. }
  unfold analyze_anomalies, generate_energy_insights. now rewrite Hjson.
Qed.

(** C6 at an input where the code departs from it.  The payload is a JSON
    object whose string holds a fence; [analyze_anomalies] accepts it when
    it arrives bare, with every validation of [AnomalyReport] that accepts
    the report read from it.  Wrapped in a [json] fence, [split] cuts it at
    the inner fence, [json.loads] refuses the piece, and the method answers
    with its fallback report. *)
Theorem fenced_payload_with_inner_fence_is_lost
    (valid_anomaly : AnomalyReport -> bool) :
  valid_anomaly report_of_payload_with_fence = true ->
  let bare := fun _ : string => Some payload_with_fence in
  let wrapped := fun _ : string => Some (fenced payload_with_fence) in
  clean_fences payload_with_fence = Some payload_with_fence /\
  clean_fences (fenced payload_with_fence)
  = Some ("{" +:+ quoted "summary" +:+ ": " +:+ String dq "see") /\
  analyze_anomalies bare loads_ref valid_anomaly ready (Some "p")
  = report_of_payload_with_fence /\
  analyze_anomalies wrapped loads_ref valid_anomaly ready (Some "p")
  = _generate_fallback_anomaly_report /\
  analyze_anomalies wrapped loads_ref valid_anomaly ready (Some "p")
  <> analyze_anomalies bare loads_ref valid_anomaly ready (Some "p").
Proof.
  intros Hv. cbv zeta.
  assert (Hb : model_json (fun _ => Some payload_with_fence) loads_ref (Some "p")
               = Some (JObj [("summary", JStr "see ```log``` output")]))
    by (vm_compute; reflexivity).
  assert (Hw : model_json (fun _ => Some (fenced payload_with_fence)) loads_ref
                 (Some "p") = None)
    by (vm_compute; reflexivity).
  assert (Hbare : analyze_anomalies (fun _ => Some payload_with_fence) loads_ref
                    valid_anomaly ready (Some "p")
                  = report_of_payload_with_fence).
  { unfold analyze_anomalies. rewrite Hb. cbn [initialized ready negb].
    unfold anomaly_of_json. cbn [mbind option_bind get dict_get String.eqb].
    cbn. unfold report_of_payload_with_fence in Hv. cbn in Hv.
    now rewrite Hv. }
  assert (Hwrapped : analyze_anomalies (fun _ => Some (fenced payload_with_fence))
                       loads_ref valid_anomaly ready (Some "p")
                     = _generate_fallback_anomaly_report).
  { unfold analyze_anomalies. now rewrite Hw. }
  split; [vm_compute; reflexivity|]. split; [vm_compute; reflexivity|].
  split; [exact Hbare|]. split; [exact Hwrapped|].
  rewrite Hbare, Hwrapped. discriminate.
Qed.

Lemma fenced_payload_with_inner_fence_is_lost_witness :
  analyze_anomalies (fun _ => Some (fenced payload_with_fence)) loads_ref
    plain_anomaly ready (Some "p")
  <> analyze_anomalies (fun _ => Some payload_with_fence) loads_ref
       plain_anomaly ready (Some "p").
Proof.
  exact (proj2 (proj2 (proj2 (proj2
           (fenced_payload_with_inner_fence_is_lost plain_anomaly eq_refl))))).
Defined.

End GatewayFacts.

(** ** The agent *)

Module AgentFacts.
Import PyText Context Regex Agent.

Lemma critical_alerts_pos (alerts : list alert) :
  (exists x, x ∈ alerts /\ severity x = Some "critical") ->
  (0 < critical_alerts alerts)%nat.
Proof.
  intros (x & Hin & Hsev). unfold critical_alerts.
  assert (Hx : x ∈ filter (fun a => is_critical a = true) alerts).
  { apply list_elem_of_filter. split; [|exact Hin].
    unfold is_critical. now apply bool_decide_eq_true_2. }
  destruct (filter _ alerts); [inversion Hx|cbn; lia].
Qed.

Lemma critical_alerts_zero (alerts : list alert) :
  (forall x, x ∈ alerts -> severity x <> Some "critical") ->
  critical_alerts alerts = O.
Proof.
  intros H. unfold critical_alerts.
  destruct (filter _ alerts) as [|x l] eqn:Hf; [reflexivity|].
  assert (Hx : x ∈ filter (fun a => is_critical a = true) alerts)
    by (rewrite Hf; left).
  apply list_elem_of_filter in Hx as [Hc Hin].
  unfold is_critical in Hc. apply bool_decide_eq_true_1 in Hc.
  now destruct (H x Hin).
Qed.

(** C7. The health status of the quick insights is [critical] whenever an
    alert has severity [critical], whatever the loads; [warning] when no
    alert is critical and there are more than 3 alerts; [healthy]
    otherwise, in particular without alerts. *)
Theorem quick_insights_health_status (hour : Z) (ctx : context) :
  let alerts := recentAlerts ctx in
  let st := status (insight_health (get_quick_insights hour ctx)) in
  ((exists x, x ∈ alerts /\ severity x = Some "critical") -> st = "critical") /\
  ((forall x, x ∈ alerts -> severity x <> Some "critical") ->
   (3 < length alerts)%nat -> st = "warning") /\
  ((forall x, x ∈ alerts -> severity x <> Some "critical") ->
   (length alerts <= 3)%nat -> st = "healthy") /\
  (alerts = [] -> st = "healthy").
Proof.
  cbv zeta. unfold get_quick_insights, system_health. cbn [insight_health].
  split; [|split; [|split]].
  - intros H. apply critical_alerts_pos in H.
    destruct (Nat.ltb_spec 0 (critical_alerts (recentAlerts ctx))); [reflexivity|lia].
  - intros H Hlen. rewrite (critical_alerts_zero _ H).
    change (Nat.ltb 0 0) with false. cbv iota.
    destruct (Nat.ltb_spec 3 (length (recentAlerts ctx))); [reflexivity|lia].
  - intros H Hlen. rewrite (critical_alerts_zero _ H).
    change (Nat.ltb 0 0) with false. cbv iota.
    destruct (Nat.ltb_spec 3 (length (recentAlerts ctx))); [lia|reflexivity].
  - intros ->. reflexivity.
Qed.

Lemma quick_insights_health_status_witness :
  status (insight_health (get_quick_insights 12
    (Ctx heater_on [warn "w1"; Alert (Some "critical") None] None None None None)))
  = "critical" /\
  status (insight_health (get_quick_insights 12
    (Ctx [] [warn "w1"; warn "w2"; warn "w3"; warn "w4"] None None None None)))
  = "warning" /\
  status (insight_health (get_quick_insights 12
    (Ctx [] [warn "w1"; warn "w2"; warn "w3"] None None None None)))
  = "healthy" /\
  status (insight_health (get_quick_insights 12
    (Ctx heater_on [] None None None None)))
  = "healthy".
Proof.
  split; [|split; [|split]].
  - refine (proj1 (quick_insights_health_status 12 _) _).
    exists (Alert (Some "critical") None). split; [|reflexivity].
    cbn. right. left.
  - refine (proj1 (proj2 (quick_insights_health_status 12 _)) _ _).
    + cbn. intros x Hx. repeat (apply elem_of_cons in Hx as [->|Hx]; [discriminate|]).
      inversion Hx.
    + cbn. lia.
  - refine (proj1 (proj2 (proj2 (quick_insights_health_status 12 _))) _ _).
    + cbn. intros x Hx. repeat (apply elem_of_cons in Hx as [->|Hx]; [discriminate|]).
      inversion Hx.
    + cbn. lia.
  - refine (proj2 (proj2 (proj2 (quick_insights_health_status 12 _))) _).
    reflexivity.
Defined.

(** *** Intent detection *)

Lemma sum_if_count (w : nat) (test : string -> bool) (keywords : list string) :
  sum_if w test keywords
  = (w * length (filter (fun keyword => test keyword = true) keywords))%nat.
Proof.
  induction keywords as [|k ks IH]; [cbn; lia|].
  cbn [sum_if foldr]. fold (sum_if w test ks). rewrite IH.
  rewrite filter_cons. destruct (test k); cbn.
  - rewrite decide_True by reflexivity. cbn. lia.
  - rewrite decide_False by discriminate. lia.
Qed.

Lemma intent_score_counts (message_lower : string) (keywords : list string) :
  intent_score message_lower keywords
  = (substring_count message_lower keywords
     + 2 * whole_word_count message_lower keywords)%nat.
Proof.
  unfold intent_score, substring_count, whole_word_count.
  rewrite !sum_if_count. lia.
Qed.

(** [max_by] returns the first element that reaches the maximum. *)
Lemma max_by_first_max {A : Type} (key : A -> nat) (rest : list A) : forall best,
  exists k : nat,
    (best :: rest) !! k = Some (max_by key best rest) /\
    (forall x, x ∈ best :: rest -> (key x <= key (max_by key best rest))%nat) /\
    (forall (k' : nat) y, (k' < k)%nat -> (best :: rest) !! k' = Some y ->
       (key y < key (max_by key best rest))%nat).
Proof.
  induction rest as [|x rest IH]; intros best.
  - exists O. cbn. split; [reflexivity|]. split.
    + intros y Hy. apply list_elem_of_singleton in Hy as ->. lia.
    + intros k' y Hk. lia.
  - cbn [max_by]. destruct (Nat.ltb_spec (key best) (key x)) as [Hlt|Hge].
    + destruct (IH x) as (k & Hk & Hmax & Hfirst).
      set (r := max_by key x rest) in *.
      assert (Hx : (key x <= key r)%nat) by (apply Hmax; left).
      exists (S k). split; [exact Hk|]. split.
      * intros y Hy. apply elem_of_cons in Hy as [->|Hy]; [lia|now apply Hmax].
      * intros [|k'] y Hlt' Hy.
        -- cbn in Hy. injection Hy as <-. lia.
        -- cbn in Hy. apply (Hfirst k'); [lia|exact Hy].
    + destruct (IH best) as (k & Hk & Hmax & Hfirst).
      set (r := max_by key best rest) in *.
      assert (Hb : (key best <= key r)%nat) by (apply Hmax; left).
      destruct k as [|k].
      * exists O. cbn in Hk. split; [exact Hk|]. split.
        -- intros y Hy. apply elem_of_cons in Hy as [->|Hy]; [exact Hb|].
           apply elem_of_cons in Hy as [->|Hy]; [lia|].
           apply Hmax. now right.
        -- intros k' y Hlt'. lia.
      * exists (S (S k)). cbn in Hk. split; [exact Hk|].
        assert (Hbest : (key best < key r)%nat).
        { apply (Hfirst O); [lia|reflexivity]. }
        split.
        -- intros y Hy. apply elem_of_cons in Hy as [->|Hy]; [exact Hb|].
           apply elem_of_cons in Hy as [->|Hy]; [lia|].
           apply Hmax. now right.
        -- intros [|[|k']] y Hlt' Hy; cbn in Hy.
           ++ injection Hy as <-. exact Hbest.
           ++ injection Hy as <-. lia.
           ++ apply (Hfirst (S k')); [lia|exact Hy].
Qed.


Example detect_intent_examples :
  detect_intent "Is the fan consuming too much power?" = ENERGY /\
  detect_intent "cost alert" = ALERTS /\
  detect_intent "Any ALERT on cost?" = STATUS /\
  detect_intent "hello there" = GENERAL.
Proof. repeat split; vm_compute; reflexivity. Qed.

(** *** Entity extraction *)

Lemma pattern_in_none (patterns : list (string * regex)) (ty : string) :
  ty ∉ map fst patterns -> pattern_in patterns ty = None.
Proof.
  induction patterns as [|[k pat] rest IH]; [reflexivity|].
  cbn. intros Hnot.
  destruct (String.eqb_spec k ty) as [->|Hne].
  - exfalso. apply Hnot. left.
  - apply IH. intros Hin. apply Hnot. now right.
Qed.

Lemma extract_lookup (message_lower : string) (patterns : list (string * regex)) :
  forall (acc : gmap string (list string)) (ty : string),
  NoDup (map fst patterns) ->
  foldl (extract_step message_lower) acc patterns !! ty
  = match pattern_in patterns ty with
    | Some pat =>
        match findall true pat message_lower with
        | [] => acc !! ty
        | matches => Some (flattened matches)
        end
    | None => acc !! ty
    end.
Proof.
  induction patterns as [|[k pat] rest IH]; intros acc ty Hnd; [reflexivity|].
  cbn [map fst] in Hnd. apply NoDup_cons in Hnd as [Hk Hnd].
  cbn [foldl pattern_in]. rewrite (IH _ ty Hnd).
  destruct (String.eqb_spec k ty) as [->|Hne].
  - rewrite (pattern_in_none rest ty Hk). unfold extract_step.
    destruct (findall true pat message_lower); [reflexivity|].
    apply lookup_insert_eq.
  - assert (Hacc : extract_step message_lower acc (k, pat) !! ty = acc !! ty).
    { unfold extract_step. destruct (findall true pat message_lower); [reflexivity|].
      now apply lookup_insert_ne. }
    rewrite Hacc. reflexivity.
Qed.

Lemma entity_types_distinct : NoDup (map fst entity_patterns).
Proof.
  cbn. repeat (apply NoDup_cons; split;
    [intros H; repeat (apply elem_of_cons in H as [H|H]; [discriminate H|]);
     inversion H|]).
  apply NoDup_nil_2.
Qed.

(** C8. [extract_entities] scans the lower-cased message once per entity
    type, each with the pattern of that type and independently of the other
    types.  A type without a match is absent from the mapping; a type with
    matches is mapped to the list of its matches, in which the captures of a
    tuple are put one after the other with the empty ones left out; a name
    that is not an entity type is absent. *)
Theorem extract_entities_lookup (message entity_type : string) :
  extract_entities message !! entity_type
  = match pattern_in entity_patterns entity_type with
    | Some pat =>
        match findall true pat (lower message) with
        | [] => None
        | matches => Some (flattened matches)
        end
    | None => None
    end /\
  (forall groups rest,
     flattened (FTuple groups :: rest)
     = filter (fun g => g <> EmptyString) groups ++ flattened rest) /\
  (forall s rest, flattened (FStr s :: rest) = s :: flattened rest) /\
  flattened [] = [] /\
  map fst entity_patterns = ["load_name"; "time_period"; "number"; "action"].
Proof.
  split; [|split; [|split; [|split]]].
  - unfold extract_entities.
    rewrite (extract_lookup _ _ _ _ entity_types_distinct).
    rewrite lookup_empty. repeat case_match; reflexivity.
  - intros groups rest. unfold flattened. cbn [map concat flatten_found].
    f_equal. induction groups as [|g gs IH]; [reflexivity|].
    rewrite !filter_cons. destruct g; cbn.
    + rewrite decide_False by discriminate.
      rewrite decide_False by (intros H; now apply H). exact IH.
    + rewrite decide_True by reflexivity.
      rewrite decide_True by discriminate. now rewrite IH.
  - reflexivity.
  - reflexivity.
  - reflexivity.
Qed.

Example extract_entities_examples :
  map_to_list (extract_entities "Is the fan consuming too much power?")
  = [("load_name", ["fan"])] /\
  extract_entities "Turn ON the heater for 2 hours today, last week 30 watts"
  = list_to_map [("load_name", ["heater"]); ("time_period", ["today"; "last week"]);
                 ("number", ["2"; "30"; "watts"]); ("action", ["turn on"])] /\
  extract_entities "hello there" = ∅.
Proof. repeat split; vm_compute; reflexivity. Qed.

(** *** Guidance *)

Lemma prefix_app (a b : string) : String.prefix a (a +:+ b) = true.
Proof.
  induction a as [|c a IH]; simpl; [now destruct b|].
  destruct (ascii_dec c c); [exact IH|congruence].
Qed.

Lemma contains_app (a b c : string) : contains b (a +:+ b +:+ c) = true.
Proof.
  induction a as [|x a IH].
  - change (contains b (b +:+ c) = true). apply GatewayFacts.contains_prefix, prefix_app.
  - change (contains b (String x (a +:+ b +:+ c)) = true).
    cbn [contains]. rewrite IH. apply orb_true_r.
Qed.

Lemma append_length (a b : string) :
  String.length (a +:+ b) = (String.length a + String.length b)%nat.
Proof. induction a as [|c a IH]; cbn; [reflexivity|now rewrite IH]. Qed.

Lemma append_inv_tail (t : string) : forall a b, a +:+ t = b +:+ t -> a = b.
Proof.
  induction a as [|c a IH]; intros [|d b] H; cbn in H.
  - reflexivity.
  - apply (f_equal String.length) in H. cbn in H. rewrite append_length in H. lia.
  - apply (f_equal String.length) in H. cbn in H. rewrite append_length in H. lia.
  - injection H as -> H. f_equal. now apply IH.
Qed.

Lemma alerts_guidance_inj (n m : nat) : alerts_guidance n = alerts_guidance m -> n = m.
Proof.
  unfold alerts_guidance. intros H.
  apply String.app_inj in H. apply append_inv_tail in H.
  unfold str_of_nat in H. now apply (inj pretty) in H.
Qed.

(** C9, amended.  The guidance is a function of the intent and of the
    number of alerts only.  For [ALERTS] it is the instruction text with the
    number of alerts of the context written into it, so that it differs for
    contexts with different numbers of alerts; for every other category,
    [ENERGY] included, it is a fixed text that does not depend on the
    context. *)
Theorem guidance_is_lookup (intent : QuestionIntent) (ctx ctx' : context) :
  (intent <> ALERTS ->
   get_intent_guidance intent ctx = get_intent_guidance intent ctx') /\
  get_intent_guidance ALERTS ctx = alerts_guidance (length (recentAlerts ctx)) /\
  contains (str_of_nat (length (recentAlerts ctx))) (get_intent_guidance ALERTS ctx)
  = true /\
  (length (recentAlerts ctx) <> length (recentAlerts ctx') ->
   get_intent_guidance ALERTS ctx <> get_intent_guidance ALERTS ctx').
Proof.
  split; [|split; [|split]].
  - intros Hne. destruct intent; try reflexivity. now destruct Hne.
  - reflexivity.
  - change (get_intent_guidance ALERTS ctx)
      with (alerts_guidance (length (recentAlerts ctx))).
    unfold alerts_guidance. apply contains_app.
  - intros Hne Heq. apply Hne.
    change (alerts_guidance (length (recentAlerts ctx))
            = alerts_guidance (length (recentAlerts ctx'))) in Heq.
    now apply alerts_guidance_inj.
Qed.

Lemma guidance_is_lookup_witness :
  get_intent_guidance ENERGY seven_alerts = get_intent_guidance ENERGY quiet /\
  get_intent_guidance ALERTS seven_alerts <> get_intent_guidance ALERTS quiet.
Proof.
  split.
  - refine (proj1 (guidance_is_lookup ENERGY seven_alerts quiet) _). discriminate.
  - refine (proj2 (proj2 (proj2 (guidance_is_lookup ALERTS seven_alerts quiet))) _).
    cbn. discriminate.
Defined.

(** C9 as stated fails for [ENERGY]: its guidance is the same text with
    seven alerts and with none, and the count is nowhere in it. *)
Lemma energy_guidance_has_no_count :
  get_intent_guidance ENERGY seven_alerts = get_intent_guidance ENERGY quiet /\
  contains (str_of_nat (length (recentAlerts seven_alerts)))
           (get_intent_guidance ENERGY seven_alerts) = false /\
  contains (str_of_nat (length (recentAlerts seven_alerts)))
           (get_intent_guidance ALERTS seven_alerts) = true.
Proof. repeat split; vm_compute; reflexivity. Qed.

(** *** The query pipeline *)

Import Gateway GatewayFacts.

Lemma truthy_app (a b : string) : truthy a = true -> truthy (a +:+ b) = true.
Proof. destruct a; [discriminate|reflexivity]. Qed.

Lemma enhance_nonempty (r : string) (i : QuestionIntent) (ctx : context) :
  truthy r = true -> truthy (_enhance_response r i ctx) = true.
Proof.
  intros H. unfold _enhance_response. repeat case_match; auto using truthy_app.
Qed.

(** C1, as the code has it.  When the service is not initialized, or when
    the primary provider and the secondary one both fail, the response of
    [process_query] is the fallback text for the message and the context,
    with the appendix of its intent: it is not empty, and neither the
    providers, the clock nor the history enter it.  The flag [ai_enabled] is
    the attribute [initialized] of the service: false for a service that is
    not initialized, but true when an initialized service had to fall
    back. *)
Theorem fallback_response_and_ai_flag
    (generate_content : string -> option string)
    (call_cerebras : string -> string -> option string)
    (svc : service) (now_iso message : string) (ctx : context)
    (chat_history : option (list turn)) :
  initialized svc = false \/
  (gemini_fails generate_content /\ cerebras_fails call_cerebras svc) ->
  let result :=
    process_query generate_content call_cerebras svc now_iso message ctx
                  chat_history in
  response result
  = _enhance_response (_generate_fallback_response message ctx)
                      (detect_intent message) ctx /\
  truthy (response result) = true /\
  ai_enabled result = initialized svc.
Proof.
  intros H. cbv zeta. unfold process_query. cbn [response ai_enabled].
  assert (Hchat : chat generate_content call_cerebras svc now_iso message ctx
                       chat_history
                  = _generate_fallback_response message ctx).
  { destruct H as [H|[Hg Hc]];
      [now apply chat_uninitialized|now apply chat_both_fail]. }
  rewrite Hchat. split; [reflexivity|]. split; [|reflexivity].
  apply enhance_nonempty, fallback_nonempty.
Qed.

(** The failing input of C1: an initialized service whose primary provider
    raises and which has no secondary provider. *)
Lemma fallback_response_and_ai_flag_witness :
  let result :=
    process_query (fun _ => None) (fun _ _ => None) ready
                  "2026-01-19T10:30:00" "hello" quiet None in
  response result = fallback_default [] [] /\
  truthy (response result) = true /\
  ai_enabled result = true.
Proof.
  refine (fallback_response_and_ai_flag (fun _ => None) (fun _ _ => None) ready
            "2026-01-19T10:30:00" "hello" quiet None _).
  right. split.
  - intros prompt. left. reflexivity.
  - left. reflexivity.
Defined.

End AgentFacts.

(** ** More on the rate limiter *)

Module UsageFacts.
Import RateLimiter RateLimiterFacts Usage.

Lemma record_of_store_ne (st : limits) u a u' a' rec :
  (u, a) <> (u', a') ->
  record_of (store st u a rec) u' a' = record_of st u' a'.
Proof.
  intros Hne. unfold record_of, store.
  destruct (decide (u = u')) as [<-|Hu].
  - rewrite lookup_insert_eq. simpl.
    rewrite lookup_insert_ne by congruence. reflexivity.
  - now rewrite lookup_insert_ne.
Qed.

(** What a check stores and what it reports. *)
Lemma check_rate_limit_stores (now : Z) (st : limits) u a l :
  exists rec,
    fst (check_rate_limit now st u a l) = store st u a rec /\
    reset_at rec = Some (check_reset_at (snd (check_rate_limit now st u a l))) /\
    default 0 (count rec) = current_count (snd (check_rate_limit now st u a l)) /\
    now < check_reset_at (snd (check_rate_limit now st u a l)).
Proof.
  unfold check_rate_limit.
  destruct (reset_at (record_of st u a)) as [r|] eqn:Hr.
  - destruct (Z.geb_spec now r) as [Hge|Hlt]; cbn [fst snd].
    + eexists. split; [reflexivity|]. cbn.
      repeat split. apply next_reset_spec.
    + eexists. split; [reflexivity|]. cbn. repeat split; [exact Hr|exact Hlt].
  - cbn [fst snd]. eexists. split; [reflexivity|]. cbn.
    repeat split. apply next_reset_spec.
Qed.

(** X1. Whatever the table, the clock and the limit, the answer of
    [check_rate_limit] is coherent: [remaining] is never negative, the
    action is allowed exactly when something remains, and then [remaining]
    is [limit - current_count]; the reset time reported is later than
    [now]; and the record left in the table carries the count and the reset
    time reported. *)
Theorem check_answer_coherent (now : Z) (st : limits) (u a : string) (l : Z) :
  let out := check_rate_limit now st u a l in
  let res := snd out in
  0 <= remaining res /\
  (allowed res = true <-> 0 < remaining res) /\
  (allowed res = true -> remaining res = l - current_count res) /\
  limit res = l /\
  now < check_reset_at res /\
  reset_at (record_of (fst out) u a) = Some (check_reset_at res) /\
  default 0 (count (record_of (fst out) u a)) = current_count res.
Proof.
  cbv zeta.
  destruct (check_rate_limit_stores now st u a l) as (rec & Hst & Hr & Hc & Hlt).
  rewrite Hst, record_of_store.
  assert (Hrem : remaining (snd (check_rate_limit now st u a l))
                 = Z.max 0 (l - current_count (snd (check_rate_limit now st u a l)))
                 /\ allowed (snd (check_rate_limit now st u a l))
                    = (current_count (snd (check_rate_limit now st u a l)) <? l)
                 /\ limit (snd (check_rate_limit now st u a l)) = l).
  { unfold check_rate_limit.
    destruct (reset_at (record_of st u a)) as [r|]; [destruct (now >=? r)|];
      repeat split. }
  destruct Hrem as (Hrem & Hal & Hl). rewrite Hrem, Hal, Hl.
  repeat split; try assumption; try lia;
    intros H; try apply Z.ltb_lt in H; try apply Z.ltb_lt; lia.
Qed.

(** X2. A check or an increment for one user and action type leaves the
    record of every other pair of user and action type as it was. *)
Theorem other_records_untouched (now : Z) (st : limits) (u a u' a' : string) (l : Z) :
  (u, a) <> (u', a') ->
  record_of (fst (check_rate_limit now st u a l)) u' a' = record_of st u' a' /\
  record_of (fst (increment_count st u a)) u' a' = record_of st u' a'.
Proof.
  intros Hne. split.
  - destruct (check_rate_limit_stores now st u a l) as (rec & -> & _).
    now apply record_of_store_ne.
  - unfold increment_count. cbn [fst]. now apply record_of_store_ne.
Qed.

Lemma other_records_untouched_witness :
  record_of (fst (check_rate_limit (3 * day_us) used_twice "alice" "analysis" 50))
            "alice" "chat"
  = Usage (Some 2) (Some day_us) /\
  record_of (fst (increment_count used_twice "bob" "chat")) "alice" "chat"
  = Usage (Some 2) (Some day_us).
Proof.
  split.
  - refine (eq_trans (proj1 (other_records_untouched (3 * day_us) used_twice
                               "alice" "analysis" "alice" "chat" 50 _)) _).
    + discriminate.
    + vm_compute. reflexivity.
  - refine (eq_trans (proj2 (other_records_untouched 0 used_twice
                               "bob" "chat" "alice" "chat" 0 _)) _).
    + discriminate.
    + vm_compute. reflexivity.
Defined.

Lemma stats_lookup (now : Z) (st : limits) u a :
  get_usage_stats now st u !! a
  = (fun data => (default 0 (count data), default (now + day_us) (reset_at data)))
      <$> (default ∅ (st !! u) !! a).
Proof. unfold get_usage_stats. apply lookup_fmap. Qed.

(** X3. The statistics agree with the checks: after a check for a user
    and an action type, [get_usage_stats] shows for that action type the
    count and the reset time the check reported, whatever its own clock.
    For a user without records the statistics are empty, and a record that
    was only incremented, never checked, is shown with the reset time
    [now + 1 day]. *)
Theorem stats_agree_with_check (now now' : Z) (st : limits) (u a : string) (l : Z) :
  let out := check_rate_limit now st u a l in
  get_usage_stats now' (fst out) u !! a
  = Some (current_count (snd out), check_reset_at (snd out)) /\
  (st !! u = None -> get_usage_stats now' st u = ∅) /\
  (st !! u = None ->
   get_usage_stats now' (fst (increment_count st u a)) u !! a
   = Some (1, now' + day_us)).
Proof.
  cbv zeta. split; [|split].
  - destruct (check_rate_limit_stores now st u a l) as (rec & Hst & Hr & Hc & _).
    rewrite Hst, stats_lookup. unfold store.
    rewrite lookup_insert_eq. simpl. rewrite lookup_insert_eq.
    cbn. now rewrite Hr, Hc.
  - intros Hu. unfold get_usage_stats. rewrite Hu. cbn. apply fmap_empty.
  - intros Hu. rewrite stats_lookup. unfold increment_count, store, record_of.
    cbn [fst]. rewrite Hu. simpl.
    rewrite lookup_insert_eq. simpl. rewrite lookup_insert_eq.
    rewrite lookup_empty. reflexivity.
Qed.

Lemma stats_agree_with_check_witness :
  get_usage_stats 5 ∅ "alice" = ∅ /\
  get_usage_stats 5 (fst (increment_count ∅ "alice" "chat")) "alice" !! "chat"
  = Some (1, 5 + day_us).
Proof.
  split.
  - refine (proj1 (proj2 (stats_agree_with_check 0 5 ∅ "alice" "chat" 100)) _).
    reflexivity.
  - refine (proj2 (proj2 (stats_agree_with_check 0 5 ∅ "alice" "chat" 100)) _).
    reflexivity.
Defined.

Lemma record_of_absent (st : limits) u a :
  st !! u = None -> record_of st u a = no_usage.
Proof. intros H. unfold record_of. now rewrite H. Qed.

(** X4. [reset_user_limits] for an action type empties the record of that
    action type, so that the next check reports a zero count whatever the
    time, and it leaves every other record as it was; without an action
    type, or with the empty string for it, it empties all the records of
    the user; it never creates a record for a user the table does not
    hold. *)
Theorem reset_user_limits_effect (st : limits) (u a : string) (now l : Z) :
  (PyText.truthy a = true ->
   record_of (reset_user_limits st u (Some a)) u a = no_usage /\
   current_count (snd (check_rate_limit now (reset_user_limits st u (Some a)) u a l))
   = 0 /\
   forall u' a', (u, a) <> (u', a') ->
     record_of (reset_user_limits st u (Some a)) u' a' = record_of st u' a') /\
  (forall a', record_of (reset_user_limits st u None) u a' = no_usage) /\
  reset_user_limits st u (Some EmptyString) = reset_user_limits st u None /\
  (forall u' a', u <> u' ->
     record_of (reset_user_limits st u None) u' a' = record_of st u' a') /\
  (st !! u = None ->
   forall action, reset_user_limits st u action = st).
Proof.
  split; [|split; [|split; [|split]]].
  - intros Ha.
    assert (Hrec : record_of (reset_user_limits st u (Some a)) u a = no_usage).
    { unfold reset_user_limits. rewrite Ha.
      destruct (st !! u) as [m|] eqn:Hu; [|now apply record_of_absent].
      destruct (m !! a) as [rec|] eqn:Hm.
      - unfold record_of. rewrite lookup_insert_eq. simpl.
        now rewrite lookup_insert_eq.
      - unfold record_of. rewrite Hu. simpl. now rewrite Hm. }
    split; [exact Hrec|]. split.
    + rewrite check_resets; [reflexivity|].
      intros r. rewrite Hrec. discriminate.
    + intros u' a' Hne. unfold reset_user_limits. rewrite Ha.
      destruct (st !! u) as [m|] eqn:Hu; [|reflexivity].
      destruct (m !! a) as [rec|] eqn:Hm; [|reflexivity].
      unfold record_of. destruct (decide (u = u')) as [<-|Hne'].
      * rewrite lookup_insert_eq, Hu. simpl.
        rewrite lookup_insert_ne by congruence. reflexivity.
      * now rewrite lookup_insert_ne.
  - intros a'. unfold reset_user_limits.
    destruct (st !! u) as [m|] eqn:Hu; [|now apply record_of_absent].
    unfold record_of. rewrite lookup_insert_eq. simpl.
    now rewrite lookup_empty.
  - reflexivity.
  - intros u' a' Hne. unfold reset_user_limits.
    destruct (st !! u) as [m|] eqn:Hu; [|reflexivity].
    unfold record_of. now rewrite lookup_insert_ne.
  - intros Hu action. unfold reset_user_limits. rewrite Hu.
    destruct action as [x|]; [destruct (PyText.truthy x)|]; reflexivity.
Qed.

Lemma reset_user_limits_effect_witness :
  current_count
    (snd (check_rate_limit 5 (reset_user_limits used_twice "alice" (Some "chat"))
            "alice" "chat" 100)) = 0 /\
  reset_user_limits ∅ "alice" (Some "chat") = ∅.
Proof.
  split.
  - refine (proj1 (proj2 (proj1 (reset_user_limits_effect used_twice "alice" "chat"
                                   5 100) _))).
    reflexivity.
  - refine (proj2 (proj2 (proj2 (proj2 (reset_user_limits_effect ∅ "alice" "chat"
                                          5 100)))) _ (Some "chat")).
    reflexivity.
Defined.

(** Checks that all come before the increments they announce: each of them
    reads the count the window had. *)
Lemma reports_checks (r c l : Z) (n : nat) (times : list Z) :
  reports r c (map (fun now => Check now l) times ++ replicate n Increment)
  = map (fun _ => RateCheck (c <? l) (Z.max 0 (l - c)) l r c) times.
Proof.
  induction times as [|now times IH].
  - cbn [map app]. rewrite <- (app_nil_r (replicate n Increment)).
    now rewrite reports_increments.
  - cbn [map app reports]. now rewrite IH.
Qed.

Lemma increments_checks (l : Z) (n : nat) (times : list Z) :
  increments (map (fun now => Check now l) times ++ replicate n Increment)
  = Z.of_nat n.
Proof.
  induction times as [|now times IH]; [|exact IH].
  cbn [map app]. induction n as [|n IHn]; [reflexivity|].
  cbn [replicate increments]. lia.
Qed.

Lemma checks_then_increments (times : list Z) (st : limits) (u a : string)
    (r c l : Z) :
  window st u a r c -> c < l -> Forall (fun now => now < r) times ->
  let out :=
    run_calls u a st
      (map (fun now => Check now l) times ++ replicate (length times) Increment) in
  Forall (fun res => allowed res = true) (snd out) /\
  length (snd out) = length times /\
  window (fst out) u a r (c + Z.of_nat (length times)).
Proof.
  intros Hw Hc Hall. cbv zeta.
  assert (Hb : Forall (before r)
                 (map (fun now => Check now l) times
                  ++ replicate (length times) Increment)).
  { apply Forall_app. split.
    - apply Forall_map. eapply Forall_impl; [exact Hall|]. now intros now.
    - apply Forall_forall. intros x Hx. apply elem_of_replicate in Hx as [-> _].
      exact I. }
  destruct (run_calls_in_window _ _ _ _ _ _ Hw Hb) as [H1 H2].
  rewrite H2, reports_checks, increments_checks in *.
  split; [|split; [now rewrite length_map|exact H1]].
  apply Forall_map. apply Forall_forall. intros now _. cbn [allowed].
  now apply Z.ltb_lt.
Qed.

End UsageFacts.

(** ** The endpoints *)

Module ApiFacts.
Import PyText Context Json RateLimiter RateLimiterFacts ChatEndpoint
       ChatEndpointFacts Api.

Lemma window_store_ne (st : limits) u a a' r c rec :
  a <> a' -> window st u a' r c -> window (store st u a rec) u a' r c.
Proof.
  unfold window, store. intros Hne H.
  rewrite lookup_insert_eq. simpl.
  rewrite lookup_insert_ne by exact Hne.
  destruct (st !! u) as [m|]; simpl in *; [exact H|discriminate].
Qed.

Lemma window_increment_ne (st : limits) u a a' r c :
  a <> a' -> window st u a' r c ->
  window (fst (increment_count st u a)) u a' r c.
Proof. intros Hne H. unfold increment_count. cbn [fst]. now apply window_store_ne. Qed.

Lemma window_increment (st : limits) u a r c :
  window st u a r c -> window (fst (increment_count st u a)) u a r (c + 1).
Proof. intros H. now apply increment_in_window. Qed.


Lemma take_chars_app (a b : string) :
  Regex.take_chars (String.length a) (a +:+ b) = a.
Proof. induction a as [|c a IH]; cbn; [now destruct b|now rewrite IH]. Qed.



Section WithProviders.

Variable generate_content : string -> option string.
Variable call_cerebras : string -> string -> option string.
Variable json_loads : string -> option json.
Variable valid_anomaly : Gateway.AnomalyReport -> bool.
Variable valid_insight : Gateway.EnergyInsight -> bool.
Variable svc : Gateway.service.

#[local] Abbreviation chat_ep := (chat_endpoint generate_content call_cerebras svc).
#[local] Abbreviation anomaly_ep :=
  (anomaly_endpoint generate_content json_loads valid_anomaly svc).
#[local] Abbreviation energy_ep :=
  (energy_endpoint generate_content json_loads valid_insight svc).
#[local] Abbreviation returns1 :=
  (returns generate_content json_loads valid_insight svc).
#[local] Abbreviation analysis_calls1 :=
  (analysis_calls generate_content json_loads valid_insight svc).
#[local] Abbreviation serve1 :=
  (serve generate_content call_cerebras json_loads valid_anomaly valid_insight svc).
#[local] Abbreviation serve_run :=
  (serve_all generate_content call_cerebras json_loads valid_anomaly valid_insight svc).

Lemma chat_endpoint_in_window (t : tables) now now_iso provided request u r c :
  window (limits_of t) u "chat" r c -> now < r ->
  chat_ep now now_iso provided t request u
  = if c <? 100 then
      let result :=
        Agent.process_query generate_content call_cerebras svc now_iso
          (request_message request)
          (if include_context request then provided else no_context)
          (Some (history (sessions_of t) (session_of request u))) in
      (Tables (fst (increment_count (limits_of t) u "chat"))
              (store_exchange (sessions_of t) (session_of request u)
                 (request_message request) (Agent.response result)),
       Ok result)
    else (t, RateLimited (RateCheck false (Z.max 0 (100 - c)) 100 r c)).
Proof.
  intros Hw Hlt. unfold chat_endpoint.
  rewrite (check_in_window _ _ _ _ _ _ CHAT_DAILY_LIMIT Hw Hlt).
  unfold CHAT_DAILY_LIMIT. cbn [allowed].
  destruct (c <? 100); cbn [negb]; [reflexivity|now destruct t].
Qed.

(** X6. A chat request inside the quota window of its user.  Below the
    limit of 100 it is answered, the count of the user goes up by one, and
    the session gets the two turns of the exchange, the stored answer being
    the one returned; the other sessions are untouched.  At the limit it is
    refused with the counters in the error, and neither table changes. *)
Theorem chat_request_in_window (t : tables) (now : Z) (now_iso : string)
    (provided : context) (request : ChatRequest) (u : string) (r c : Z) :
  window (limits_of t) u "chat" r c -> now < r ->
  let out := chat_ep now now_iso provided t request u in
  let sid := session_of request u in
  (c < 100 ->
   exists result,
     snd out = Ok result /\
     window (limits_of (fst out)) u "chat" r (c + 1) /\
     history (sessions_of (fst out)) sid
     = last20 (history (sessions_of t) sid
               ++ turns_of (request_message request, Agent.response result)) /\
     forall sid', sid <> sid' ->
       sessions_of (fst out) !! sid' = sessions_of t !! sid') /\
  (100 <= c ->
   snd out = RateLimited (RateCheck false 0 100 r c) /\ fst out = t).
Proof.
  intros Hw Hlt. cbv zeta.
  rewrite (chat_endpoint_in_window _ _ _ _ _ _ _ _ Hw Hlt).
  split.
  - intros Hc. destruct (Z.ltb_spec c 100) as [_|]; [|lia]. cbv zeta.
    eexists. split; [reflexivity|]. cbn [fst limits_of sessions_of].
    split; [now apply window_increment|]. split.
    + apply history_store_exchange.
    + intros sid' Hne. now apply store_exchange_other.
  - intros Hc. destruct (Z.ltb_spec c 100) as [|_]; [lia|].
    cbn [fst snd]. split; [|reflexivity]. do 2 f_equal. lia.
Qed.

Lemma anomaly_endpoint_in_window (t : tables) now prompt u r c :
  window (limits_of t) u "analysis" r c -> now < r ->
  anomaly_ep now t prompt u
  = if c <? 50 then
      (Tables (fst (increment_count (limits_of t) u "analysis")) (sessions_of t),
       Ok (Gateway.analyze_anomalies generate_content json_loads valid_anomaly
             svc prompt))
    else (t, RateLimited (RateCheck false (Z.max 0 (50 - c)) 50 r c)).
Proof.
  intros Hw Hlt. unfold anomaly_endpoint.
  rewrite (check_in_window _ _ _ _ _ _ ANALYSIS_DAILY_LIMIT Hw Hlt).
  unfold ANALYSIS_DAILY_LIMIT. cbn [allowed].
  destruct (c <? 50); cbn [negb]; [reflexivity|now destruct t].
Qed.

Lemma energy_endpoint_in_window (t : tables) now prompt period u r c :
  window (limits_of t) u "analysis" r c -> now < r ->
  energy_ep now t prompt period u
  = if c <? 50 then
      match Gateway.generate_energy_insights generate_content json_loads
              valid_insight svc prompt period with
      | Some insights =>
          (Tables (fst (increment_count (limits_of t) u "analysis"))
                  (sessions_of t),
           Ok insights)
      | None => (t, ServerError)
      end
    else (t, RateLimited (RateCheck false (Z.max 0 (50 - c)) 50 r c)).
Proof.
  intros Hw Hlt. unfold energy_endpoint.
  rewrite (check_in_window _ _ _ _ _ _ ANALYSIS_DAILY_LIMIT Hw Hlt).
  unfold ANALYSIS_DAILY_LIMIT. cbn [allowed].
  destruct (c <? 50); cbn [negb]; [|now destruct t].
  destruct (Gateway.generate_energy_insights _ _ _ _ _ _);
    [reflexivity|now destruct t].
Qed.

Lemma serve_in_windows (t : tables) (u : string) (c : call) (r1 c1 r2 c2 : Z) :
  window (limits_of t) u "chat" r1 c1 ->
  window (limits_of t) u "analysis" r2 c2 ->
  check_clock c < r1 -> check_clock c < r2 ->
  let c1' := if is_chat c && (c1 <? 100) then c1 + 1 else c1 in
  let c2' := if is_analysis c && returns1 c && (c2 <? 50) then c2 + 1 else c2 in
  window (limits_of (fst (serve1 u t c))) u "chat" r1 c1' /\
  window (limits_of (fst (serve1 u t c))) u "analysis" r2 c2' /\
  snd (serve1 u t c)
  = (if is_chat c then c1 <? 100
     else if is_analysis c then returns1 c && (c2 <? 50) else true).
Proof.
  intros H1 H2 Ht1 Ht2. cbv zeta.
  destruct c as [now now_iso provided request|now prompt|now prompt period|ns nc];
    cbn [serve is_chat is_analysis returns check_clock andb] in *.
  - rewrite (chat_endpoint_in_window _ _ _ _ _ _ _ _ H1 Ht1).
    destruct (c1 <? 100); cbn [fst snd limits_of is_ok].
    + repeat split; [now apply window_increment|now apply window_increment_ne].
    + repeat split; assumption.
  - rewrite (anomaly_endpoint_in_window _ _ _ _ _ _ H2 Ht2).
    destruct (c2 <? 50); cbn [fst snd limits_of is_ok].
    + repeat split; [now apply window_increment_ne|now apply window_increment].
    + repeat split; assumption.
  - rewrite (energy_endpoint_in_window _ _ _ _ _ _ _ H2 Ht2).
    destruct (c2 <? 50),
             (Gateway.generate_energy_insights generate_content json_loads
                valid_insight svc prompt period);
      cbn [fst snd limits_of is_ok andb].
    + repeat split; [now apply window_increment_ne|now apply window_increment].
    + repeat split; assumption.
    + repeat split; assumption.
    + repeat split; assumption.
  - unfold rate_limit_endpoint.
    rewrite (check_in_window _ _ _ _ _ _ CHAT_DAILY_LIMIT H1 Ht1).
    cbn [fst snd limits_of]. repeat split; assumption.
Qed.

Lemma filter_length_cons {A : Type} (f : A -> bool) (x : A) (l : list A) :
  Z.of_nat (length (filter (fun y => f y = true) (x :: l)))
  = (if f x then 1 else 0) + Z.of_nat (length (filter (fun y => f y = true) l)).
Proof.
  rewrite filter_cons. destruct (f x).
  - rewrite decide_True by reflexivity. cbn [length]. lia.
  - rewrite decide_False by discriminate. lia.
Qed.

(** X7. The daily quotas across the endpoints, for requests that are
    handled one after the other.  For one user, inside the windows of the
    two action types, whatever the calls and their order: the chat count
    ends at [min 100 (c1 + chat calls)] and the analysis count, which the
    anomaly and the energy endpoints share, at
    [min 50 (c2 + anomaly calls + energy calls whose handler returns)]; an
    energy call for which [generate_energy_insights] raises is answered
    with 500 and is not counted; the calls answered with a body are exactly
    those counted; reading the rate-limit status counts nothing.  The bound
    needs the requests to come one after the other: the check and the
    increment of a request are two steps, and requests that are all checked
    before any of them is counted are all allowed, so that the count passes
    the limit. *)
Theorem quotas_hold_across_endpoints (cs : list call) :
  forall (t : tables) (u : string) (r1 c1 r2 c2 : Z),
  window (limits_of t) u "chat" r1 c1 ->
  window (limits_of t) u "analysis" r2 c2 ->
  c1 <= 100 -> c2 <= 50 ->
  Forall (fun c => check_clock c < r1 /\ check_clock c < r2) cs ->
  let out := serve_run u t cs in
  window (limits_of (fst out)) u "chat" r1 (Z.min 100 (c1 + chat_calls cs)) /\
  window (limits_of (fst out)) u "analysis" r2
         (Z.min 50 (c2 + analysis_calls1 cs)) /\
  answered is_chat cs (snd out) = Z.min 100 (c1 + chat_calls cs) - c1 /\
  answered is_analysis cs (snd out) = Z.min 50 (c2 + analysis_calls1 cs) - c2 /\
  (forall now prompt period,
     Gateway.generate_energy_insights generate_content json_loads valid_insight
       svc prompt period = None ->
     c2 < 50 -> now < r2 ->
     energy_ep now t prompt period u = (t, ServerError)) /\
  (forall (times : list Z), c1 < 100 -> Forall (fun now => now < r1) times ->
     let raced :=
       RateLimiter.run_calls u "chat" (limits_of t)
         (map (fun now => RateLimiter.Check now 100) times
          ++ replicate (length times) RateLimiter.Increment) in
     Forall (fun res => allowed res = true) (snd raced) /\
     length (snd raced) = length times /\
     window (fst raced) u "chat" r1 (c1 + Z.of_nat (length times))).
Proof.
  induction cs as [|c cs IH]; intros t u r1 c1 r2 c2 H1 H2 Hc1 Hc2 Hall.
  - cbn. unfold chat_calls, analysis_calls, answered. cbn.
    rewrite !Z.add_0_r, !Z.min_r by lia.
    repeat split; try assumption; try lia.
    + intros now prompt period Hg Hlt Hnow.
      rewrite (energy_endpoint_in_window _ _ _ _ _ _ _ H2 Hnow), Hg.
      now destruct (Z.ltb_spec c2 50); [|lia].
    + now apply (UsageFacts.checks_then_increments times _ u "chat" r1 c1 100).
    + now apply (UsageFacts.checks_then_increments times _ u "chat" r1 c1 100).
    + now apply (UsageFacts.checks_then_increments times _ u "chat" r1 c1 100).
  - inversion Hall as [|? ? [Ht1 Ht2] Hall']; subst.
    destruct (serve_in_windows t u c r1 c1 r2 c2 H1 H2 Ht1 Ht2)
      as (W1 & W2 & Hok).
    cbn [serve_all].
    destruct (serve1 u t c) as [t' ok] eqn:Hs. cbn [fst snd] in *.
    set (c1' := if is_chat c && (c1 <? 100) then c1 + 1 else c1) in *.
    set (c2' := if is_analysis c && returns1 c && (c2 <? 50)
                then c2 + 1 else c2) in *.
    assert (Hc1' : c1' <= 100).
    { unfold c1'. destruct (is_chat c), (Z.ltb_spec c1 100); cbn; lia. }
    assert (Hc2' : c2' <= 50).
    { unfold c2'.
      destruct (is_analysis c), (returns1 c), (Z.ltb_spec c2 50); cbn; lia. }
    specialize (IH t' u r1 c1' r2 c2' W1 W2 Hc1' Hc2' Hall').
    cbv zeta in IH. destruct (serve_run u t' cs) as [t'' oks].
    cbn [fst snd] in *. destruct IH as (I1 & I2 & I3 & I4 & _).
    unfold chat_calls, analysis_calls, answered in *.
    cbn [zip zip_with].
    rewrite (filter_length_cons is_chat),
            (filter_length_cons (fun c0 => is_analysis c0 && returns1 c0)),
            (filter_length_cons (fun x => is_chat (fst x) && snd x)),
            (filter_length_cons (fun x => is_analysis (fst x) && snd x)).
    assert (E1 : Z.min 100 (c1 + ((if is_chat c then 1 else 0)
                  + Z.of_nat (length (filter (λ c0, is_chat c0 = true) cs))))
                 = Z.min 100 (c1' + Z.of_nat
                     (length (filter (λ c0, is_chat c0 = true) cs)))).
    { unfold c1'. destruct (is_chat c), (Z.ltb_spec c1 100); cbn; lia. }
    assert (E2 : Z.min 50 (c2 + ((if is_analysis c && returns1 c then 1 else 0)
                  + Z.of_nat (length (filter
                      (λ c0, is_analysis c0 && returns1 c0 = true) cs))))
                 = Z.min 50 (c2' + Z.of_nat
                     (length (filter
                        (λ c0, is_analysis c0 && returns1 c0 = true) cs)))).
    { unfold c2'.
      destruct (is_analysis c), (returns1 c), (Z.ltb_spec c2 50); cbn; lia. }
    rewrite E1, E2. split; [exact I1|]. split; [exact I2|].
    cbn [fst snd]. rewrite I3, I4, Hok.
    split; [|split; [|split]].
    + unfold c1'.
      destruct c; cbn [is_chat is_analysis andb];
        destruct (Z.ltb_spec c1 100); cbn; lia.
    + unfold c2'.
      destruct (is_chat c) eqn:Hchat, (is_analysis c) eqn:Han, (returns1 c),
               (Z.ltb_spec c2 50); cbn; try lia;
        destruct c; discriminate.
    + intros now prompt period Hg Hlt Hnow.
      rewrite (energy_endpoint_in_window _ _ _ _ _ _ _ H2 Hnow), Hg.
      now destruct (Z.ltb_spec c2 50); [|lia].
    + intros times Hlt Htimes.
      now apply (UsageFacts.checks_then_increments times _ u "chat" r1 c1 100).
Qed.

End WithProviders.

Lemma chat_request_in_window_witness :
  let out :=
    chat_endpoint (fun _ => None) (fun _ _ => None) Gateway.ready 5
      "2026-01-19T10:30:00" quiet both_open
      (MkChatRequest "hello" None true) "alice" in
  is_ok (snd out) = true /\
  window (limits_of (fst out)) "alice" "chat" day_us 1 /\
  length (history (sessions_of (fst out)) "default_alice") = 2%nat.
Proof.
  destruct (proj1 (chat_request_in_window (fun _ => None) (fun _ _ => None)
                     Gateway.ready both_open 5 "2026-01-19T10:30:00" quiet
                     (MkChatRequest "hello" None true) "alice" day_us 0
                     eq_refl eq_refl) eq_refl)
    as (result & Hr & Hw & Hh & _).
  cbv zeta. split; [now rewrite Hr|]. split; [exact Hw|].
  change (session_of (MkChatRequest "hello" None true) "alice")
    with "default_alice" in Hh.
  rewrite Hh. reflexivity.
Defined.

Lemma quotas_hold_across_endpoints_witness :
  (let out :=
     serve_all Gateway.energy_model (fun _ _ => None) loads_ref
       Gateway.plain_anomaly Gateway.plain_insight Gateway.ready "alice"
       both_open sixty_analyses in
   window (limits_of (fst out)) "alice" "analysis" day_us 50 /\
   window (limits_of (fst out)) "alice" "chat" day_us 0 /\
   answered is_analysis sixty_analyses (snd out) = 50) /\
  (let out :=
     serve_all (fun _ => None) (fun _ _ => None) loads_ref
       Gateway.plain_anomaly Gateway.plain_insight Gateway.ready "alice"
       both_open sixty_analyses in
   window (limits_of (fst out)) "alice" "analysis" day_us 30 /\
   answered is_analysis sixty_analyses (snd out) = 30).
Proof.
  assert (H1 : window (limits_of both_open) "alice" "chat" day_us 0)
    by (vm_compute; reflexivity).
  assert (H2 : window (limits_of both_open) "alice" "analysis" day_us 0)
    by (vm_compute; reflexivity).
  assert (Hall : Forall (fun c => check_clock c < day_us /\ check_clock c < day_us)
                        sixty_analyses).
  { unfold sixty_analyses. cbn [replicate app].
    repeat (constructor; [split; reflexivity|]). constructor. }
  split.
  - pose proof (quotas_hold_across_endpoints Gateway.energy_model
                  (fun _ _ => None) loads_ref Gateway.plain_anomaly
                  Gateway.plain_insight Gateway.ready
                  sixty_analyses both_open "alice" day_us 0 day_us 0
                  H1 H2 ltac:(lia) ltac:(lia) Hall) as H.
    cbv zeta in *. destruct H as (Hc & Ha & _ & Hn & _).
    assert (Hcount : analysis_calls Gateway.energy_model loads_ref
                       Gateway.plain_insight Gateway.ready sixty_analyses = 60)
      by (vm_compute; reflexivity).
    rewrite Hcount in Ha, Hn.
    split; [exact Ha|]. split; [exact Hc|exact Hn].
  - pose proof (quotas_hold_across_endpoints (fun _ => None)
                  (fun _ _ => None) loads_ref Gateway.plain_anomaly
                  Gateway.plain_insight Gateway.ready
                  sixty_analyses both_open "alice" day_us 0 day_us 0
                  H1 H2 ltac:(lia) ltac:(lia) Hall) as H.
    cbv zeta in *. destruct H as (_ & Ha & _ & Hn & _).
    assert (Hcount : analysis_calls (fun _ => None) loads_ref
                       Gateway.plain_insight Gateway.ready sixty_analyses = 30)
      by (vm_compute; reflexivity).
    rewrite Hcount in Ha, Hn.
    split; [exact Ha|exact Hn].
Defined.

End ApiFacts.

(** ** More on the session store *)

Module SessionFacts.
Import PyText Context ChatEndpoint ChatEndpointFacts Api.

Lemma turns_length (exs : list (string * string)) :
  length (concat (map turns_of exs)) = (2 * length exs)%nat.
Proof. induction exs as [|ex exs IH]; cbn; [reflexivity|]. rewrite IH. lia. Qed.

Lemma drop_turns (k : nat) : forall exs : list (string * string),
  drop (2 * k) (concat (map turns_of exs)) = concat (map turns_of (drop k exs)).
Proof.
  induction k as [|k IH]; intros exs; [reflexivity|].
  destruct exs as [|ex exs]; [reflexivity|].
  replace (2 * S k)%nat with (S (S (2 * k))) by lia.
  cbn [map concat turns_of app drop]. apply IH.
Qed.

Lemma chat_messages_turns (session_id : string) (exs : list (string * string)) :
  forall i : nat,
  exists msgs,
    chat_messages session_id i (concat (map turns_of exs)) = Some msgs /\
    map (fun m => (snd (fst m), snd m)) msgs
    = concat (map (fun ex => [("user", fst ex); ("assistant", snd ex)]) exs) /\
    map (fun m => fst (fst m)) msgs
    = map (fun j => session_id +:+ "_" +:+ str_of_nat j) (seq i (2 * length exs)).
Proof.
  induction exs as [|ex exs IH]; intros i.
  - exists []. repeat split.
  - destruct (IH (S (S i))) as (msgs & Hm & Hc & Hi).
    replace (2 * length (ex :: exs))%nat with (S (S (2 * length exs)))
      by (cbn [length]; lia).
    eexists. cbn [map concat turns_of app chat_messages role content message_role
                  existsb String.eqb Ascii.eqb Bool.eqb orb mbind option_bind seq].
    rewrite Hm. cbn [mbind option_bind]. split; [reflexivity|].
    cbn [map fst snd]. now rewrite Hc, Hi.
Qed.

(** X8. The window of 20 turns never cuts an exchange in two.  From the
    empty store, the history of a session after any run of exchanges is made
    of the two turns of each of its last ten exchanges, in order; and
    [get_chat_history] answers with these messages, the roles alternating
    from [user], numbered from 0, and with their number. *)
Theorem history_is_last_ten_exchanges (lim : gmap string (gmap string RateLimiter.usage))
    (sid : string) (exs : list (string * string)) :
  let kept := drop (length exs - 10) exs in
  history (run_exchanges ∅ sid exs) sid = concat (map turns_of kept) /\
  exists msgs,
    get_chat_history (Tables lim (run_exchanges ∅ sid exs)) sid
    = Ok (msgs, (2 * length kept)%nat) /\
    map (fun m => (snd (fst m), snd m)) msgs
    = concat (map (fun ex => [("user", fst ex); ("assistant", snd ex)]) kept) /\
    map (fun m => fst (fst m)) msgs
    = map (fun j => sid +:+ "_" +:+ str_of_nat j) (seq 0 (2 * length kept)).
Proof.
  cbv zeta.
  assert (H : history (run_exchanges ∅ sid exs) sid
              = concat (map turns_of (drop (length exs - 10) exs))).
  { rewrite history_run_exchanges.
    - unfold history at 1. rewrite lookup_empty. cbn [default app].
      simpl. unfold last20. rewrite turns_length.
      replace (2 * length exs - 20)%nat with (2 * (length exs - 10))%nat by lia.
      apply drop_turns.
    - unfold history. rewrite lookup_empty. cbn. lia. }
  split; [exact H|].
  unfold get_chat_history. cbn [sessions_of]. rewrite H.
  destruct (chat_messages_turns sid (drop (length exs - 10) exs) O)
    as (msgs & Hm & Hc & Hi).
  exists msgs. rewrite Hm. split; [|split; assumption].
  f_equal. f_equal.
  apply (f_equal (@length _)) in Hi. rewrite !length_map, length_seq in Hi.
  exact Hi.
Qed.

(** X9. Clearing a session empties its history and nothing else: the other
    sessions keep theirs, clearing a session that does not exist leaves the
    store as it is, clearing twice is clearing once, and the first exchange
    after a clearing starts a history of two turns. *)
Theorem clear_chat_history_effect (store : sessions) (sid sid' u a : string) :
  history (clear_chat_history store sid) sid = [] /\
  (sid <> sid' ->
   history (clear_chat_history store sid) sid' = history store sid') /\
  (store !! sid = None -> clear_chat_history store sid = store) /\
  clear_chat_history (clear_chat_history store sid) sid
  = clear_chat_history store sid /\
  history (store_exchange (clear_chat_history store sid) sid u a) sid
  = turns_of (u, a).
Proof.
  assert (Hgone : clear_chat_history store sid !! sid = None).
  { unfold clear_chat_history. destruct (store !! sid) eqn:Hs; [|exact Hs].
    apply lookup_delete_eq. }
  split; [|split; [|split; [|split]]].
  - unfold history. now rewrite Hgone.
  - intros Hne. unfold history, clear_chat_history.
    destruct (store !! sid); [|reflexivity]. now rewrite lookup_delete_ne.
  - intros Hs. unfold clear_chat_history. now rewrite Hs.
  - unfold clear_chat_history at 1. now rewrite Hgone.
  - rewrite history_store_exchange. unfold history at 1. rewrite Hgone.
    reflexivity.
Qed.

Lemma clear_chat_history_effect_witness :
  history (clear_chat_history (run_exchanges ∅ "s" [("q1", "a1")]) "s") "t"
  = history (run_exchanges ∅ "s" [("q1", "a1")]) "t" /\
  clear_chat_history (run_exchanges ∅ "s" [("q1", "a1")]) "t"
  = run_exchanges ∅ "s" [("q1", "a1")].
Proof.
  pose proof (clear_chat_history_effect (run_exchanges ∅ "s" [("q1", "a1")])
                "s" "t" "q" "a") as (_ & H1 & _).
  pose proof (clear_chat_history_effect (run_exchanges ∅ "s" [("q1", "a1")])
                "t" "s" "q" "a") as (_ & _ & H2 & _).
  split.
  - apply H1. discriminate.
  - apply H2. vm_compute. reflexivity.
Defined.

End SessionFacts.

(** ** More on the gateway *)

Module GatewayMoreFacts.
Import PyText Context Json Gateway GatewayFacts Startup Api.

Lemma recent_turns_last_six (h : list turn) :
  recent_turns (drop (length h - 6) h) = recent_turns h.
Proof.
  unfold recent_turns. rewrite length_drop.
  destruct (Nat.ltb_spec 6 (length h)) as [Hlt|Hge].
  - destruct (Nat.ltb_spec 6 (length h - (length h - 6))); [lia|reflexivity].
  - replace (length h - 6)%nat with O by lia. cbn [drop].
    destruct (Nat.ltb_spec 6 (length h - 0)); [lia|reflexivity].
Qed.

(** X10. Of the history it is given, [chat] reads the last six turns only:
    the answer is the same when the older turns are dropped, and an empty
    history is as good as none.  The same holds for [process_query]. *)
Theorem chat_reads_last_six_turns
    (generate_content : string -> option string)
    (call_cerebras : string -> string -> option string)
    (svc : service) (now_iso message : string) (ctx : context) (h : list turn) :
  chat generate_content call_cerebras svc now_iso message ctx (Some h)
  = chat generate_content call_cerebras svc now_iso message ctx
         (Some (drop (length h - 6) h)) /\
  chat generate_content call_cerebras svc now_iso message ctx (Some [])
  = chat generate_content call_cerebras svc now_iso message ctx None /\
  Agent.process_query generate_content call_cerebras svc now_iso message ctx (Some h)
  = Agent.process_query generate_content call_cerebras svc now_iso message ctx
      (Some (drop (length h - 6) h)).
Proof.
  assert (Hp : chat_prompt now_iso message ctx (Some h)
               = chat_prompt now_iso message ctx (Some (drop (length h - 6) h))).
  { unfold chat_prompt, conversation_context.
    now rewrite recent_turns_last_six. }
  assert (Hc : chat generate_content call_cerebras svc now_iso message ctx (Some h)
               = chat generate_content call_cerebras svc now_iso message ctx
                      (Some (drop (length h - 6) h))).
  { unfold chat. now rewrite Hp. }
  split; [exact Hc|]. split; [reflexivity|].
  unfold Agent.process_query. now rewrite Hc.
Qed.

(** X11. The secondary provider and the fallback are consulted only when
    the primary one gives no text.  When the primary provider answers the
    prompt with a text that is not empty, [chat] returns that text stripped,
    whatever the secondary provider would answer; when the primary one
    raises or answers with no text and the service has a key for the
    secondary one, the secondary one is asked the same prompt with an empty
    system prompt, and its answer is returned stripped. *)
Theorem chat_provider_order
    (generate_content : string -> option string)
    (call_cerebras call_cerebras' : string -> string -> option string)
    (svc : service) (now_iso message : string) (ctx : context)
    (h : option (list turn)) (prompt : string) :
  initialized svc = true ->
  chat_prompt now_iso message ctx h = Some prompt ->
  (forall text, generate_content prompt = Some text -> truthy text = true ->
   chat generate_content call_cerebras svc now_iso message ctx h = strip text /\
   chat generate_content call_cerebras' svc now_iso message ctx h = strip text) /\
  (forall answer,
   generate_content prompt = None \/ generate_content prompt = Some E ->
   has_cerebras svc = true -> call_cerebras prompt E = Some answer ->
   chat generate_content call_cerebras svc now_iso message ctx h = strip answer).
Proof.
  intros Hi Hp. unfold chat. rewrite Hi, Hp. cbn [negb]. split.
  - intros text Hg Ht. now rewrite Hg, Ht.
  - intros answer Hg Hc Ha. unfold cerebras_or_fallback. rewrite Hc, Ha.
    now destruct Hg as [-> | ->].
Qed.

Lemma chat_provider_order_witness :
  chat (fun _ => Some "  The fan is on.  ") (fun _ _ => Some "ignored") ready
       "2026-01-19T10:30:00" "status?" quiet None = "The fan is on." /\
  chat (fun _ => None) (fun _ _ => Some " From the second provider. ")
       (Service true (Some "key")) "2026-01-19T10:30:00" "status?" quiet None
  = "From the second provider.".
Proof.
  split.
  - refine (proj1 (proj1 (chat_provider_order (fun _ => Some "  The fan is on.  ")
              (fun _ _ => Some "ignored") (fun _ _ => None) ready
              "2026-01-19T10:30:00" "status?" quiet None _ eq_refl eq_refl)
              "  The fan is on.  " eq_refl eq_refl)).
  - refine (proj2 (chat_provider_order (fun _ => None)
              (fun _ _ => Some " From the second provider. ") (fun _ _ => None)
              (Service true (Some "key"))
              "2026-01-19T10:30:00" "status?" quiet None _ eq_refl eq_refl)
              " From the second provider. " (or_introl eq_refl) eq_refl eq_refl).
Defined.

Lemma split_from_nonempty (sep s : string) : forall skip,
  exists piece pieces, split_from sep skip s = piece :: pieces.
Proof.
  induction s as [|c s IH]; intros skip; [now exists E, []|].
  cbn [split_from]. destruct skip as [|k]; [|apply IH].
  destruct (String.prefix sep (String c s)); [now eexists _, _|].
  destruct (IH O) as (p & ps & ->). now eexists _, _.
Qed.

(** X12. The cleaning of a model answer never fails: the index 1 of the
    split is always there.  An answer that does not start with a fence is
    only stripped; a payload without fences between a fence without a
    language tag and a closing fence is taken out as it is from a fence
    tagged [json]. *)
Theorem clean_fences_total (text payload : string) :
  is_Some (clean_fences text) /\
  (startswith (strip text) "```" = false -> clean_fences text = Some (strip text)) /\
  (contains "```" payload = false ->
   clean_fences ("```" +:+ nl +:+ payload +:+ nl +:+ "```") = Some (strip payload) /\
   clean_fences ("```json" +:+ nl +:+ payload +:+ nl +:+ "```")
   = Some (strip payload)).
Proof.
  split; [|split].
  - unfold clean_fences.
    destruct (startswith (strip text) "```") eqn:Hs; [|now eexists].
    unfold split. destruct (strip text) as [|c s]; [discriminate Hs|].
    cbn [split_from]. unfold startswith in Hs. rewrite Hs.
    destruct (split_from_nonempty "```" s (Nat.pred (String.length "```")))
      as (p & ps & ->).
    cbn. now eexists.
  - intros Hs. unfold clean_fences. now rewrite Hs.
  - intros Hfree. split; [|now apply clean_fences_fenced].
    unfold clean_fences.
    assert (Hstrip : strip ("```" +:+ nl +:+ payload +:+ nl +:+ "```")
                     = "```" +:+ nl +:+ payload +:+ nl +:+ "```").
    { unfold strip.
      change (lstrip ("```" +:+ nl +:+ payload +:+ nl +:+ "```"))
        with ("```" +:+ nl +:+ payload +:+ nl +:+ "```").
      rewrite <- !append_assoc. now apply rstrip_app_kept. }
    rewrite Hstrip.
    assert (Hsplit : split "```" ("```" +:+ nl +:+ payload +:+ nl +:+ "```")
                     = [E; nl +:+ payload +:+ nl; E]).
    { unfold split.
      change (split_from "```" O ("```" +:+ nl +:+ payload +:+ nl +:+ "```"))
        with (E :: split_from "```" O (nl +:+ payload +:+ nl +:+ "```")).
      f_equal.
      replace (nl +:+ payload +:+ nl +:+ "```")
        with ((nl +:+ payload +:+ nl) +:+ "```")
        by (now rewrite !append_assoc).
      apply split_before_fence.
      change (fence_clear (nl +:+ payload +:+ nl))
        with (fence_clear (payload +:+ nl)).
      now apply fence_clear_payload. }
    rewrite Hsplit.
    unfold startswith at 1. rewrite (AgentFacts.prefix_app "```").
    cbn [lookup list_lookup mbind option_bind].
    change (startswith (nl +:+ payload +:+ nl) "json") with false. cbv iota.
    now rewrite strip_between_newlines.
Qed.

Lemma clean_fences_total_witness :
  clean_fences "  {}  " = Some "{}" /\
  clean_fences ("```" +:+ nl +:+ "[1, 2]" +:+ nl +:+ "```") = Some "[1, 2]".
Proof.
  split.
  - refine (proj1 (proj2 (clean_fences_total "  {}  " E)) _). reflexivity.
  - refine (proj1 (proj2 (proj2 (clean_fences_total E "[1, 2]")) _)). reflexivity.
Defined.

Lemma getattr_declared (s : settings) (name : string) :
  is_Some (getattr s name) <-> name ∈ declared s.
Proof.
  unfold getattr. destruct (existsb (String.eqb name) (declared s)) eqn:H.
  - split; [intros _|now eexists].
    apply existsb_exists in H as (x & Hin & Hx).
    apply String.eqb_eq in Hx as ->. now apply list_elem_of_In.
  - split; [intros [? [=]]|]. intros Hin. exfalso.
    assert (Ht : existsb (String.eqb name) (declared s) = true);
      [|congruence].
    apply existsb_exists. exists name.
    split; [now apply list_elem_of_In|apply String.eqb_refl].
Qed.

Lemma fallback_energy_insight_raises (valid_insight : EnergyInsight -> bool)
    (period : string) :
  _generate_fallback_energy_insight valid_insight period = None.
Proof. reflexivity. Qed.

(** X13. What the constructor decides.  It reads three attributes of the
    settings object, [gemini_api_key], [cerebras_api_key] and
    [cerebras_model], and it returns exactly when the class of the settings
    declares the three: with the class [Settings] of [core/config.py], which
    declares the first only, it raises in every environment.  When it
    returns, the service counts as initialized exactly when the secondary
    key is there or the primary key is there and its SDK could be set up; a
    model is there exactly in the second case.  Without a model the
    structured methods, which never ask the secondary provider, do not reach
    a model: [analyze_anomalies] gives its fallback report,
    [get_control_recommendation] approves and [generate_energy_insights]
    raises; with the secondary key [chat] answers with the text of the
    secondary provider. *)
Theorem startup_decides_providers (s : settings) (configure_ok : bool) :
  (forall env, init (get_settings env) configure_ok = None) /\
  (is_Some (init s configure_ok)
   <-> forall name, name ∈ read_by_init -> name ∈ declared s) /\
  (forall st, init s configure_ok = Some st ->
   let api_key := value_of s "gemini_api_key" in
   let cerebras_key := value_of s "cerebras_api_key" in
   initialized (service_of st)
   = key_present cerebras_key || (key_present api_key && configure_ok) /\
   has_model st = key_present api_key && configure_ok /\
   has_cerebras (service_of st) = key_present cerebras_key /\
   (has_model st = false ->
    forall generate_content json_loads valid_anomaly valid_insight prompt period,
      analyze_anomalies (model_of st generate_content) json_loads valid_anomaly
                        (service_of st) prompt
      = _generate_fallback_anomaly_report /\
      generate_energy_insights (model_of st generate_content) json_loads
                               valid_insight (service_of st) prompt period
      = None /\
      approved (get_control_recommendation (model_of st generate_content)
                  json_loads (service_of st) prompt) = true) /\
   (has_model st = false -> key_present cerebras_key = true ->
    forall generate_content call_cerebras now_iso message ctx h prompt answer,
      chat_prompt now_iso message ctx h = Some prompt ->
      call_cerebras prompt E = Some answer ->
      chat (model_of st generate_content) call_cerebras (service_of st)
           now_iso message ctx h = strip answer)).
Proof.
  split; [intros env; reflexivity|]. split.
  - split.
    + intros [st Hst] name Hin. unfold init in Hst.
      destruct (getattr s "gemini_api_key") as [v1|] eqn:E1; [|discriminate].
      destruct (getattr s "cerebras_api_key") as [v2|] eqn:E2; [|discriminate].
      destruct (getattr s "cerebras_model") as [v3|] eqn:E3; [|discriminate].
      unfold read_by_init in Hin.
      repeat (apply elem_of_cons in Hin as [->|Hin];
              [apply getattr_declared; eauto|]).
      inversion Hin.
    + intros H. unfold init.
      destruct (proj2 (getattr_declared s "gemini_api_key")) as [v1 ->];
        [apply H; unfold read_by_init; repeat constructor|].
      destruct (proj2 (getattr_declared s "cerebras_api_key")) as [v2 ->];
        [apply H; unfold read_by_init; repeat constructor|].
      destruct (proj2 (getattr_declared s "cerebras_model")) as [v3 ->];
        [apply H; unfold read_by_init; repeat constructor|].
      now eexists.
  - intros st Hinit. unfold init, getattr in Hinit.
    destruct (existsb (String.eqb "gemini_api_key") (declared s));
      [|discriminate].
    destruct (existsb (String.eqb "cerebras_api_key") (declared s));
      [|discriminate].
    destruct (existsb (String.eqb "cerebras_model") (declared s));
      [|discriminate].
    cbn [mbind option_bind] in Hinit. injection Hinit as <-. cbv zeta.
    destruct (key_present (value_of s "gemini_api_key")) eqn:Ha, configure_ok,
             (key_present (value_of s "cerebras_api_key")) eqn:Hc;
      cbn [negb service_of has_model initialized has_cerebras andb orb];
      (split; [reflexivity|]); (split; [reflexivity|]);
      (split; [exact Hc|]); split; try discriminate.
    all: try (intros _ gc jl va vi prompt period;
              unfold analyze_anomalies, generate_energy_insights,
                get_control_recommendation, model_json, model_of;
              cbn [has_model initialized negb];
              destruct prompt; repeat split; reflexivity).
    all: intros _ _ gc cb now_iso message ctx h prompt answer Hp Hcb;
         unfold chat, model_of, cerebras_or_fallback;
         cbn [has_model initialized negb has_cerebras];
         rewrite Hp; unfold key_present in Hc; unfold has_cerebras;
         cbn [cerebras_api_key]; rewrite Hc, Hcb; reflexivity.
Qed.

(** X14. The control endpoint, for a validation of [ControlRecommendation]
    that accepts the values of the declared types.  A load that is not in
    the context is answered with 404 before the model is asked.  When the
    service fails open, the endpoint approves with the confidence 0.9.  An
    answer of the model that is a JSON object without the key [approved]
    is approved by default, but with the confidence 0.7 of a refusal, when
    the validation accepts its other values, and is a server error when it
    does not.  An object whose [approved] is [null], and an answer that is
    JSON but not an object, are server errors, not approvals. *)
Theorem control_endpoint_cases
    (generate_content : string -> option string)
    (json_loads : string -> option json) (svc : service)
    (float_truthy : string -> bool)
    (valid_control : ControlRecommendation -> bool)
    (rows : list load_row) (id : Z) (prompt : option string) :
  (forall r, well_typed_control r = true -> valid_control r = true) ->
  let answer :=
    control_endpoint generate_content json_loads svc float_truthy valid_control
                     rows id prompt in
  (find_load rows id = None ->
   answer = NotFound ("Load " +:+ str_of_Z id +:+ " not found")) /\
  (is_Some (find_load rows id) ->
   (initialized svc = false \/ model_json generate_content json_loads prompt = None ->
    exists reason,
      answer = Ok (MkControlRecommendation (JBool true) (JStr reason) (JArr [])
                     (JArr []) "0.9")) /\
   (initialized svc = true ->
    forall fields,
      model_json generate_content json_loads prompt = Some (JObj fields) ->
      (dict_get "approved" fields = None ->
       exists r,
         cr_approved r = JBool true /\ cr_confidence r = "0.7" /\
         cr_reason r
         = default (JStr "No specific recommendation") (dict_get "reason" fields) /\
         answer = if valid_control r then Ok r else ServerError) /\
      (dict_get "approved" fields = Some JNull -> answer = ServerError)) /\
   (initialized svc = true ->
    forall v, model_json generate_content json_loads prompt = Some v ->
      (forall fields, v <> JObj fields) -> answer = ServerError)).
Proof.
  intros Hv. cbv zeta. unfold control_endpoint. split.
  - now intros ->.
  - intros [row ->]. split; [|split].
    + intros H. unfold get_control_recommendation.
      destruct (initialized svc); cbn [negb].
      * destruct H as [H|H]; [discriminate|]. rewrite H.
        eexists. unfold allow. cbn. now rewrite Hv.
      * eexists. unfold allow. cbn. now rewrite Hv.
    + intros Hi fields Hm. unfold get_control_recommendation.
      rewrite Hi, Hm. cbn [negb]. split.
      * intros Ha. rewrite Ha. cbn.
        eexists (MkControlRecommendation _ _ _ _ _).
        cbn [cr_approved cr_confidence cr_reason].
        repeat split.
      * intros Ha. rewrite Ha. reflexivity.
    + intros Hi v Hm Hno. unfold get_control_recommendation.
      rewrite Hi, Hm. cbn [negb].
      destruct v; try reflexivity. now destruct (Hno fields).
Qed.

Lemma control_endpoint_cases_witness :
  control_endpoint (fun _ => None) loads_ref ready (fun _ => true)
                   well_typed_control mock_rows 7 (Some "p")
  = NotFound "Load 7 not found" /\
  (exists reason,
     control_endpoint (fun _ => None) loads_ref ready (fun _ => true)
                      well_typed_control mock_rows 3 (Some "p")
     = Ok (MkControlRecommendation (JBool true) (JStr reason) (JArr []) (JArr [])
             "0.9")) /\
  (exists r,
     control_endpoint (fun _ => Some "{}") loads_ref ready (fun _ => true)
                      well_typed_control mock_rows 3 (Some "p") = Ok r /\
     cr_approved r = JBool true /\ cr_confidence r = "0.7") /\
  control_endpoint (fun _ => Some "[]") loads_ref ready (fun _ => true)
                   well_typed_control mock_rows 3 (Some "p") = ServerError.
Proof.
  assert (Hv : forall r, well_typed_control r = true -> well_typed_control r = true)
    by (intros r H; exact H).
  assert (Hrow : is_Some (find_load mock_rows 3)) by (now eexists).
  split; [|split; [|split]].
  - refine (proj1 (control_endpoint_cases (fun _ => None) loads_ref ready
              (fun _ => true) well_typed_control mock_rows 7 (Some "p") Hv) _).
    reflexivity.
  - refine (proj1 (proj2 (control_endpoint_cases (fun _ => None) loads_ref
              ready (fun _ => true) well_typed_control mock_rows 3 (Some "p") Hv)
              Hrow) _).
    right. reflexivity.
  - assert (Hm : model_json (fun _ => Some "{}") loads_ref (Some "p")
                 = Some (JObj [])) by (vm_compute; reflexivity).
    destruct (proj1 (proj1 (proj2 (proj2 (control_endpoint_cases
                (fun _ => Some "{}") loads_ref ready (fun _ => true)
                well_typed_control mock_rows 3 (Some "p") Hv) Hrow))
                eq_refl [] Hm) eq_refl)
      as (r & Ha & Hc & Hr & Hans).
    exists r. split; [|split; [exact Ha|exact Hc]].
    destruct (well_typed_control r) eqn:Hw; [exact Hans|].
    exfalso. vm_compute in Hans. discriminate Hans.
  - refine (proj2 (proj2 (proj2 (control_endpoint_cases (fun _ => Some "[]")
              loads_ref ready (fun _ => true) well_typed_control mock_rows 3
              (Some "p") Hv) Hrow)) eq_refl (JArr []) _ _).
    + vm_compute. reflexivity.
    + discriminate.
Defined.

(** X22. The two structured analyses.  [analyze_anomalies] never fails:
    it returns its fallback report or a validated reading of the answer of
    the model.  [generate_energy_insights] has no working fallback: the
    fallback insight is built with an empty [highest_consumer], which the
    model refuses for its missing fields, and both places that build it
    are outside the [try].  So the method returns only a validated reading
    of an answer of the model, carrying the period it was asked for, and
    it raises in every other case: a service that is not initialized, no
    answer, an answer that is not a JSON object, or an object without the
    key [highest_consumer].  A result other than a fallback shows that the
    service was initialized, that the model answered the prompt with a
    text that is not empty, and that the text cleaned of its fence parsed
    to a JSON object. *)
Theorem structured_answers_validated
    (generate_content : string -> option string)
    (json_loads : string -> option json)
    (valid_anomaly : AnomalyReport -> bool)
    (valid_insight : EnergyInsight -> bool)
    (svc : service) (prompt : option string) (period : string) :
  let answered fields :=
    initialized svc = true /\
    exists p text cleaned,
      prompt = Some p /\ generate_content p = Some text /\ truthy text = true /\
      clean_fences text = Some cleaned /\
      json_loads cleaned = Some (JObj fields) in
  let report :=
    analyze_anomalies generate_content json_loads valid_anomaly svc prompt in
  let result :=
    generate_energy_insights generate_content json_loads valid_insight svc
      prompt period in
  (report = _generate_fallback_anomaly_report \/
   (valid_anomaly report = true /\ exists fields, answered fields)) /\
  _generate_fallback_energy_insight valid_insight period = None /\
  (forall insight, result = Some insight ->
   valid_insight insight = true /\
   highest_consumer_ok (highest_consumer insight) = true /\
   time_period insight = period /\
   exists fields,
     answered fields /\
     dict_get "highest_consumer" fields = Some (highest_consumer insight)) /\
  (initialized svc = false -> result = None) /\
  (forall fields,
     answered fields -> dict_get "highest_consumer" fields = None ->
     result = None).
Proof.
  cbv zeta. split; [|split; [reflexivity|split; [|split]]].
  - unfold analyze_anomalies, model_json.
    destruct (initialized svc); cbn [negb]; [|now left].
    destruct prompt as [p|]; cbn; [|now left].
    destruct (generate_content p) as [text|] eqn:Hg; cbn; [|now left].
    destruct (truthy text) eqn:Ht; [|now left].
    destruct (clean_fences text) as [cleaned|] eqn:Hc; cbn; [|now left].
    destruct (json_loads cleaned) as [data|] eqn:Hj; cbn; [|now left].
    destruct data as [|b|n|x|x|items|fields]; try (now left).
    unfold anomaly_of_json. cbn [get mbind option_bind].
    destruct (valid_anomaly _) eqn:Hv; [right|now left].
    split; [exact Hv|]. exists fields. split; [reflexivity|].
    now exists p, text, cleaned.
  - intros insight. unfold generate_energy_insights, model_json.
    rewrite fallback_energy_insight_raises.
    destruct (initialized svc); cbn [negb]; [|discriminate].
    destruct prompt as [p|]; cbn; [|discriminate].
    destruct (generate_content p) as [text|] eqn:Hg; cbn; [|discriminate].
    destruct (truthy text) eqn:Ht; [|discriminate].
    destruct (clean_fences text) as [cleaned|] eqn:Hc; cbn; [|discriminate].
    destruct (json_loads cleaned) as [data|] eqn:Hj; cbn; [|discriminate].
    destruct data as [|b|n|x|x|items|fields]; try discriminate.
    unfold insight_of_json, new_insight.
    cbn [get mbind option_bind highest_consumer].
    destruct (dict_get "highest_consumer" fields) as [hc|] eqn:Hhc;
      cbn [default from_option id]; [|discriminate].
    destruct (highest_consumer_ok hc) eqn:Hok; cbn [andb]; [|discriminate].
    destruct (valid_insight _) eqn:Hv; [|discriminate].
    intros [= <-]. cbn [highest_consumer time_period].
    split; [exact Hv|]. split; [exact Hok|]. split; [reflexivity|].
    exists fields. split; [|exact Hhc].
    split; [reflexivity|]. now exists p, text, cleaned.
  - intros Hi. unfold generate_energy_insights. now rewrite Hi.
  - intros fields (Hi & p & text & cleaned & -> & Hg & Ht & Hc & Hj) Hhc.
    unfold generate_energy_insights, model_json.
    rewrite fallback_energy_insight_raises, Hi. cbn [negb mbind option_bind].
    rewrite Hg. cbn [mbind option_bind]. rewrite Ht, Hc.
    cbn [mbind option_bind]. rewrite Hj.
    unfold insight_of_json, new_insight.
    cbn [get mbind option_bind highest_consumer]. now rewrite Hhc.
Qed.

End GatewayMoreFacts.

(** ** The analysis endpoints and the quick insights *)

Module AnalysisFacts.
Import PyText Context Agent Api.

Lemma find_load_first (rows : list load_row) (id : Z) :
  match find_load rows id with
  | Some row =>
      exists before after,
        rows = before ++ row :: after /\ load_id row = Some id /\
        forall x, x ∈ before -> load_id x <> Some id
  | None => forall x, x ∈ rows -> load_id x <> Some id
  end.
Proof.
  induction rows as [|row rows IH]; cbn [find_load].
  - intros x Hx. inversion Hx.
  - destruct (bool_decide (load_id row = Some id)) eqn:Hd.
    + apply bool_decide_eq_true_1 in Hd. exists [], rows.
      repeat split; [exact Hd|]. intros x Hx. inversion Hx.
    + apply bool_decide_eq_false_1 in Hd.
      destruct (find_load rows id) as [found|].
      * destruct IH as (before & after & -> & Hid & Hb).
        exists (row :: before), after. repeat split; [exact Hid|].
        intros x Hx. apply elem_of_cons in Hx as [->|Hx]; [exact Hd|now apply Hb].
      * intros x Hx. apply elem_of_cons in Hx as [->|Hx]; [exact Hd|now apply IH].
Qed.

(** X15. [analyze_load] answers 404 exactly when no load of the context
    has the identifier; otherwise it analyses the first load that has it.
    The two deductions exclude each other, so the health score is 100, 90 or
    80, inside the range the response model demands; there are as many
    recommendations as anomalies, and the score is 100 exactly when there is
    no anomaly. *)
Theorem analyze_load_score (rows : list load_row) (id : Z) :
  ((forall x, x ∈ rows -> load_id x <> Some id) ->
   analyze_load rows id = NotFound ("Load " +:+ str_of_Z id +:+ " not found")) /\
  ((exists x, x ∈ rows /\ load_id x = Some id) ->
   exists before row after analysis,
     rows = before ++ row :: after /\ load_id row = Some id /\
     (forall x, x ∈ before -> load_id x <> Some id) /\
     analyze_load rows id = Ok analysis /\
     current_power_w analysis = power (load_info row) /\
     (health_score analysis = 100 \/ health_score analysis = 90 \/
      health_score analysis = 80) /\
     length (anomalies analysis) = length (load_recommendations analysis) /\
     (health_score analysis = 100 <-> anomalies analysis = [])).
Proof.
  pose proof (find_load_first rows id) as Hf. split.
  - intros Hno. unfold analyze_load.
    destruct (find_load rows id) as [row|]; [|reflexivity].
    destruct Hf as (before & after & -> & Hid & _).
    destruct (Hno row); [|exact Hid].
    apply elem_of_app. right. left.
  - intros (x & Hx & Hxid). unfold analyze_load.
    destruct (find_load rows id) as [row|]; [|now destruct (Hf x Hx)].
    destruct Hf as (before & after & -> & Hid & Hb).
    exists before, row, after.
    destruct (Z.ltb_spec 100 (power (load_info row))) as [Hhigh|Hlow];
      destruct (is_on (load_info row));
      destruct (Z.eqb_spec (power (load_info row)) 0) as [Hz|Hnz];
      try lia; cbn [andb]; cbv iota beta zeta;
      eexists; (split; [reflexivity|]); (split; [exact Hid|]);
      (split; [exact Hb|]); (split; [reflexivity|]);
      cbn [current_power_w health_score anomalies load_recommendations];
      (split; [reflexivity|]);
      (split; [first [left; reflexivity | right; left; reflexivity
                     | right; right; reflexivity]|]);
      (split; [reflexivity|]); split; intros H; try discriminate H;
      try reflexivity.
Qed.

Lemma analyze_load_score_witness :
  analyze_load mock_rows 9 = NotFound "Load 9 not found" /\
  exists analysis,
    analyze_load (LoadRow (Some 3) (Load None true (Some 0)) :: mock_rows) 3
    = Ok analysis /\
    health_score analysis = 80 /\ load_name analysis = "Load 3".
Proof.
  split.
  - refine (proj1 (analyze_load_score mock_rows 9) _).
    intros x Hx. cbn in Hx.
    repeat (apply elem_of_cons in Hx as [->|Hx]; [discriminate|]). inversion Hx.
  - destruct (proj2 (analyze_load_score
                       (LoadRow (Some 3) (Load None true (Some 0)) :: mock_rows) 3))
      as (before & row & after & analysis & _ & _ & _ & Ha & _).
    + eexists. split; [left|reflexivity].
    + exists analysis. split; [exact Ha|].
      cbn in Ha. injection Ha as <-. split; reflexivity.
Defined.

Lemma filter_length_le {A : Type} (P : A -> Prop) `{forall x, Decision (P x)}
    (l : list A) : (length (filter P l) <= length l)%nat.
Proof.
  induction l as [|x l IH]; [reflexivity|].
  rewrite filter_cons. destruct (decide (P x)); cbn; lia.
Qed.

(** X16. The two health computations agree.  For every context, the status
    of [GET /analysis/system-health] is the status of the quick insights,
    its score is 40, 70 or 95 for [critical], [warning] and [healthy], and
    the metrics are those of the quick insights; in them the active loads
    are at most the loads and the critical alerts at most the alerts. *)
Theorem system_health_agrees (hour : Z) (ctx : context) :
  let h := get_system_health ctx in
  let q := get_quick_insights hour ctx in
  health_status h = status (insight_health q) /\
  health_metrics h = insight_metrics q /\
  (health_status h = "critical" /\ system_score h = 40 \/
   health_status h = "warning" /\ system_score h = 70 \/
   health_status h = "healthy" /\ system_score h = 95) /\
  (n_active_loads (insight_metrics q) <= total_loads (insight_metrics q))%nat /\
  (n_critical_alerts (insight_metrics q) <= active_alerts (insight_metrics q))%nat /\
  ((0 < n_critical_alerts (insight_metrics q))%nat
   <-> health_status h = "critical").
Proof.
  cbv zeta. unfold get_system_health, get_quick_insights, Agent.system_health.
  cbn [insight_health insight_metrics n_active_loads total_loads
       n_critical_alerts active_alerts].
  assert (Ha : (active_loads (loads ctx) <= length (loads ctx))%nat)
    by apply filter_length_le.
  assert (Hc : (critical_alerts (recentAlerts ctx) <= length (recentAlerts ctx))%nat)
    by apply filter_length_le.
  destruct (Nat.ltb_spec 0 (critical_alerts (recentAlerts ctx))) as [Hpos|Hzero].
  - cbn. repeat split; auto.
  - destruct (Nat.ltb_spec 3 (length (recentAlerts ctx))); cbn;
      repeat split; auto; try discriminate; lia.
Qed.

End AnalysisFacts.

(** ** More on the agent *)

Module AgentMoreFacts.
Import PyText Context Regex Agent AgentFacts.

Lemma take5_bounds {A : Type} (l : list A) :
  l <> [] -> (1 <= length (take 5 l) <= 5)%nat.
Proof.
  intros Hne. rewrite length_take. destruct l; [congruence|]. cbn [length]. lia.
Qed.

(** X17. The quick tips are never empty and never more than five.  The tips
    about loads that are on above 500 W come first, so that with five such
    loads or more the tips are the first five of them and neither the alerts
    nor the time of day are mentioned; with no such load, no alert and a
    time outside the peak and off-peak hours, the only tip is the default
    one. *)
Theorem quick_tips_bounded (hour : Z) (loads : list load) (alerts : list alert) :
  let tips := _generate_quick_tips hour loads alerts in
  let high := concat (map high_power_tip loads) in
  (1 <= length tips <= 5)%nat /\
  (5 <= length high -> tips = take 5 high)%nat /\
  (high = [] -> alerts = [] -> (6 <= hour < 9 \/ 17 < hour < 22) ->
   tips = [" All systems normal - no immediate actions required"]).
Proof.
  cbv zeta. unfold _generate_quick_tips.
  set (high := concat (map high_power_tip loads)).
  set (t1 := if Gateway.no_alerts alerts then high else _).
  set (t2 := if (9 <=? hour) && (hour <=? 17) then _ else _).
  assert (H1 : exists rest, t2 = high ++ rest).
  { assert (H0 : exists rest, t1 = high ++ rest).
    { unfold t1. destruct (Gateway.no_alerts alerts);
        [exists []; now rewrite app_nil_r|now eexists]. }
    destruct H0 as [r0 H0]. unfold t2.
    destruct ((9 <=? hour) && (hour <=? 17)); [|destruct ((22 <=? hour) || (hour <? 6))];
      rewrite H0, <- ?app_assoc; now eexists. }
  destruct H1 as [rest H1].
  split; [|split].
  - apply take5_bounds. destruct t2; discriminate.
  - intros Hlen. rewrite H1.
    destruct (high ++ rest) as [|x l] eqn:Happ.
    + destruct high; [cbn in Hlen; lia|discriminate Happ].
    + rewrite <- Happ. now apply take_app_le.
  - intros Hh -> Hhour. unfold t2, t1. rewrite Hh. cbn [Gateway.no_alerts].
    destruct (Z.leb_spec 9 hour), (Z.leb_spec hour 17), (Z.leb_spec 22 hour),
             (Z.ltb_spec hour 6); cbn; try reflexivity; lia.
Qed.

Lemma quick_tips_bounded_witness :
  _generate_quick_tips 20 [Load (Some "DC Fan") true (Some 45)] []
  = [" All systems normal - no immediate actions required"] /\
  _generate_quick_tips 12 (replicate 6 (Load (Some "AC Heater") true (Some 1500)))
                       [warn "w"]
  = replicate 5 " AC Heater is consuming significant power".
Proof.
  split.
  - refine (proj2 (proj2 (quick_tips_bounded 20
              [Load (Some "DC Fan") true (Some 45)] [])) eq_refl eq_refl _).
    lia.
  - refine (proj1 (proj2 (quick_tips_bounded 12
              (replicate 6 (Load (Some "AC Heater") true (Some 1500)))
              [warn "w"])) _).
    cbn. lia.
Defined.

Lemma lower_app (a b : string) : lower (a +:+ b) = lower a +:+ lower b.
Proof.
  unfold lower. induction a as [|c a IH]; simpl; [reflexivity|now rewrite IH].
Qed.

Lemma contains_app_r (x a b : string) :
  contains x b = true -> contains x (a +:+ b) = true.
Proof.
  intros H. induction a as [|c a IH]; simpl; [exact H|].
  rewrite IH. apply orb_true_r.
Qed.

Lemma enhanced_has_alert (r tail : string) :
  contains "alert"
    (lower (r +:+ Gateway.nl +:+ Gateway.nl +:+ "---" +:+ Gateway.nl
              +:+ "**Quick Alert Summary**: " +:+ tail)) = true.
Proof.
  rewrite lower_app. apply contains_app_r.
  change (lower (Gateway.nl +:+ Gateway.nl +:+ "---" +:+ Gateway.nl
                   +:+ "**Quick Alert Summary**: " +:+ tail))
    with (lower (Gateway.nl +:+ Gateway.nl +:+ "---" +:+ Gateway.nl +:+ "**Quick ")
            +:+ "alert" +:+ lower (" Summary**: " +:+ tail)).
  apply contains_app.
Qed.

Lemma prefix_refl (s : string) : String.prefix s s = true.
Proof.
  induction s as [|c s IH]; [reflexivity|].
  rewrite GatewayFacts.prefix_cons, IH. now rewrite Ascii.eqb_refl.
Qed.

(** X18. The enhancement of a response only appends to it, and it appends
    at most once: enhancing a response that was already enhanced for the
    same intent and context changes nothing.  For every intent other than
    [ALERTS] and [ENERGY] the response is returned as it is. *)
Theorem enhance_appends_once (response : string) (intent : QuestionIntent)
    (ctx : context) :
  String.prefix response (_enhance_response response intent ctx) = true /\
  _enhance_response (_enhance_response response intent ctx) intent ctx
  = _enhance_response response intent ctx /\
  (intent <> ALERTS -> intent <> ENERGY ->
   _enhance_response response intent ctx = response).
Proof.
  split; [|split].
  - unfold _enhance_response.
    repeat case_match; try apply prefix_app; apply prefix_refl.
  - destruct (bool_decide (intent = ALERTS)
              && negb (Gateway.no_alerts (recentAlerts ctx))
              && negb (contains "alert" (lower response))) eqn:C1.
    + assert (E1 : _enhance_response response intent ctx
                   = response +:+ Gateway.nl +:+ Gateway.nl +:+ "---" +:+ Gateway.nl
                       +:+ "**Quick Alert Summary**: "
                       +:+ str_of_nat (length (recentAlerts ctx))
                       +:+ " active alert(s)")
        by (unfold _enhance_response; now rewrite C1).
      rewrite E1. apply andb_true_iff in C1 as [C1 _].
      apply andb_true_iff in C1 as [C1 _].
      apply bool_decide_eq_true_1 in C1. subst intent.
      unfold _enhance_response. rewrite enhanced_has_alert.
      cbn [negb]. rewrite andb_false_r. reflexivity.
    + destruct (bool_decide (intent = ENERGY)
                && negb (contains (str_of_Z (total_power (loads ctx))) response))
        eqn:C2.
      * assert (E1 : _enhance_response response intent ctx
                     = response +:+ Gateway.nl +:+ Gateway.nl +:+ "---"
                         +:+ Gateway.nl +:+ "**Current Total Power**: "
                         +:+ str_of_Z (total_power (loads ctx)) +:+ "W")
          by (unfold _enhance_response; now rewrite C1, C2).
        rewrite E1. apply andb_true_iff in C2 as [C2 _].
        apply bool_decide_eq_true_1 in C2. subst intent.
        unfold _enhance_response.
        assert (Hin : contains (str_of_Z (total_power (loads ctx)))
                        (response +:+ Gateway.nl +:+ Gateway.nl +:+ "---"
                           +:+ Gateway.nl +:+ "**Current Total Power**: "
                           +:+ str_of_Z (total_power (loads ctx)) +:+ "W") = true).
        { rewrite <- !(GatewayFacts.append_assoc _ _
                         (str_of_Z (total_power (loads ctx)) +:+ "W")).
          apply contains_app. }
        rewrite Hin. cbn [negb]. rewrite andb_false_r. reflexivity.
      * assert (E1 : _enhance_response response intent ctx = response)
          by (unfold _enhance_response; now rewrite C1, C2).
        rewrite E1. exact E1.
  - intros Ha He. unfold _enhance_response.
    rewrite (bool_decide_eq_false_2 _ Ha), (bool_decide_eq_false_2 _ He).
    reflexivity.
Qed.

Lemma enhance_appends_once_witness :
  _enhance_response "All good." STATUS quiet = "All good.".
Proof.
  refine (proj2 (proj2 (enhance_appends_once "All good." STATUS quiet)) _ _);
    discriminate.
Defined.

Lemma lower_char_upper (c : ascii) : lower_char (upper_char c) = lower_char c.
Proof. destruct c as [[] [] [] [] [] [] [] []]; reflexivity. Qed.

Lemma lower_char_idem (c : ascii) : lower_char (lower_char c) = lower_char c.
Proof. destruct c as [[] [] [] [] [] [] [] []]; reflexivity. Qed.

Lemma lower_upper (s : string) : lower (upper s) = lower s.
Proof.
  unfold lower, upper. induction s as [|c s IH]; simpl; [reflexivity|].
  now rewrite IH, lower_char_upper.
Qed.

Lemma lower_idem (s : string) : lower (lower s) = lower s.
Proof.
  unfold lower. induction s as [|c s IH]; simpl; [reflexivity|].
  now rewrite IH, lower_char_idem.
Qed.

Lemma is_ascii_upper_char (c : ascii) : is_ascii (upper_char c) = is_ascii c.
Proof. destruct c as [[] [] [] [] [] [] [] []]; reflexivity. Qed.

Lemma is_ascii_lower_char (c : ascii) : is_ascii (lower_char c) = is_ascii c.
Proof. destruct c as [[] [] [] [] [] [] [] []]; reflexivity. Qed.

Lemma ascii_text_upper (s : string) : ascii_text (upper s) = ascii_text s.
Proof.
  unfold upper. induction s as [|c s IH]; [reflexivity|].
  cbn [map_chars ascii_text]. now rewrite is_ascii_upper_char, IH.
Qed.

Lemma ascii_text_lower (s : string) : ascii_text (lower s) = ascii_text s.
Proof.
  unfold lower. induction s as [|c s IH]; [reflexivity|].
  cbn [map_chars ascii_text]. now rewrite is_ascii_lower_char, IH.
Qed.

(** X19. On ASCII text the analysis of a message does not look at the case
    of its letters: the upper-case form and the lower-case form of an ASCII
    message are ASCII messages, and each of them has the intent, the
    entities, the follow-up flag and the fallback response of the message
    itself. *)
Theorem analysis_ignores_case (m : string) (ctx : context) :
  ascii_text m = true ->
  ascii_text (upper m) = true /\ ascii_text (lower m) = true /\
  (detect_intent (upper m) = detect_intent m /\
   extract_entities (upper m) = extract_entities m /\
   is_follow_up (upper m) = is_follow_up m /\
   Gateway._generate_fallback_response (upper m) ctx
   = Gateway._generate_fallback_response m ctx) /\
  (detect_intent (lower m) = detect_intent m /\
   extract_entities (lower m) = extract_entities m /\
   is_follow_up (lower m) = is_follow_up m /\
   Gateway._generate_fallback_response (lower m) ctx
   = Gateway._generate_fallback_response m ctx).
Proof.
  intros Hm.
  assert (H : forall a b, lower a = lower b ->
            detect_intent a = detect_intent b /\
            extract_entities a = extract_entities b /\
            is_follow_up a = is_follow_up b /\
            Gateway._generate_fallback_response a ctx
            = Gateway._generate_fallback_response b ctx).
  { intros a b Hab.
    unfold detect_intent, extract_entities, is_follow_up,
      Gateway._generate_fallback_response.
    now rewrite Hab. }
  split; [now rewrite ascii_text_upper|].
  split; [now rewrite ascii_text_lower|].
  split; [exact (H (upper m) m (lower_upper m))|].
  exact (H (lower m) m (lower_idem m)).
Qed.

Lemma analysis_ignores_case_witness :
  detect_intent "TURN ON THE HEATER" = detect_intent "Turn ON the Heater" /\
  extract_entities "TURN ON THE HEATER" = extract_entities "Turn ON the Heater".
Proof.
  destruct (analysis_ignores_case "Turn ON the Heater" quiet eq_refl)
    as (_ & _ & (H1 & H2 & _) & _).
  split; assumption.
Defined.

End AgentMoreFacts.

(** ** The matcher against what a pattern matches *)

Module RegexFacts.
Import PyText Regex RegexSem.

(** Every match the matcher finds is a match of the pattern, and the
    continuation was run at its end. *)
Lemma run_sound (icase : bool) (r : regex) : forall st k res,
  run icase r st k = Some res ->
  exists st', matches icase r st st' /\ k st' = Some res.
Proof.
  induction r as [c| | | | |r1 IH1 r2 IH2|r1 IH1 r2 IH2|r IH|r IH|n r IH];
    intros st k res H.
  - cbn [run] in H. destruct (step_char (char_eq icase c) st) as [st'|] eqn:Hs;
      [|discriminate]. exists st'. split; [now constructor|exact H].
  - cbn [run] in H. destruct (step_char is_digit st) as [st'|] eqn:Hs;
      [|discriminate]. exists st'. split; [now constructor|exact H].
  - cbn [run] in H. destruct (step_char is_space st) as [st'|] eqn:Hs;
      [|discriminate]. exists st'. split; [now constructor|exact H].
  - cbn [run] in H. destruct (at_boundary st) eqn:Hb; [|discriminate].
    exists st. split; [now constructor|exact H].
  - exists st. split; [constructor|exact H].
  - cbn [run] in H. apply IH1 in H as (st1 & M1 & H).
    apply IH2 in H as (st2 & M2 & H).
    exists st2. split; [now apply MSeq with st1|exact H].
  - cbn [run] in H. destruct (run icase r1 st k) as [res'|] eqn:H1.
    + injection H as ->. apply IH1 in H1 as (st' & M & Hk).
      exists st'. split; [now apply MAltL|exact Hk].
    + apply IH2 in H as (st' & M & Hk).
      exists st'. split; [now apply MAltR|exact Hk].
  - cbn [run] in H. revert H. generalize (String.length (rest st)) as n.
    intros n. revert st. induction n as [|n IHn]; intros st H.
    + exists st. split; [constructor|exact H].
    + cbn -[advanced] in H.
      destruct (run icase r st _) as [res'|] eqn:Hr.
      * injection H as ->.
        apply IH in Hr as (st1 & M1 & Hk). cbv beta in Hk.
        destruct (advanced st st1); [|discriminate].
        apply IHn in Hk as (st2 & M2 & Hk).
        exists st2. split; [now apply MStarCons with st1|exact Hk].
      * exists st. split; [constructor|exact H].
  - cbn [run] in H. destruct (run icase r st k) as [res'|] eqn:H1.
    + injection H as ->. apply IH in H1 as (st' & M & Hk).
      exists st'. split; [now apply MOptSome|exact Hk].
    + exists st. split; [apply MOptNone|exact H].
  - cbn [run] in H. apply IH in H as (st' & M & Hk).
    exists (close_group n st st'). split; [now constructor|exact Hk].
Qed.

Lemma step_char_rest (f : ascii -> bool) (st st' : mstate) :
  step_char f st = Some st' ->
  exists c, rest st = String c (rest st') /\ f c = true /\ caps st' = caps st.
Proof.
  unfold step_char. destruct (rest st) as [|c t]; [discriminate|].
  destruct (f c) eqn:Hf; [|discriminate]. intros [= <-]. now exists c.
Qed.

(** A match passes over a piece of the text. *)
Lemma matches_rest (icase : bool) (r : regex) (st st' : mstate) :
  matches icase r st st' -> exists x, rest st = x +:+ rest st'.
Proof.
  induction 1 as [c st st' H|st st' H|st st' H|st H|st
                 |r1 r2 st st1 st2 _ [x1 H1] _ [x2 H2]
                 |r1 r2 st st' _ IH|r1 r2 st st' _ IH
                 |r st|r st st1 st2 _ [x1 H1] _ [x2 H2]
                 |r st st' _ IH|r st|n r st st' _ IH];
    try (now exists EmptyString); try exact IH;
    try (apply step_char_rest in H as (c' & H & _); exists (String c' EmptyString);
         exact H);
    try (exists (x1 +:+ x2); rewrite H1, H2;
         now rewrite GatewayFacts.append_assoc).
Qed.

(** A match leaves the groups the pattern does not have as they were. *)
Lemma matches_caps (icase : bool) (n : nat) (r : regex) (st st' : mstate) :
  matches icase r st st' -> has_group n r = false -> caps st' !! n = caps st !! n.
Proof.
  induction 1 as [c st st' H|st st' H|st st' H|st H|st
                 |r1 r2 st st1 st2 _ IH1 _ IH2
                 |r1 r2 st st' _ IH|r1 r2 st st' _ IH
                 |r st|r st st1 st2 _ IH1 _ IH2
                 |r st st' _ IH|r st|m r st st' _ IH];
    cbn [has_group]; intros Hg; try reflexivity;
    try (apply step_char_rest in H as (c' & _ & _ & H); now rewrite H);
    try (apply orb_false_iff in Hg as [Hg1 Hg2]).
  - now rewrite IH2, IH1.
  - now apply IH.
  - now apply IH.
  - rewrite IH2, IH1 by exact Hg. reflexivity.
  - now apply IH.
  - cbn [close_group caps]. apply Nat.eqb_neq in Hg1.
    rewrite lookup_insert_ne by exact Hg1. now apply IH.
Qed.

End RegexFacts.

(** ** Keywords and entities through the matcher *)

Module EntityFacts.
Import PyText Regex RegexSem RegexFacts Agent AgentFacts.

Lemma char_eq_lower (icase : bool) (c a : ascii) :
  char_eq icase c a = true ->
  lower_char a = lower_char c /\ (icase = false -> a = c).
Proof.
  unfold char_eq. destruct icase.
  - intros H. apply Ascii.eqb_eq in H. split; [now symmetry|discriminate].
  - intros H. apply Ascii.eqb_eq in H. subst. now split.
Qed.

(** A literal passes over a text of its length that equals it up to the
    case of the letters, and exactly without the flag. *)
Lemma matches_lit (icase : bool) (w : string) : forall st st',
  matches icase (lit w) st st' ->
  exists x, rest st = x +:+ rest st' /\ caps st' = caps st /\
            lower x = lower w /\ (icase = false -> x = w).
Proof.
  induction w as [|c w IH]; intros st st' H.
  - inversion H; subst. now exists EmptyString.
  - cbn [lit] in H. inversion H as [| | | | |? ? ? st1 ? H1 H2| | | | | | |]; subst.
    inversion H1 as [? ? ? Hs| | | | | | | | | | | |]; subst.
    apply step_char_rest in Hs as (a & Hr & Ha & Hc).
    apply char_eq_lower in Ha as [Hl He].
    destruct (IH _ _ H2) as (x & Hx & Hcx & Hlx & Hex).
    exists (String a x). rewrite Hr, Hx. repeat split.
    + congruence.
    + unfold lower in *. cbn. now rewrite Hl, Hlx.
    + intros Hi. now rewrite (He Hi), (Hex Hi).
Qed.

Lemma matches_alts_lit (icase : bool) (ws : list string) : forall st st',
  ws <> [] -> matches icase (alts (map lit ws)) st st' ->
  exists w, w ∈ ws /\ matches icase (lit w) st st'.
Proof.
  induction ws as [|w ws IH]; intros st st' Hne H; [congruence|].
  destruct ws as [|w2 ws].
  - exists w. split; [left|exact H].
  - cbn [map alts] in H.
    inversion H as [| | | | | |? ? ? ? HL|? ? ? ? HR| | | | |]; subst.
    + exists w. split; [left|exact HL].
    + destruct (IH st st' ltac:(discriminate) HR) as (w' & Hin & Hm).
      exists w'. split; [now right|exact Hm].
Qed.

Lemma whole_word_here (kw : string) (p : option ascii) (s : string) (res : mstate) :
  match_here false (whole_word kw) p s = Some res -> String.prefix kw s = true.
Proof.
  unfold match_here, whole_word. intros H.
  apply run_sound in H as (st' & M & _).
  inversion M as [| | | | |? ? ? st1 ? M1 M2| | | | | | |]; subst.
  inversion M1; subst.
  inversion M2 as [| | | | |? ? ? st2 ? M3 M4| | | | | | |]; subst.
  apply matches_lit in M3 as (x & Hx & _ & _ & He).
  cbn [rest] in Hx. rewrite Hx, (He eq_refl). apply prefix_app.
Qed.

Lemma whole_word_contains (kw m : string) :
  search false (whole_word kw) m = true -> contains kw m = true.
Proof.
  unfold search. intros H. apply bool_decide_eq_true_1 in H as [found H].
  revert H. generalize (@None ascii) as p.
  induction m as [|c m IH]; intros p H; cbn [search_from] in H.
  - destruct (match_here false (whole_word kw) p EmptyString) eqn:Hm;
      [|discriminate].
    apply GatewayFacts.contains_prefix. now apply whole_word_here in Hm.
  - destruct (match_here false (whole_word kw) p (String c m)) eqn:Hm.
    + apply GatewayFacts.contains_prefix. now apply whole_word_here in Hm.
    + cbn [contains]. rewrite (IH _ H). apply orb_true_r.
Qed.

Lemma filter_length_impl {A : Type} (P Q : A -> Prop)
    `{forall x, Decision (P x)} `{forall x, Decision (Q x)} (l : list A) :
  (forall x, P x -> Q x) -> (length (filter P l) <= length (filter Q l))%nat.
Proof.
  intros Himp. induction l as [|x l IH]; [reflexivity|].
  rewrite !filter_cons. destruct (decide (P x)) as [Hp|Hp].
  - rewrite decide_True by now apply Himp. cbn. lia.
  - destruct (decide (Q x)); cbn; lia.
Qed.

Lemma score_zero (m : string) (kws : list string) :
  intent_score m kws = O <-> forall kw, kw ∈ kws -> contains kw m = false.
Proof.
  rewrite intent_score_counts.
  assert (Hle : (whole_word_count m kws <= substring_count m kws)%nat).
  { apply filter_length_impl. intros kw. apply whole_word_contains. }
  unfold substring_count in *. split.
  - intros H kw Hin. destruct (contains kw m) eqn:Hc; [|reflexivity].
    assert (Hk : kw ∈ filter (fun k => contains k m = true) kws)
      by (apply list_elem_of_filter; now split).
    destruct (filter (fun k => contains k m = true) kws); [inversion Hk|].
    cbn in H. lia.
  - intros H.
    assert (Hnil : filter (fun k => contains k m = true) kws = []).
    { destruct (filter (fun k => contains k m = true) kws) as [|k l] eqn:Hf;
        [reflexivity|].
      assert (Hk : k ∈ filter (fun k => contains k m = true) kws)
        by (rewrite Hf; left).
      apply list_elem_of_filter in Hk as [Hc Hin]. rewrite (H k Hin) in Hc.
      discriminate. }
    rewrite Hnil in *. cbn in *. lia.
Qed.

Lemma scores_entries (m : string) (i : QuestionIntent) (s : nat) :
  (i, s) ∈ intent_scores m <->
  exists kws, (i, kws) ∈ intent_keywords /\ s = intent_score m kws.
Proof.
  unfold intent_scores. rewrite list_elem_of_In, in_map_iff. split.
  - intros ([j kws] & [= <- <-] & Hin). exists kws.
    split; [now apply list_elem_of_In|reflexivity].
  - intros (kws & Hin & ->). exists (i, kws).
    split; [reflexivity|now apply list_elem_of_In].
Qed.

Lemma declared_not_general (kws : list string) :
  (GENERAL, kws) ∈ intent_keywords -> False.
Proof.
  unfold intent_keywords. intros H.
  repeat (apply elem_of_cons in H as [H|H]; [discriminate H|]).
  inversion H.
Qed.

(** X20. A keyword found as a whole word is also contained in the message,
    so that a keyword brings 0, 1 or 3 to the score of its category and the
    score is between the number of the keywords contained and three times
    that number.  The intent is [GENERAL] exactly when the lower-cased
    message contains no keyword of any category. *)
Theorem general_iff_no_keyword (message : string) :
  (forall kws,
     (whole_word_count (lower message) kws
      <= substring_count (lower message) kws)%nat /\
     (substring_count (lower message) kws
      <= intent_score (lower message) kws
      <= 3 * substring_count (lower message) kws)%nat) /\
  (detect_intent message = GENERAL <->
   forall intent kws kw,
     (intent, kws) ∈ intent_keywords -> kw ∈ kws ->
     contains kw (lower message) = false).
Proof.
  split.
  - intros kws.
    assert (Hle : (whole_word_count (lower message) kws
                   <= substring_count (lower message) kws)%nat).
    { apply filter_length_impl. intros kw. apply whole_word_contains. }
    rewrite intent_score_counts. lia.
  - unfold detect_intent.
    destruct (intent_scores (lower message)) as [|first others] eqn:Hs.
    { unfold intent_scores, intent_keywords in Hs. discriminate Hs. }
    destruct (max_by_first_max snd others first) as (k & Hk & Hmax & _).
    destruct (max_by snd first others) as [winner top] eqn:Hw.
    cbn [fst snd] in *.
    assert (Hin : (winner, top) ∈ intent_scores (lower message)).
    { rewrite Hs. apply list_elem_of_lookup. now exists k. }
    apply scores_entries in Hin as (wkws & Hwin & Htop).
    split.
    + intros Hg intent kws kw Hi Hkw.
      destruct (Nat.ltb_spec 0 top) as [Hpos|Hzero].
      { subst winner. now destruct (declared_not_general wkws). }
      assert (Hsc : (intent, intent_score (lower message) kws)
                    ∈ first :: others).
      { rewrite <- Hs. apply scores_entries. now exists kws. }
      apply Hmax in Hsc. cbn [snd] in Hsc.
      apply (proj1 (score_zero (lower message) kws)); [lia|exact Hkw].
    + intros Hno.
      assert (Hz : top = O).
      { rewrite Htop. apply score_zero. intros kw. now apply (Hno winner). }
      now rewrite Hz.
Qed.

Example keyword_score_examples :
  detect_intent "Good morning, friends" = GENERAL /\
  intent_score "consumption" ["on"] = 1%nat /\
  intent_score "turn it on" ["on"] = 3%nat.
Proof. repeat split; vm_compute; reflexivity. Qed.

(** *** The values of the entities *)

Lemma matches_seq_inv (icase : bool) (r1 r2 : regex) (st st' : mstate) :
  matches icase (RSeq r1 r2) st st' ->
  exists st1, matches icase r1 st st1 /\ matches icase r2 st1 st'.
Proof. inversion 1; subst; eauto. Qed.

Lemma matches_alt_inv (icase : bool) (r1 r2 : regex) (st st' : mstate) :
  matches icase (RAlt r1 r2) st st' ->
  matches icase r1 st st' \/ matches icase r2 st st'.
Proof. inversion 1; subst; eauto. Qed.

Lemma matches_opt_inv (icase : bool) (r : regex) (st st' : mstate) :
  matches icase (ROpt r) st st' -> matches icase r st st' \/ st' = st.
Proof. inversion 1; subst; eauto. Qed.

Lemma matches_group_inv (icase : bool) (n : nat) (r : regex) (st st' : mstate) :
  matches icase (RGroup n r) st st' ->
  exists st1, matches icase r st st1 /\ st' = close_group n st st1.
Proof. inversion 1; subst; eauto. Qed.

Lemma matches_bound_inv (icase : bool) (st st' : mstate) :
  matches icase RBound st st' -> st' = st.
Proof. inversion 1; subst; eauto. Qed.

Lemma matches_char_inv (icase : bool) (c : ascii) (st st' : mstate) :
  matches icase (RChar c) st st' -> step_char (char_eq icase c) st = Some st'.
Proof. inversion 1; subst; eauto. Qed.

Lemma matches_digit_inv (icase : bool) (st st' : mstate) :
  matches icase RDigit st st' -> step_char is_digit st = Some st'.
Proof. inversion 1; subst; eauto. Qed.

Lemma lower_length (s : string) : String.length (lower s) = String.length s.
Proof.
  unfold lower. induction s as [|c s IH]; cbn; [reflexivity|now rewrite IH].
Qed.

Lemma append_inv_length (a : string) : forall a' b b',
  a +:+ b = a' +:+ b' -> String.length a = String.length a' ->
  a = a' /\ b = b'.
Proof.
  induction a as [|c a IH]; intros [|c' a'] b b' H Hl; cbn in *;
    try discriminate; [now split|].
  injection H as -> H. destruct (IH a' b b' H ltac:(lia)) as [-> ->].
  now split.
Qed.

Lemma lower_split (x t : string) :
  lower (x +:+ t) = x +:+ t -> lower x = x /\ lower t = t.
Proof.
  rewrite AgentMoreFacts.lower_app. intros H.
  apply append_inv_length in H; [exact H|apply lower_length].
Qed.

Lemma consumed_app (x t : string) : consumed (x +:+ t) t = x.
Proof.
  unfold consumed. rewrite append_length.
  replace (String.length x + String.length t - String.length t)%nat
    with (String.length x) by lia.
  apply ApiFacts.take_chars_app.
Qed.

(** In a lower-cased text a literal written in lower case passes over
    itself. *)
Lemma matches_lit_lower (w : string) (st st' : mstate) :
  matches true (lit w) st st' -> lower w = w -> lower (rest st) = rest st ->
  rest st = w +:+ rest st' /\ caps st' = caps st /\ lower (rest st') = rest st'.
Proof.
  intros M Hw Hs. apply matches_lit in M as (x & Hx & Hc & Hl & _).
  rewrite Hx in Hs. apply lower_split in Hs as [Hlx Ht].
  rewrite Hx. repeat split; [congruence|exact Hc|exact Ht].
Qed.

Lemma ngroups_lit (w : string) : ngroups (lit w) = O.
Proof. induction w as [|c w IH]; cbn; [reflexivity|exact IH]. Qed.

Lemma ngroups_alts_lit (ws : list string) : ngroups (alts (map lit ws)) = O.
Proof.
  induction ws as [|w ws IH]; [reflexivity|].
  destruct ws as [|w2 ws]; [apply ngroups_lit|].
  cbn [map alts ngroups] in *. now rewrite ngroups_lit, IH.
Qed.

(** A match of a word pattern in a lower-cased text gives one of its
    words. *)
Lemma word_here (ws : list string) (p : option ascii) (s : string) (res : mstate) :
  ws <> [] -> Forall (fun w => lower w = w) ws -> lower s = s ->
  match_here true (word_of 1 ws) p s = Some res ->
  exists w, w ∈ ws /\ found_of (word_of 1 ws) s res = FStr w.
Proof.
  intros Hne Hws Hs H. unfold match_here in H.
  apply run_sound in H as (st' & M & [= <-]).
  unfold word_of in M.
  apply matches_seq_inv in M as (st1 & M1 & M).
  apply matches_bound_inv in M1 as ->.
  apply matches_seq_inv in M as (st2 & M2 & M3).
  apply matches_bound_inv in M3 as ->.
  apply matches_group_inv in M2 as (st3 & M2 & ->).
  apply matches_alts_lit in M2 as (w & Hin & M2); [|exact Hne].
  apply matches_lit_lower in M2 as (Hr & _ & _);
    [|exact (proj1 (Forall_forall _ _) Hws w Hin)|exact Hs].
  cbn [rest] in Hr. exists w. split; [exact Hin|].
  unfold found_of, word_of. cbn [ngroups]. rewrite ngroups_alts_lit.
  cbn [Nat.max]. f_equal. unfold group, close_group. cbn [caps rest].
  rewrite lookup_insert_eq. cbn. rewrite Hr. apply consumed_app.
Qed.

Lemma plus_digit (st st' : mstate) :
  matches true (plus RDigit) st st' ->
  exists d y, rest st = String d y +:+ rest st' /\ is_digit d = true.
Proof.
  unfold plus. intros M. apply matches_seq_inv in M as (st1 & M1 & M2).
  apply matches_digit_inv, step_char_rest in M1 as (d & Hr & Hd & _).
  apply matches_rest in M2 as [y Hy].
  exists d, y. split; [|exact Hd]. now rewrite Hr, Hy.
Qed.

Lemma matches_unit (st st' : mstate) :
  matches true
    (alts [lit "w"; lit "kw"; lit "kwh";
           RSeq (lit "watt") (ROpt (RChar "s"));
           RSeq (lit "kilowatt") (ROpt (RChar "s"))]) st st' ->
  lower (rest st) = rest st ->
  exists w, w ∈ units /\ rest st = w +:+ rest st'.
Proof.
  intros M Hs. cbn [alts] in M.
  assert (Hopt : forall w st1,
    lower w = w -> matches true (lit w) st st1 ->
    matches true (ROpt (RChar "s")) st1 st' ->
    rest st = w +:+ rest st' \/ rest st = (w +:+ "s") +:+ rest st').
  { intros w st1 Hw M1 M2.
    apply matches_lit_lower in M1 as (Hr & _ & Hl1); [|exact Hw|exact Hs].
    apply matches_opt_inv in M2 as [M2| ->]; [|now left].
    apply matches_char_inv, step_char_rest in M2 as (a & Hr1 & Ha & _).
    apply char_eq_lower in Ha as [Ha _].
    rewrite Hr1 in Hl1. change (String a (rest st')) with ("" +:+ String a (rest st')) in Hl1.
    assert (Hla : lower_char a = a).
    { unfold lower in Hl1. cbn in Hl1. now injection Hl1. }
    assert (Hsa : a = "s"%char) by (rewrite <- Hla, Ha; reflexivity).
    right. rewrite Hr, Hr1, Hsa, GatewayFacts.append_assoc. reflexivity. }
  unfold units.
  apply matches_alt_inv in M as [M|M].
  { apply matches_lit_lower in M as (Hr & _ & _); [|reflexivity|exact Hs].
    exists "w". split; [repeat constructor|exact Hr]. }
  apply matches_alt_inv in M as [M|M].
  { apply matches_lit_lower in M as (Hr & _ & _); [|reflexivity|exact Hs].
    exists "kw". split; [repeat constructor|exact Hr]. }
  apply matches_alt_inv in M as [M|M].
  { apply matches_lit_lower in M as (Hr & _ & _); [|reflexivity|exact Hs].
    exists "kwh". split; [repeat constructor|exact Hr]. }
  apply matches_alt_inv in M as [M|M];
    apply matches_seq_inv in M as (st1 & M1 & M2).
  - destruct (Hopt "watt" st1 eq_refl M1 M2) as [Hr|Hr].
    + exists "watt". split; [repeat constructor|exact Hr].
    + exists "watts". split; [repeat constructor|exact Hr].
  - destruct (Hopt "kilowatt" st1 eq_refl M1 M2) as [Hr|Hr].
    + exists "kilowatt". split; [repeat constructor|exact Hr].
    + exists "kilowatts". split; [repeat constructor|exact Hr].
Qed.

(** A match of the number pattern in a lower-cased text gives a first
    group that starts with a digit and a second group that is empty or a
    unit. *)
Lemma number_here (p : option ascii) (s : string) (res : mstate) :
  lower s = s -> match_here true number_pattern p s = Some res ->
  exists d y g2,
    found_of number_pattern s res = FTuple [String d y; g2] /\
    is_digit d = true /\ (g2 = EmptyString \/ g2 ∈ units).
Proof.
  intros Hs H. unfold match_here in H.
  apply run_sound in H as (st' & M & [= <-]).
  unfold number_pattern in M.
  apply matches_seq_inv in M as (st1 & M1 & M).
  apply matches_bound_inv in M1 as ->.
  apply matches_seq_inv in M as (st2 & M2 & M).
  apply matches_group_inv in M2 as (st3 & M2 & ->).
  apply matches_seq_inv in M as (st4 & M3 & M).
  apply matches_seq_inv in M as (st5 & M4 & M5).
  apply matches_bound_inv in M5 as ->.
  (* the first group *)
  assert (H1 : exists d y, consumed s (rest st3) = String d y
                           /\ is_digit d = true /\ lower (rest st3) = rest st3).
  { apply matches_seq_inv in M2 as (sa & Ma & Mb).
    apply plus_digit in Ma as (d & y & Hr & Hd).
    apply matches_rest in Mb as [z Hz]. cbn [rest] in Hr.
    exists d, (y +:+ z). rewrite Hz in Hr.
    assert (Hr' : s = String d (y +:+ z) +:+ rest st3).
    { rewrite Hr. cbn [String.append]. now rewrite GatewayFacts.append_assoc. }
    split; [|split; [exact Hd|]].
    - rewrite Hr' at 1. apply consumed_app.
    - rewrite Hr' in Hs. now apply lower_split in Hs. }
  destruct H1 as (d & y & Hg1 & Hd & Hl3).
  assert (Hc3 : caps (close_group 1 (MState p s ∅) st3) !! 1%nat
                = Some (String d y)).
  { unfold close_group. cbn [caps rest]. rewrite lookup_insert_eq.
    now rewrite Hg1. }
  assert (Hc3' : caps (close_group 1 (MState p s ∅) st3) !! 2%nat
                 = caps st3 !! 2%nat).
  { unfold close_group. cbn [caps]. now rewrite lookup_insert_ne by lia. }
  assert (Hc32 : caps st3 !! 2%nat = None).
  { rewrite (matches_caps _ 2 _ _ _ M2 eq_refl). reflexivity. }
  pose proof (matches_caps _ 1 _ _ _ M3 eq_refl) as Hc41.
  pose proof (matches_caps _ 2 _ _ _ M3 eq_refl) as Hc42.
  assert (Hl4 : lower (rest st4) = rest st4).
  { apply matches_rest in M3 as [z Hz]. cbn [rest close_group] in Hz.
    rewrite Hz in Hl3. now apply lower_split in Hl3. }
  exists d, y, (group st5 2).
  unfold found_of. change (ngroups number_pattern) with 2%nat.
  cbn [seq map].
  assert (G1 : group st5 1 = String d y).
  { unfold group.
    apply matches_opt_inv in M4 as [M4| ->].
    - apply matches_group_inv in M4 as (st6 & M4 & ->).
      unfold close_group at 1. cbn [caps]. rewrite lookup_insert_ne by lia.
      rewrite (matches_caps _ 1 _ _ _ M4 eq_refl), Hc41, Hc3. reflexivity.
    - rewrite Hc41, Hc3. reflexivity. }
  rewrite G1. split; [reflexivity|]. split; [exact Hd|].
  unfold group.
  apply matches_opt_inv in M4 as [M4| ->].
  - right. apply matches_group_inv in M4 as (st6 & M4 & ->).
    unfold close_group at 1. cbn [caps rest]. rewrite lookup_insert_eq. cbn.
    apply matches_unit in M4 as (w & Hw & Hr); [|exact Hl4].
    rewrite Hr, consumed_app. exact Hw.
  - left. now rewrite Hc42, Hc3', Hc32.
Qed.

(** Every element of [findall] comes from a match at a position of the
    text. *)
Lemma findall_from_all (icase : bool) (r : regex) (P : found -> Prop)
    (Q : string -> Prop) :
  (forall c t, Q (String c t) -> Q t) ->
  (forall p s st, Q s -> match_here icase r p s = Some st -> P (found_of r s st)) ->
  forall s skip p, Q s -> Forall P (findall_from icase r skip p s).
Proof.
  intros Htail Hhere. induction s as [|c t IH]; intros skip p Hq.
  - destruct skip; cbn [findall_from]; [|constructor].
    destruct (match_here icase r p EmptyString) eqn:Hm; [|constructor].
    constructor; [now apply (Hhere p)|constructor].
  - destruct skip; cbn [findall_from].
    + destruct (match_here icase r p (String c t)) eqn:Hm.
      * constructor; [now apply (Hhere p)|]. apply IH. now apply (Htail c).
      * apply IH. now apply (Htail c).
    + apply IH. now apply (Htail c).
Qed.

Lemma lower_tail (c : ascii) (t : string) :
  lower (String c t) = String c t -> lower t = t.
Proof. unfold lower. cbn. now intros [= _ H]. Qed.

Lemma flattened_all (P : found -> Prop) (R : string -> Prop) (ms : list found) :
  (forall m, P m -> flatten_found m <> [] /\ Forall R (flatten_found m)) ->
  Forall P ms -> ms <> [] ->
  flattened ms <> [] /\ Forall R (flattened ms).
Proof.
  intros Hm Hall Hne. unfold flattened. split.
  - destruct ms as [|m ms]; [congruence|]. cbn.
    apply Forall_cons in Hall as [Hp _].
    destruct (Hm m Hp) as [Hn _]. destruct (flatten_found m); [congruence|].
    discriminate.
  - clear Hne. induction Hall as [|m ms Hp _ IH]; cbn; [constructor|].
    apply Forall_app. split; [apply (Hm m Hp)|exact IH].
Qed.

Lemma word_values (ws : list string) (message : string) (m : found)
    (ms : list found) :
  ws <> [] -> Forall (fun w => lower w = w) ws ->
  findall true (word_of 1 ws) (lower message) = m :: ms ->
  flattened (m :: ms) <> [] /\ Forall (fun v => v ∈ ws) (flattened (m :: ms)).
Proof.
  intros Hne Hws Hf.
  apply (flattened_all (fun m => exists w, w ∈ ws /\ m = FStr w)).
  - intros ? (w & Hin & ->). cbn. split; [discriminate|].
    constructor; [exact Hin|constructor].
  - rewrite <- Hf. unfold findall.
    apply (findall_from_all _ _ _ (fun s => lower s = s)).
    + exact lower_tail.
    + intros p s st Hs Hm. now apply (word_here ws p s st).
    + apply AgentMoreFacts.lower_idem.
  - discriminate.
Qed.

Lemma number_values (message : string) (m : found) (ms : list found) :
  findall true number_pattern (lower message) = m :: ms ->
  flattened (m :: ms) <> [] /\ Forall number_or_unit (flattened (m :: ms)).
Proof.
  intros Hf.
  apply (flattened_all (fun m => exists d y g2,
           m = FTuple [String d y; g2] /\ is_digit d = true
           /\ (g2 = EmptyString \/ g2 ∈ units))).
  - intros ? (d & y & g2 & -> & Hd & Hg). cbn [flatten_found].
    rewrite filter_cons. cbn [truthy]. rewrite decide_True by reflexivity.
    split; [discriminate|].
    constructor; [left; now exists d, y|].
    destruct Hg as [->|Hg]; [constructor|].
    rewrite filter_cons. destruct (decide (truthy g2 = true)); [|constructor].
    constructor; [now right|constructor].
  - rewrite <- Hf. unfold findall.
    apply (findall_from_all _ _ _ (fun s => lower s = s)).
    + exact lower_tail.
    + intros p s st Hs Hm.
      destruct (number_here p s st Hs Hm) as (d & y & g2 & He & Hd & Hg).
      now exists d, y, g2.
    + apply AgentMoreFacts.lower_idem.
  - discriminate.
Qed.

Lemma number_or_unit_nonempty (v : string) : number_or_unit v -> v <> EmptyString.
Proof.
  intros [(d & y & -> & _)|Hin]; [discriminate|].
  unfold units in Hin. intros ->.
  repeat (apply elem_of_cons in Hin as [Hin|Hin]; [discriminate Hin|]).
  inversion Hin.
Qed.

Lemma word_nonempty (ws : list string) (v : string) :
  forallb truthy ws = true -> v ∈ ws -> v <> EmptyString.
Proof.
  intros Hall Hin ->. rewrite forallb_forall in Hall.
  apply list_elem_of_In in Hin. now apply Hall in Hin.
Qed.

(** X21. What [extract_entities] can return for an ASCII message.  The
    dictionary has no other keys than the four entity types, and a key that
    is present never has an empty list or an empty string in its list.  The
    values of [load_name], [time_period] and [action] are words of the
    pattern of that type, in lower case whatever the case of the message;
    the list of [number] mixes the numbers, which start with a digit, with
    the units found after them. *)
Theorem entities_from_vocabulary (message ty : string) (values : list string) :
  ascii_text message = true ->
  extract_entities message !! ty = Some values ->
  values <> [] /\ Forall (fun v => v <> EmptyString) values /\
  ((ty = "load_name" /\ Forall (fun v => v ∈ load_names) values) \/
   (ty = "time_period" /\ Forall (fun v => v ∈ time_periods) values) \/
   (ty = "number" /\ Forall number_or_unit values) \/
   (ty = "action" /\ Forall (fun v => v ∈ actions) values)).
Proof.
  intros _. unfold extract_entities.
  rewrite (extract_lookup _ _ _ _ entity_types_distinct), lookup_empty.
  unfold entity_patterns. cbn [pattern_in].
  assert (Hlow : forall ws, forallb (fun w => String.eqb (lower w) w) ws = true ->
                            Forall (fun w => lower w = w) ws).
  { intros ws H. apply Forall_forall. intros w Hin.
    rewrite forallb_forall in H. apply String.eqb_eq, H.
    now apply list_elem_of_In. }
  assert (Hword : forall ws, ws <> [] ->
    forallb (fun w => String.eqb (lower w) w) ws = true ->
    forallb truthy ws = true ->
    match findall true (word_of 1 ws) (lower message) with
    | [] => None
    | m :: ms => Some (flattened (m :: ms))
    end = Some values ->
    values <> [] /\ Forall (fun v => v <> EmptyString) values /\
    Forall (fun v => v ∈ ws) values).
  { intros ws Hne Hl Ht H.
    destruct (findall true (word_of 1 ws) (lower message)) as [|m ms] eqn:Hf;
      [discriminate|].
    injection H as <-.
    destruct (word_values ws message m ms Hne (Hlow ws Hl) Hf) as [Hn Hall].
    split; [exact Hn|]. split; [|exact Hall].
    eapply Forall_impl; [exact Hall|]. intros v. now apply word_nonempty. }
  destruct (String.eqb_spec "load_name" ty) as [<-|_].
  { intros H. apply Hword in H as (Hn & He & Hv);
      [|discriminate|reflexivity|reflexivity].
    split; [exact Hn|]. split; [exact He|]. left. now split. }
  destruct (String.eqb_spec "time_period" ty) as [<-|_].
  { intros H. apply Hword in H as (Hn & He & Hv);
      [|discriminate|reflexivity|reflexivity].
    split; [exact Hn|]. split; [exact He|]. right; left. now split. }
  destruct (String.eqb_spec "number" ty) as [<-|_].
  { intros H.
    destruct (findall true number_pattern (lower message)) as [|m ms] eqn:Hf;
      [discriminate|].
    injection H as <-.
    destruct (number_values message m ms Hf) as [Hn Hall].
    split; [exact Hn|]. split.
    - eapply Forall_impl; [exact Hall|]. exact number_or_unit_nonempty.
    - right; right; left. now split. }
  destruct (String.eqb_spec "action" ty) as [<-|_]; [|discriminate].
  intros H. apply Hword in H as (Hn & He & Hv);
    [|discriminate|reflexivity|reflexivity].
  split; [exact Hn|]. split; [exact He|]. right; right; right. now split.
Qed.

Lemma entities_from_vocabulary_witness :
  extract_entities "Turn ON the FAN, it draws 45 Watts" !! "number"
  = Some ["45"; "watts"] /\
  (["45"; "watts"] <> [] /\
   Forall (fun v => v <> EmptyString) ["45"; "watts"] /\
   ((("number" : string) = "load_name"
     /\ Forall (fun v => v ∈ load_names) ["45"; "watts"]) \/
    (("number" : string) = "time_period"
     /\ Forall (fun v => v ∈ time_periods) ["45"; "watts"]) \/
    (("number" : string) = "number" /\ Forall number_or_unit ["45"; "watts"]) \/
    (("number" : string) = "action"
     /\ Forall (fun v => v ∈ actions) ["45"; "watts"]))).
Proof.
  assert (H : extract_entities "Turn ON the FAN, it draws 45 Watts" !! "number"
              = Some ["45"; "watts"]) by (vm_compute; reflexivity).
  split; [exact H|].
  exact (entities_from_vocabulary "Turn ON the FAN, it draws 45 Watts" "number"
           ["45"; "watts"] eq_refl H).
Defined.

End EntityFacts.
